(** * pbir_tools: the PBIRHandler document store

    A shallow embedding of [pbir_tools/pbir_handler.py] together with the
    parts of the Python runtime it calls ([json.dump], [json.load],
    [pathlib.Path], [open]), and the properties of the store that the
    specification states.

    Conventions of the embedding.
    - A file holds bytes, a [string].  A Python [str] is the [string] of its
      UTF-8 code units, with a lone surrogate (which a [str] can hold, and
      which [json.loads] makes of an escape such as [\ud800]) in the
      three-byte form of its code point.  Such a [str] cannot be encoded:
      writing it to a file opened with [encoding='utf-8'] raises
      [UnicodeEncodeError]; reading a file whose bytes are not UTF-8 raises
      [UnicodeDecodeError].
    - A Python [int] is a [Z]; its conversion to and from decimal text is
      refused beyond [sys.int_info.default_max_str_digits] digits.  A Python
      [float] is carried as the lexeme it was read from; how [float.__repr__]
      prints it is a parameter ([float_repr]) of the development.
    - The file system is one tree of directories and regular files with the
      working directory of the process in it.  A path is resolved part by
      part as the operating system does it, [..] included; a path that
      [os.fsencode] cannot encode, or that holds a NUL, is refused before
      that.  Symbolic links, access rights, and the limits of the machine
      (space on the disk, the length of a name, the recursion limit of the
      interpreter) are outside the model.
    - A method is a function on the state [world] (the handler object and the
      file system) that returns an [outcome]: a value, or the exception it
      raised.
    - Documents are values.  In Python [create_new], [load] and [get_tables]
      hand out references into the document, and [add_table] keeps the list
      of columns it was given; a caller that changes the document through
      such a reference, instead of through the methods, is outside the
      model.  Neither the handler nor [main] does. *)

From Stdlib Require Import ZArith Ascii String DecimalString DecimalFacts
  DecimalPos DecimalZ Lia.
From stdpp Require Import base option list strings gmap.

Local Open Scope Z_scope.


(** ** Exceptions and outcomes *)

Inductive exn : Type :=
  | FileNotFoundError
  | FileExistsError
  | NotADirectoryError
  | IsADirectoryError
  | JSONDecodeError
  | UnicodeDecodeError
  | UnicodeEncodeError
  | ValueError
  | KeyError
  | TypeError
  | AttributeError.

#[global] Instance exn_eq_dec : EqDecision exn.
Proof. solve_decision. Defined.

(** [JSONDecodeError], [UnicodeDecodeError] and [UnicodeEncodeError] are
    subclasses of [ValueError]. *)
Definition is_ValueError (e : exn) : bool :=
  match e with
  | JSONDecodeError | UnicodeDecodeError | UnicodeEncodeError | ValueError =>
      true
  | _ => false
  end.

(** The three subclasses of [OSError] that [os.mkdir] and [open] raise here. *)
Definition is_OSError (e : exn) : bool :=
  match e with
  | FileNotFoundError | FileExistsError | NotADirectoryError
  | IsADirectoryError => true
  | _ => false
  end.

Inductive outcome (A : Type) : Type :=
  | Ok (a : A)
  | Raise (e : exn).
Arguments Ok {A} a.
Arguments Raise {A} e.

Definition obind {A B} (o : outcome A) (k : A → outcome B) : outcome B :=
  match o with
  | Ok a => k a
  | Raise e => Raise e
  end.

Notation "'let?' x := o 'in' k" := (obind o (fun x => k))
  (at level 10, x name, o at level 100, k at level 200).

Definition returns {A} (o : outcome A) : bool :=
  match o with Ok _ => true | Raise _ => false end.

(** ** Python values

    The values a document is made of: what [json.load] can produce and
    [json.dump] can write.  A [dict] is an association list in insertion
    order, as Python keeps it; its keys are [str]. *)

#[warnings="-register-all"]
Inductive json : Type :=
  | JNull
  | JBool (b : bool)
  | JInt (n : Z)
  | JFloat (lexeme : string)
  | JStr (s : string)
  | JArr (items : list json)
  | JObj (members : list (string * json)).

(** Induction with the hypotheses for the nested lists. *)
Section json_induction.
Variable P : json → Prop.
Hypothesis Hnull : P JNull.
Hypothesis Hbool : ∀ b, P (JBool b).
Hypothesis Hint : ∀ n, P (JInt n).
Hypothesis Hfloat : ∀ l, P (JFloat l).
Hypothesis Hstr : ∀ s, P (JStr s).
Hypothesis Harr : ∀ items, Forall P items → P (JArr items).
Hypothesis Hobj : ∀ members, Forall (λ kv, P kv.2) members → P (JObj members).

Fixpoint json_nested_ind (v : json) : P v :=
  match v with
  | JNull => Hnull
  | JBool b => Hbool b
  | JInt n => Hint n
  | JFloat l => Hfloat l
  | JStr s => Hstr s
  | JArr items =>
      Harr items
        ((fix go (l : list json) : Forall P l :=
            match l with
            | [] => Forall_nil_2 P
            | x :: l' => Forall_cons_2 P x l' (json_nested_ind x) (go l')
            end) items)
  | JObj members =>
      Hobj members
        ((fix go (l : list (string * json)) : Forall (λ kv, P kv.2) l :=
            match l with
            | [] => Forall_nil_2 _
            | kv :: l' =>
                Forall_cons_2 (λ kv, P kv.2) kv l'
                  (json_nested_ind kv.2) (go l')
            end) members)
  end.
End json_induction.

(** *** [dict] operations *)

Fixpoint dict_get (d : list (string * json)) (k : string) : option json :=
  match d with
  | [] => None
  | (k', v) :: d' => if String.eqb k' k then Some v else dict_get d' k
  end.

(** [d[k] = v]: an existing key keeps its position, a new one goes last. *)
Fixpoint dict_set (d : list (string * json)) (k : string) (v : json)
  : list (string * json) :=
  match d with
  | [] => [(k, v)]
  | (k', v') :: d' =>
      if String.eqb k' k then (k', v) :: d' else (k', v') :: dict_set d' k v
  end.

Definition dict_has (d : list (string * json)) (k : string) : bool :=
  match dict_get d k with Some _ => true | None => false end.

(** [dict(pairs)], as [json.load] builds an object from its members. *)
Definition dict_of_pairs (pairs : list (string * json)) : list (string * json) :=
  fold_left (λ d kv, dict_set d kv.1 kv.2) pairs [].

(** [needle in haystack] on [str]. *)
Fixpoint str_contains (needle haystack : string) : bool :=
  String.prefix needle haystack ||
  match haystack with
  | EmptyString => false
  | String _ rest => str_contains needle rest
  end.

(** [len] of a [str]: its code points, the code units that are not
    continuation bytes [10xxxxxx]. *)
Fixpoint str_len (s : string) : Z :=
  match s with
  | EmptyString => 0
  | String (Ascii _ _ _ _ _ _ b6 b7) rest =>
      (if b7 && negb b6 then 0 else 1) + str_len rest
  end.

(** *** The operations of the data model that the handler uses *)

(** [k in v] for a [str] key [k]. *)
Definition py_contains (v : json) (k : string) : outcome bool :=
  match v with
  | JObj d => Ok (dict_has d k)
  | JArr l =>
      Ok (existsb (λ x, match x with JStr s => String.eqb s k | _ => false end) l)
  | JStr s => Ok (str_contains k s)
  | _ => Raise TypeError
  end.

(** [v[k]] for a [str] key [k]. *)
Definition py_getitem (v : json) (k : string) : outcome json :=
  match v with
  | JObj d => match dict_get d k with Some x => Ok x | None => Raise KeyError end
  | _ => Raise TypeError
  end.

(** [v[k] = x] for a [str] key [k]; the result is the updated [v]. *)
Definition py_setitem (v : json) (k : string) (x : json) : outcome json :=
  match v with
  | JObj d => Ok (JObj (dict_set d k x))
  | _ => Raise TypeError
  end.

(** [v.get(k, default)]. *)
Definition py_get (v : json) (k : string) (default : json) : outcome json :=
  match v with
  | JObj d => Ok (match dict_get d k with Some x => x | None => default end)
  | _ => Raise AttributeError
  end.

(** [v.append(x)]; the result is the updated [v]. *)
Definition py_append (v : json) (x : json) : outcome json :=
  match v with
  | JArr l => Ok (JArr (l ++ [x]))
  | _ => Raise AttributeError
  end.

(** [len(v)]. *)
Definition py_len (v : json) : outcome Z :=
  match v with
  | JArr l => Ok (Z.of_nat (length l))
  | JObj d => Ok (Z.of_nat (length d))
  | JStr s => Ok (str_len s)
  | _ => Raise TypeError
  end.

(** [columns or []] for [columns: list = None]. *)
Definition or_empty_list (columns : option (list json)) : json :=
  match columns with
  | None | Some [] => JArr []
  | Some l => JArr l
  end.

(** ** Paths ([pathlib.PurePosixPath])

    A path is the list of its parts, the anchor ["/"] first when it is
    absolute.  [pathlib] keeps a [..] part as it is; the file system resolves
    it. *)

Abbreviation PosixPath := (list string).

(** [s.split("/")]. *)
Fixpoint split_slash (cur : string) (s : string) : list string :=
  match s with
  | EmptyString => [cur]
  | String c rest =>
      if Ascii.eqb c "/" then cur :: split_slash EmptyString rest
      else split_slash (cur +:+ String c EmptyString) rest
  end.

Definition is_part (c : string) : bool :=
  negb (String.eqb c "") && negb (String.eqb c ".").

(** [Path(s)]: empty and ["."] parts are dropped.  Any run of leading
    slashes is the anchor ["/"] (POSIX keeps exactly two as a root of its
    own, which the model does not set apart). *)
Definition Path (s : string) : PosixPath :=
  (if String.prefix "/" s then ["/"] else [])
    ++ filter (λ c, is_part c = true) (split_slash EmptyString s).

(** The empty path (the working directory) and the anchor. *)
Definition is_root (p : PosixPath) : bool :=
  bool_decide (p = []) || bool_decide (p = ["/"]).

(** [p.name]: the last part, empty for an anchor or for the empty path. *)
Definition name (p : PosixPath) : string :=
  if is_root p then "" else List.last p "".

(** [p.parent]: the path without its name; an anchor or the empty path is
    its own parent. *)
Definition parent (p : PosixPath) : PosixPath :=
  if is_root p then p else removelast p.

(** [p / "child"]. *)
Definition joinpath (p : PosixPath) (child : string) : PosixPath := p ++ [child].

(** [s.rfind(".")]: the index of the last dot, as [Some i], or [None]
    (Python's [-1]). *)
Fixpoint rfind_dot (s : string) : option nat :=
  match s with
  | EmptyString => None
  | String c rest =>
      match rfind_dot rest with
      | Some i => Some (S i)
      | None => if Ascii.eqb c "." then Some 0%nat else None
      end
  end.

(** [p.suffix] (Python 3.8 to 3.13):
    [i = name.rfind('.'); name[i:] if 0 < i < len(name) - 1 else '']. *)
Definition suffix (p : PosixPath) : string :=
  let n := name p in
  match rfind_dot n with
  | Some i =>
      if (0 <? i)%nat && (i <? String.length n - 1)%nat
      then String.substring i (String.length n - i) n
      else ""
  | None => ""
  end.

(** ** UTF-8

    What the codec [utf-8] with [errors='strict'] accepts: the shortest form
    of every code point up to U+10FFFF that is not a surrogate.  The decoder
    as an automaton over the bytes. *)

Inductive utf8_state : Type :=
  | U_start   (* between two characters *)
  | U_cont1   (* one continuation byte to come *)
  | U_cont2   (* two continuation bytes to come *)
  | U_cont3   (* three continuation bytes to come *)
  | U_E0      (* after E0: A0..BF, then one continuation byte *)
  | U_ED      (* after ED: 80..9F, then one continuation byte *)
  | U_F0      (* after F0: 90..BF, then two continuation bytes *)
  | U_F4.     (* after F4: 80..8F, then two continuation bytes *)

Definition in_range (lo hi n : N) : bool := (lo <=? n)%N && (n <=? hi)%N.

Definition utf8_step (st : utf8_state) (c : ascii) : option utf8_state :=
  let n := N_of_ascii c in
  match st with
  | U_start =>
      if (n <? 128)%N then Some U_start
      else if in_range 194 223 n then Some U_cont1
      else if (n =? 224)%N then Some U_E0
      else if in_range 225 236 n || in_range 238 239 n then Some U_cont2
      else if (n =? 237)%N then Some U_ED
      else if (n =? 240)%N then Some U_F0
      else if in_range 241 243 n then Some U_cont3
      else if (n =? 244)%N then Some U_F4
      else None
  | U_cont1 => if in_range 128 191 n then Some U_start else None
  | U_cont2 => if in_range 128 191 n then Some U_cont1 else None
  | U_cont3 => if in_range 128 191 n then Some U_cont2 else None
  | U_E0 => if in_range 160 191 n then Some U_cont1 else None
  | U_ED => if in_range 128 159 n then Some U_cont1 else None
  | U_F0 => if in_range 144 191 n then Some U_cont2 else None
  | U_F4 => if in_range 128 143 n then Some U_cont2 else None
  end.

Fixpoint utf8_run (st : utf8_state) (s : string) : option utf8_state :=
  match s with
  | EmptyString => Some st
  | String c r =>
      match utf8_step st c with
      | Some st' => utf8_run st' r
      | None => None
      end
  end.

(** The bytes [s] are UTF-8: [bytes.decode('utf-8')] returns.  For a [str]:
    it holds no surrogate, [str.encode('utf-8')] returns. *)
Definition utf8_valid (s : string) : bool :=
  match utf8_run U_start s with
  | Some U_start => true
  | _ => false
  end.

(** What [os.fsencode] accepts, the encoding of file names being UTF-8 with
    [surrogateescape]: the surrogates U+DC80 to U+DCFF ([ED B2 80] to
    [ED B3 BF] here) stand for the bytes 80 to FF of a name that is not
    UTF-8; every other surrogate is refused. *)
Definition fs_step (st : utf8_state) (c : ascii) : option utf8_state :=
  match st with
  | U_ED =>
      let n := N_of_ascii c in
      if in_range 128 159 n || in_range 178 179 n then Some U_cont1 else None
  | _ => utf8_step st c
  end.

Fixpoint fs_run (st : utf8_state) (s : string) : option utf8_state :=
  match s with
  | EmptyString => Some st
  | String c r =>
      match fs_step st c with
      | Some st' => fs_run st' r
      | None => None
      end
  end.

Definition fsencodable (s : string) : bool :=
  match fs_run U_start s with
  | Some U_start => true
  | _ => false
  end.

Fixpoint has_nul (s : string) : bool :=
  match s with
  | EmptyString => false
  | String c r => Ascii.eqb c "000" || has_nul r
  end.

(** ** The file system

    One tree: a finite map from places to entries, and the working directory
    of the process.  A place is the list of names that lead to it from the
    root directory.  The root, the working directory and the directories
    above it are directories.  The operating system reaches an entry by
    resolving a path part by part ([locate]); entries of the map that no path
    reaches do not exist for the program. *)

Inductive node : Type :=
  | File (content : string)
  | Dir.

Abbreviation loc := (list string).

Record FS : Type := {
  cwd : loc;
  tree : gmap loc node
}.

Definition entry (fs : FS) (l : loc) : option node :=
  if bool_decide (l `prefix_of` cwd fs) then Some Dir else tree fs !! l.

(** The entry [n] at the place [l]. *)
Definition put (l : loc) (n : node) (fs : FS) : FS :=
  {| cwd := cwd fs; tree := <[l := n]> (tree fs) |}.

(** One part of a path, taken in the directory [l]: the anchor leads to the
    root, [..] to the directory above (the root is above itself), a name to
    the entry of that name. *)
Definition step (l : loc) (c : string) : loc :=
  if String.eqb c "/" then []
  else if String.eqb c ".." then removelast l
  else l ++ [c].

(** Path resolution: the place the parts [rest] lead to from the place [l].
    Each part is taken in a directory. *)
Fixpoint walk (fs : FS) (l : loc) (rest : PosixPath) : outcome loc :=
  match rest with
  | [] => Ok l
  | c :: rest' =>
      match entry fs l with
      | Some Dir => walk fs (step l c) rest'
      | Some (File _) => Raise NotADirectoryError
      | None => Raise FileNotFoundError
      end
  end.

(** A path on its way to a system call: [os.fsencode] raises
    [UnicodeEncodeError] on a part it cannot encode, and the call raises
    [ValueError] on an embedded NUL.  Both happen before the file system is
    looked at. *)
Definition os_path (p : PosixPath) : outcome unit :=
  if negb (forallb fsencodable p) then Raise UnicodeEncodeError
  else if existsb has_nul p then Raise ValueError
  else Ok tt.

(** The place of [p]: a relative path starts in the working directory. *)
Definition locate (fs : FS) (p : PosixPath) : outcome loc :=
  let? _ := os_path p in
  walk fs (cwd fs) p.

(** The answer of [stat] for an entry of the map. *)
Definition of_entry (o : option node) : outcome node :=
  match o with
  | Some n => Ok n
  | None => Raise FileNotFoundError
  end.

(** [os.stat(p)]. *)
Definition stat (fs : FS) (p : PosixPath) : outcome node :=
  let? l := locate fs p in
  of_entry (entry fs l).

(** [p.exists()]: [stat] answers.  ([exists] and [is_dir] take the
    [OSError] of a missing entry and the [ValueError] of a path that cannot
    be given to the system for the answer no.) *)
Definition exists_ (fs : FS) (p : PosixPath) : bool := returns (stat fs p).

(** [p.is_dir()]. *)
Definition is_dir (fs : FS) (p : PosixPath) : bool :=
  match stat fs p with
  | Ok Dir => true
  | _ => false
  end.

(** [p.is_file()]. *)
Definition is_file (fs : FS) (p : PosixPath) : bool :=
  match stat fs p with
  | Ok (File _) => true
  | _ => false
  end.

(** [os.mkdir(p)]: the path is resolved, and the directory is made where
    nothing is. *)
Definition os_mkdir (fs : FS) (p : PosixPath) : outcome FS :=
  let? l := locate fs p in
  match entry fs l with
  | Some _ => Raise FileExistsError
  | None => Ok (put l Dir fs)
  end.

(** [Path.mkdir(parents, exist_ok)]:
<<
    try: os.mkdir(self, mode)
    except FileNotFoundError:
        if not parents or self.parent == self: raise
        self.parent.mkdir(parents=True, exist_ok=True)
        self.mkdir(mode, parents=False, exist_ok=exist_ok)
    except OSError:
        if not exist_ok or not self.is_dir(): raise
>>
    The result is paired with the file system the call leaves, since a call
    that raises can have made some of the parents.  The recursion goes to the
    parent, so the number of parts bounds it. *)
Fixpoint mkdir_rec (fuel : nat) (parents exist_ok : bool) (fs : FS)
    (p : PosixPath) : outcome unit * FS :=
  match os_mkdir fs p with
  | Ok fs' => (Ok tt, fs')
  | Raise FileNotFoundError =>
      if negb parents || bool_decide (parent p = p)
      then (Raise FileNotFoundError, fs)
      else
        match fuel with
        | O => (Raise FileNotFoundError, fs)
        | S fuel' =>
            match mkdir_rec fuel' true true fs (parent p) with
            | (Ok _, fs1) => mkdir_rec fuel' false exist_ok fs1 p
            | (Raise e, fs1) => (Raise e, fs1)
            end
        end
  | Raise e =>
      if is_OSError e then
        if negb exist_ok || negb (is_dir fs p) then (Raise e, fs)
        else (Ok tt, fs)
      else (Raise e, fs)
  end.

Definition mkdir (parents exist_ok : bool) (fs : FS) (p : PosixPath)
  : outcome unit * FS :=
  mkdir_rec (length p) parents exist_ok fs p.

(** [open(p, 'r', encoding='utf-8').read()]: the bytes of the file, decoded.
    (The translation of [\r\n] and [\r] to [\n] that text mode applies is
    left out: the three are the same white space to [json.load] between
    tokens and the same error inside a string.) *)
Definition read_text (fs : FS) (p : PosixPath) : outcome string :=
  match stat fs p with
  | Ok (File content) =>
      if utf8_valid content then Ok content else Raise UnicodeDecodeError
  | Ok Dir => Raise IsADirectoryError
  | Raise e => Raise e
  end.

(** [open(p, 'w', encoding='utf-8')]: the place of the file, which is made
    or emptied there. *)
Definition open_w (fs : FS) (p : PosixPath) : outcome loc :=
  let? l := locate fs p in
  match entry fs l with
  | Some Dir => Raise IsADirectoryError
  | _ => Ok l
  end.

(** ** [json.dump(obj, f, indent=2, ensure_ascii=False)] *)

Section PBIR.

(** The text [json.dump] writes for the float that a lexeme denotes:
    [float.__repr__] of it, or [NaN], [Infinity], [-Infinity]. *)
Variable float_repr : string → string.

Definition hex_char (n : N) : ascii :=
  ascii_of_N (if (n <? 10)%N then 48 + n else 87 + n)%N.

(** [ESCAPE_DCT]: the two-character escapes, and [\u00XX] for the other
    control characters. *)
Definition escape_char (c : ascii) : string :=
  let n := N_of_ascii c in
  if (n =? 34)%N then String "\" (String "034" "")
  else if (n =? 92)%N then "\\"
  else if (n =? 8)%N then "\b"
  else if (n =? 12)%N then "\f"
  else if (n =? 10)%N then "\n"
  else if (n =? 13)%N then "\r"
  else if (n =? 9)%N then "\t"
  else if (n <? 32)%N then
    "\u00" +:+ String (hex_char (n / 16)) (String (hex_char (n mod 16)) "")
  else String c "".

Fixpoint escape (s : string) : string :=
  match s with
  | EmptyString => ""
  | String c rest => escape_char c +:+ escape rest
  end.

(** [encode_basestring]. *)
Definition encode_str (s : string) : string :=
  String "034" (escape s +:+ String "034" "").

Fixpoint spaces (n : nat) : string :=
  match n with
  | O => ""
  | S n' => String " " (spaces n')
  end.

(** ['\n' + ' ' * (2 * level)]. *)
Definition newline_indent (level : nat) : string :=
  String "010" (spaces (2 * level)).

(** [int.__repr__]. *)
Definition int_repr (n : Z) : string := NilZero.string_of_int (Z.to_int n).

(** [_iterencode] at nesting depth [level], its chunks joined. *)
Fixpoint dumps_at (level : nat) (v : json) : string :=
  match v with
  | JNull => "null"
  | JBool true => "true"
  | JBool false => "false"
  | JInt n => int_repr n
  | JFloat l => float_repr l
  | JStr s => encode_str s
  | JArr items =>
      match items with
      | [] => "[]"
      | _ =>
          "[" +:+ newline_indent (S level) +:+
          (fix elems (l : list json) : string :=
             match l with
             | [] => ""
             | x :: l' =>
                 dumps_at (S level) x +:+
                 match l' with
                 | [] => newline_indent level +:+ "]"
                 | _ => "," +:+ newline_indent (S level) +:+ elems l'
                 end
             end) items
      end
  | JObj members =>
      match members with
      | [] => "{}"
      | _ =>
          "{" +:+ newline_indent (S level) +:+
          (fix elems (l : list (string * json)) : string :=
             match l with
             | [] => ""
             | kv :: l' =>
                 encode_str kv.1 +:+ ": " +:+ dumps_at (S level) kv.2 +:+
                 match l' with
                 | [] => newline_indent level +:+ "}"
                 | _ => "," +:+ newline_indent (S level) +:+ elems l'
                 end
             end) members
      end
  end.

Definition json_dumps (v : json) : string := dumps_at 0 v.

(** *** The chunks [json.dump] writes

    [json.dump] writes the chunks of [_iterencode] to the file one by one, so
    what the file holds when a chunk or its [write] raises is what the chunks
    before it add up to. *)

(** [sys.int_info.default_max_str_digits]. *)
Definition int_max_str_digits : Z := 4300.

(** The numeral has no more digits than [int] converts to or from text. *)
Definition digits_ok (u : Decimal.uint) : bool :=
  Z.of_nat (Decimal.nb_digits u) <=? int_max_str_digits.

Definition int_digits (n : Z) : Decimal.uint :=
  match Z.to_int n with
  | Decimal.Pos u | Decimal.Neg u => u
  end.

(** [int.__repr__], which raises over the limit. *)
Definition int_str (n : Z) : outcome string :=
  if digits_ok (int_digits n) then Ok (int_repr n) else Raise ValueError.

(** A generator: the chunks it yields, and the exception that ends it, if
    one does. *)
Definition gen : Type := list string * option exn.

Definition yield (chunk : string) : gen := ([chunk], None).

Definition gen_done : gen := ([], None).

(** One generator after the other. *)
Definition gen_seq (g1 g2 : gen) : gen :=
  match g1.2 with
  | Some e => g1
  | None => (g1.1 ++ g2.1, g2.2)
  end.

Fixpoint gens (l : list gen) : gen :=
  match l with
  | [] => gen_done
  | g :: l' => gen_seq g (gens l')
  end.

(** The text of a value that is not a list or a dict. *)
Definition atom (v : json) : option (outcome string) :=
  match v with
  | JStr s => Some (Ok (encode_str s))
  | JNull => Some (Ok "null")
  | JBool true => Some (Ok "true")
  | JBool false => Some (Ok "false")
  | JInt n => Some (int_str n)
  | JFloat l => Some (Ok (float_repr l))
  | JArr _ | JObj _ => None
  end.

(** [yield buf + text], where computing [text] can raise. *)
Definition yield_atom (buf : string) (a : outcome string) : gen :=
  match a with
  | Ok text => yield (buf +:+ text)
  | Raise e => ([], Some e)
  end.

(** [_iterencode], [_iterencode_list] and [_iterencode_dict] at nesting
    depth [level].  In a list the opening bracket or the separator is one
    chunk with the text of an item that is not a container; in a dict the
    brace, the separator, the key, the colon and the value are chunks of
    their own. *)
Fixpoint iterencode (level : nat) (v : json) : gen :=
  match v with
  | JArr items =>
      match items with
      | [] => yield "[]"
      | _ =>
          gens [
            (fix elems (buf : string) (l : list json) : gen :=
               match l with
               | [] => gen_done
               | x :: l' =>
                   gen_seq
                     match atom x with
                     | Some a => yield_atom buf a
                     | None => gen_seq (yield buf) (iterencode (S level) x)
                     end
                     (elems ("," +:+ newline_indent (S level)) l')
               end) ("[" +:+ newline_indent (S level)) items;
            yield (newline_indent level);
            yield "]" ]
      end
  | JObj members =>
      match members with
      | [] => yield "{}"
      | _ =>
          gens [
            yield "{";
            yield (newline_indent (S level));
            (fix elems (first : bool) (l : list (string * json)) : gen :=
               match l with
               | [] => gen_done
               | kv :: l' =>
                   gens [
                     if first then gen_done
                     else yield ("," +:+ newline_indent (S level));
                     yield (encode_str kv.1);
                     yield ": ";
                     match atom kv.2 with
                     | Some a => yield_atom "" a
                     | None => iterencode (S level) kv.2
                     end;
                     elems false l' ]
               end) true members;
            yield (newline_indent level);
            yield "}" ]
      end
  | _ =>
      match atom v with
      | Some a => yield_atom "" a
      | None => gen_done
      end
  end.

(** [fp.write(chunk)] for each chunk: a chunk that holds a surrogate is not
    written and ends the loop. *)
Fixpoint write_chunks (chunks : list string) (written : string)
  : outcome unit * string :=
  match chunks with
  | [] => (Ok tt, written)
  | chunk :: chunks' =>
      if utf8_valid chunk then write_chunks chunks' (written +:+ chunk)
      else (Raise UnicodeEncodeError, written)
  end.

(** [json.dump(obj, fp, indent=2, ensure_ascii=False)] on a file that was
    opened empty: how it ends, and what the file holds then. *)
Definition json_dump (v : json) : outcome unit * string :=
  let g := iterencode 0 v in
  match write_chunks g.1 "" with
  | (Ok _, written) =>
      (match g.2 with Some e => Raise e | None => Ok tt end, written)
  | failed => failed
  end.
(** ** [json.load(f)]

    The scanner of [json.decoder] and [json.scanner].  It raises
    [JSONDecodeError] where the text is not what it expects, and [ValueError]
    where an integer has more digits than [int] converts. *)

Definition is_ws (c : ascii) : bool :=
  let n := N_of_ascii c in
  (n =? 32)%N || (n =? 9)%N || (n =? 10)%N || (n =? 13)%N.

(** [WHITESPACE.match(s, end).end()]. *)
Fixpoint skip_ws (s : string) : string :=
  match s with
  | EmptyString => ""
  | String c rest => if is_ws c then skip_ws rest else s
  end.

Definition hex_val (c : ascii) : option N :=
  let n := N_of_ascii c in
  if (48 <=? n)%N && (n <=? 57)%N then Some (n - 48)%N
  else if (97 <=? n)%N && (n <=? 102)%N then Some (n - 87)%N
  else if (65 <=? n)%N && (n <=? 70)%N then Some (n - 55)%N
  else None.

(** [_decode_uXXXX]: four hexadecimal digits. *)
Definition hex4 (a b c d : ascii) : option N :=
  match hex_val a, hex_val b, hex_val c, hex_val d with
  | Some x, Some y, Some z, Some w => Some (((x * 16 + y) * 16 + z) * 16 + w)%N
  | _, _, _, _ => None
  end.

(** [chr(cp)], as its UTF-8 code units.  A lone surrogate, which Python
    keeps as a code point of its own, is written in the three-byte form. *)
Definition chr (cp : N) : string :=
  let b (n : N) := ascii_of_N n in
  if (cp <? 128)%N then String (b cp) ""
  else if (cp <? 2048)%N then
    String (b (192 + cp / 64)%N) (String (b (128 + cp mod 64)%N) "")
  else if (cp <? 65536)%N then
    String (b (224 + cp / 4096)%N)
      (String (b (128 + (cp / 64) mod 64)%N) (String (b (128 + cp mod 64)%N) ""))
  else
    String (b (240 + cp / 262144)%N)
      (String (b (128 + (cp / 4096) mod 64)%N)
         (String (b (128 + (cp / 64) mod 64)%N) (String (b (128 + cp mod 64)%N) ""))).

(** [BACKSLASH]: the one-character escapes. *)
Definition unescape (c : ascii) : option ascii :=
  let n := N_of_ascii c in
  if (n =? 34)%N then Some "034"%char
  else if (n =? 92)%N then Some "\"%char
  else if (n =? 47)%N then Some "/"%char
  else if (n =? 98)%N then Some "008"%char
  else if (n =? 102)%N then Some "012"%char
  else if (n =? 110)%N then Some "010"%char
  else if (n =? 114)%N then Some "013"%char
  else if (n =? 116)%N then Some "009"%char
  else None.

Definition prepend (pre : string) (r : option (string * string))
  : option (string * string) :=
  match r with
  | Some (content, rest) => Some (pre +:+ content, rest)
  | None => None
  end.

Definition is_high_surrogate (u : N) : bool := (55296 <=? u)%N && (u <=? 56319)%N.
Definition is_low_surrogate (u : N) : bool := (56320 <=? u)%N && (u <=? 57343)%N.

(** [scanstring(s, end, strict=True)], from the character after the opening
    quote: the decoded string and what follows the closing quote. *)
Fixpoint scanstring (s : string) : option (string * string) :=
  match s with
  | EmptyString => None
  | String c r =>
      let n := N_of_ascii c in
      if (n =? 34)%N then Some ("", r)
      else if (n =? 92)%N then
        match r with
        | EmptyString => None
        | String e r1 =>
            if Ascii.eqb e "u" then
              match r1 with
              | String h1 (String h2 (String h3 (String h4 r2))) =>
                  match hex4 h1 h2 h3 h4 with
                  | None => None
                  | Some u =>
                      if is_high_surrogate u then
                        match r2 with
                        | String b1 (String b2
                            (String g1 (String g2 (String g3 (String g4 r3))))) =>
                            if Ascii.eqb b1 "\" && Ascii.eqb b2 "u" then
                              match hex4 g1 g2 g3 g4 with
                              | None => None
                              | Some u2 =>
                                  if is_low_surrogate u2 then
                                    prepend
                                      (chr (65536 + (u - 55296) * 1024
                                            + (u2 - 56320))%N)
                                      (scanstring r3)
                                  else prepend (chr u) (scanstring r2)
                              end
                            else prepend (chr u) (scanstring r2)
                        | _ => prepend (chr u) (scanstring r2)
                        end
                      else prepend (chr u) (scanstring r2)
                  end
              | _ => None
              end
            else
              match unescape e with
              | Some ch => prepend (String ch "") (scanstring r1)
              | None => None
              end
        end
      else if (n <? 32)%N then None
      else prepend (String c "") (scanstring r)
  end.

Definition digit (c : ascii) : option (Decimal.uint → Decimal.uint) :=
  match c with
  | "0" => Some Decimal.D0 | "1" => Some Decimal.D1 | "2" => Some Decimal.D2
  | "3" => Some Decimal.D3 | "4" => Some Decimal.D4 | "5" => Some Decimal.D5
  | "6" => Some Decimal.D6 | "7" => Some Decimal.D7 | "8" => Some Decimal.D8
  | "9" => Some Decimal.D9
  | _ => None
  end%char.

(** [[0-9]*]: the digits read and what follows them. *)
Fixpoint scan_digits (s : string) : Decimal.uint * string :=
  match s with
  | EmptyString => (Decimal.Nil, "")
  | String c r =>
      match digit c with
      | Some d => let '(u, rest) := scan_digits r in (d u, rest)
      | None => (Decimal.Nil, s)
      end
  end.

(** [0|[1-9][0-9]*]. *)
Definition scan_integer (s : string) : option (Decimal.uint * string) :=
  match s with
  | EmptyString => None
  | String c r =>
      if Ascii.eqb c "0" then Some (Decimal.D0 Decimal.Nil, r)
      else
        match digit c with
        | Some d => let '(u, rest) := scan_digits r in Some (d u, rest)
        | None => None
        end
  end.

(** [(\.[0-9]+)?]: the text matched, empty when the group does not match. *)
Definition scan_frac (s : string) : string * string :=
  match s with
  | String c r =>
      if Ascii.eqb c "." then
        match scan_digits r with
        | (Decimal.Nil, _) => ("", s)
        | (f, rest) => ("." +:+ NilEmpty.string_of_uint f, rest)
        end
      else ("", s)
  | EmptyString => ("", s)
  end.

(** [([eE][-+]?[0-9]+)?]. *)
Definition scan_exp (s : string) : string * string :=
  match s with
  | String c r =>
      if Ascii.eqb c "e" || Ascii.eqb c "E" then
        let '(sign, r1) :=
          match r with
          | String g r' =>
              if Ascii.eqb g "+" || Ascii.eqb g "-" then (String g "", r')
              else ("", r)
          | EmptyString => ("", r)
          end in
        match scan_digits r1 with
        | (Decimal.Nil, _) => ("", s)
        | (x, rest) =>
            (String c sign +:+ NilEmpty.string_of_uint x, rest)
        end
      else ("", s)
  | EmptyString => ("", s)
  end.


(** [NUMBER_RE.match] and the conversion of [_scan_once]: an [int] when
    neither a fraction nor an exponent is present, a [float] otherwise.
    [None] when the text is not a number. *)
Definition scan_number (s : string) : option (outcome (json * string)) :=
  let '(neg, s1) :=
    match s with
    | String c r => if Ascii.eqb c "-" then (true, r) else (false, s)
    | EmptyString => (false, s)
    end in
  match scan_integer s1 with
  | None => None
  | Some (i, s2) =>
      let '(frac, s3) := scan_frac s2 in
      let '(exp, s4) := scan_exp s3 in
      if String.eqb frac "" && String.eqb exp "" then
        if digits_ok i then
          Some (Ok (JInt (Z.of_int (if neg then Decimal.Neg i
                                    else Decimal.Pos i)), s4))
        else Some (Raise ValueError)
      else
        Some (Ok (JFloat ((if neg then "-" else "")
                          +:+ NilEmpty.string_of_uint i +:+ frac +:+ exp), s4))
  end.

(** [s[idx:idx+len(lit)] == lit], and the rest after it. *)
Fixpoint strip_prefix (lit s : string) : option string :=
  match lit, s with
  | EmptyString, _ => Some s
  | String a lit', String b s' =>
      if Ascii.eqb a b then strip_prefix lit' s' else None
  | String _ _, EmptyString => None
  end.

Definition scan_constant (s : string) : outcome (json * string) :=
  match strip_prefix "null" s with
  | Some r => Ok (JNull, r)
  | None =>
  match strip_prefix "true" s with
  | Some r => Ok (JBool true, r)
  | None =>
  match strip_prefix "false" s with
  | Some r => Ok (JBool false, r)
  | None =>
  match scan_number s with
  | Some res => res
  | None =>
  match strip_prefix "NaN" s with
  | Some r => Ok (JFloat "NaN", r)
  | None =>
  match strip_prefix "Infinity" s with
  | Some r => Ok (JFloat "Infinity", r)
  | None =>
  match strip_prefix "-Infinity" s with
  | Some r => Ok (JFloat "-Infinity", r)
  | None => Raise JSONDecodeError
  end end end end end end end.

(** [scan_once], [JSONArray] and [JSONObject].  [fuel] bounds the nesting of
    the calls; [json_loads] supplies more than any text can use. *)
Fixpoint scan_once (fuel : nat) (s : string) : outcome (json * string) :=
  match fuel with
  | O => Raise JSONDecodeError
  | S fuel' =>
      match s with
      | EmptyString => Raise JSONDecodeError
      | String c r =>
          if Ascii.eqb c "034" then
            match scanstring r with
            | Some (str, rest) => Ok (JStr str, rest)
            | None => Raise JSONDecodeError
            end
          else if Ascii.eqb c "{" then
            match skip_ws r with
            | String c1 r1 =>
                if Ascii.eqb c1 "}" then Ok (JObj [], r1)
                else
                  match object_items fuel' (String c1 r1) with
                  | Ok (pairs, rest) => Ok (JObj (dict_of_pairs pairs), rest)
                  | Raise e => Raise e
                  end
            | EmptyString => Raise JSONDecodeError
            end
          else if Ascii.eqb c "[" then
            match skip_ws r with
            | String c1 r1 =>
                if Ascii.eqb c1 "]" then Ok (JArr [], r1)
                else
                  match array_items fuel' (String c1 r1) with
                  | Ok (values, rest) => Ok (JArr values, rest)
                  | Raise e => Raise e
                  end
            | EmptyString => Raise JSONDecodeError
            end
          else scan_constant s
      end
  end
with array_items (fuel : nat) (s : string) : outcome (list json * string) :=
  match fuel with
  | O => Raise JSONDecodeError
  | S fuel' =>
      match scan_once fuel' s with
      | Raise e => Raise e
      | Ok (value, r) =>
          match skip_ws r with
          | String c r1 =>
              if Ascii.eqb c "]" then Ok ([value], r1)
              else if Ascii.eqb c "," then
                match array_items fuel' (skip_ws r1) with
                | Ok (values, rest) => Ok (value :: values, rest)
                | Raise e => Raise e
                end
              else Raise JSONDecodeError
          | EmptyString => Raise JSONDecodeError
          end
      end
  end
with object_items (fuel : nat) (s : string)
  : outcome (list (string * json) * string) :=
  match fuel with
  | O => Raise JSONDecodeError
  | S fuel' =>
      match s with
      | EmptyString => Raise JSONDecodeError
      | String q r =>
          if negb (Ascii.eqb q "034") then Raise JSONDecodeError
          else
            match scanstring r with
            | None => Raise JSONDecodeError
            | Some (key, r1) =>
                match skip_ws r1 with
                | EmptyString => Raise JSONDecodeError
                | String c r2 =>
                    if negb (Ascii.eqb c ":") then Raise JSONDecodeError
                    else
                      match scan_once fuel' (skip_ws r2) with
                      | Raise e => Raise e
                      | Ok (value, r3) =>
                          match skip_ws r3 with
                          | EmptyString => Raise JSONDecodeError
                          | String c3 r4 =>
                              if Ascii.eqb c3 "}" then Ok ([(key, value)], r4)
                              else if Ascii.eqb c3 "," then
                                match object_items fuel' (skip_ws r4) with
                                | Ok (pairs, rest) =>
                                    Ok ((key, value) :: pairs, rest)
                                | Raise e => Raise e
                                end
                              else Raise JSONDecodeError
                          end
                      end
                end
            end
      end
  end.

(** [json.loads(s)]: a leading byte order mark is refused, white space may
    surround the value, and nothing else may follow it.  Each call of the
    scanner that goes one level down has read a character, so twice the
    length of the text is more fuel than the scanner uses. *)
Definition json_loads (s : string) : outcome json :=
  if String.prefix (String "239" (String "187" (String "191" ""))) s
  then Raise JSONDecodeError
  else
    match scan_once (2 * String.length s + 2) (skip_ws s) with
    | Ok (v, rest) =>
        match skip_ws rest with
        | EmptyString => Ok v
        | String _ _ => Raise JSONDecodeError
        end
    | Raise e => Raise e
    end.

(** [json.load(f)] on [open(p, 'r', encoding='utf-8')]. *)
Definition json_load (fs : FS) (p : PosixPath) : outcome json :=
  let? text := read_text fs p in
  json_loads text.
(** ** [class PBIRHandler] *)

Record PBIRHandler : Type := {
  path : option PosixPath;
  metadata : json
}.

(** The state a method runs in: the object and the file system. *)
Record world : Type := {
  self : PBIRHandler;
  disk : FS
}.

Definition set_metadata (m : json) (w : world) : world :=
  {| self := {| path := path (self w); metadata := m |}; disk := disk w |}.

Definition set_disk (fs : FS) (w : world) : world :=
  {| self := self w; disk := fs |}.

(** [Path(s) if s else None]: [None] and the empty string are false. *)
Definition path_of_arg (arg : option string) : option PosixPath :=
  match arg with
  | None => None
  | Some s => if String.eqb s "" then None else Some (Path s)
  end.

Definition _create_default_metadata : json :=
  JObj [("version", JStr "1.0");
        ("datamodel", JObj [("tables", JArr []); ("relationships", JArr [])]);
        ("reports", JArr []);
        ("settings", JObj [])].

Definition load (w : world) : outcome json * world :=
  match path (self w) with
  | None => (Raise FileNotFoundError, w)
  | Some p =>
      if negb (exists_ (disk w) p) then (Raise FileNotFoundError, w)
      else
        let loaded :=
          if is_dir (disk w) p then
            let metadata_file := joinpath p "definition.pbir" in
            if exists_ (disk w) metadata_file
            then json_load (disk w) metadata_file
            else Ok _create_default_metadata
          else json_load (disk w) p in
        match loaded with
        | Ok m => (Ok m, set_metadata m w)
        | Raise e => (Raise e, w)
        end
  end.

(** [PBIRHandler(path)] on the file system [fs]: the new object, or the
    exception of the [load] that the constructor runs. *)
Definition __init__ (arg : option string) (fs : FS) : outcome PBIRHandler :=
  let self0 := {| path := path_of_arg arg; metadata := JObj [] |} in
  match path self0 with
  | Some p =>
      if exists_ fs p then
        match load {| self := self0; disk := fs |} with
        | (Ok _, w) => Ok (self w)
        | (Raise e, _) => Raise e
        end
      else Ok self0
  | None => Ok self0
  end.

(** The path [save] writes to: [Path(output_path) if output_path else
    self.path]. *)
Definition save_target (h : PBIRHandler) (output_path : option string)
  : option PosixPath :=
  match path_of_arg output_path with
  | Some p => Some p
  | None => path h
  end.

Definition save (output_path : option string) (w : world)
  : outcome unit * world :=
  match save_target (self w) output_path with
  | None => (Raise ValueError, w)
  | Some save_path =>
      let '(made, fs1, metadata_file) :=
        if String.eqb (suffix save_path) "" then
          let '(made, fs1) := mkdir true true (disk w) save_path in
          (made, fs1, joinpath save_path "definition.pbir")
        else
          let '(made, fs1) := mkdir true true (disk w) (parent save_path) in
          (made, fs1, save_path) in
      match made with
      | Raise e => (Raise e, set_disk fs1 w)
      | Ok _ =>
          match open_w fs1 metadata_file with
          | Raise e => (Raise e, set_disk fs1 w)
          | Ok l =>
              let '(dumped, written) := json_dump (metadata (self w)) in
              (dumped, set_disk (put l (File written) fs1) w)
          end
      end
  end.

Definition create_new (name description : string) (w : world)
  : outcome json * world :=
  let m :=
    JObj [("version", JStr "1.0");
          ("name", JStr name);
          ("description", JStr description);
          ("datamodel", JObj [("tables", JArr []); ("relationships", JArr [])]);
          ("reports", JArr []);
          ("settings", JObj [("culture", JStr "en-US")])] in
  (Ok m, set_metadata m w).

(** [add_table].  The [append] mutates the list inside the document; here
    the appended list is stored back under the keys it was read from. *)
Definition add_table (table_name : string) (columns : option (list json))
    (w : world) : outcome unit * world :=
  let md := metadata (self w) in
  match py_contains md "datamodel" with
  | Raise e => (Raise e, w)
  | Ok present =>
      let synthesized :=
        if negb present then
          py_setitem md "datamodel"
            (JObj [("tables", JArr []); ("relationships", JArr [])])
        else Ok md in
      match synthesized with
      | Raise e => (Raise e, w)
      | Ok md1 =>
          let table :=
            JObj [("name", JStr table_name);
                  ("columns", or_empty_list columns)] in
          let appended :=
            let? dm := py_getitem md1 "datamodel" in
            let? tables := py_getitem dm "tables" in
            let? tables' := py_append tables table in
            let? dm' := py_setitem dm "tables" tables' in
            py_setitem md1 "datamodel" dm' in
          match appended with
          | Ok md2 => (Ok tt, set_metadata md2 w)
          | Raise e => (Raise e, set_metadata md1 w)
          end
      end
  end.

Definition get_tables (h : PBIRHandler) : outcome json :=
  let? dm := py_get (metadata h) "datamodel" (JObj []) in
  py_get dm "tables" (JArr []).

Definition get_info (h : PBIRHandler) : outcome json :=
  let? name := py_get (metadata h) "name" (JStr "Unknown") in
  let? version := py_get (metadata h) "version" (JStr "Unknown") in
  let? description := py_get (metadata h) "description" (JStr "") in
  let? tables := get_tables h in
  let? table_count := py_len tables in
  Ok (JObj [("name", name);
            ("version", version);
            ("description", description);
            ("table_count", JInt table_count)]).
(** ** Notions the properties are stated with *)

(** The file [save] writes for a target, and the directory it creates. *)
Definition metadata_file_of (save_path : PosixPath) : PosixPath :=
  if String.eqb (suffix save_path) "" then joinpath save_path "definition.pbir"
  else save_path.

Definition directory_of (save_path : PosixPath) : PosixPath :=
  if String.eqb (suffix save_path) "" then save_path else parent save_path.

(** [datamodel.tables] and [datamodel.relationships] are present and are
    sequences. *)
Definition datamodel_sequences (m : json) : bool :=
  match m with
  | JObj d =>
      match dict_get d "datamodel" with
      | Some (JObj dm) =>
          match dict_get dm "tables", dict_get dm "relationships" with
          | Some (JArr _), Some (JArr _) => true
          | _, _ => false
          end
      | _ => false
      end
  | _ => false
  end.

(** Values that are exactly representable: no floats, and the keys of every
    mapping distinct (as they are in a [dict]). *)
Fixpoint json_ok (v : json) : bool :=
  match v with
  | JFloat _ => false
  | JArr items => forallb json_ok items
  | JObj members =>
      bool_decide (NoDup (map fst members))
      && forallb (λ kv, json_ok kv.2) members
  | _ => true
  end.

Definition columns_ok (columns : option (list json)) : bool :=
  match columns with
  | None => true
  | Some l => forallb json_ok l
  end.

(** A sequence of [add_table] calls, stopping at the first that raises. *)
Fixpoint add_tables (calls : list (string * option (list json))) (w : world)
  : outcome unit * world :=
  match calls with
  | [] => (Ok tt, w)
  | (table_name, columns) :: calls' =>
      match add_table table_name columns w with
      | (Ok _, w') => add_tables calls' w'
      | (Raise e, w') => (Raise e, w')
      end
  end.

(** The file [load] reads for a path that exists. *)
Definition source_of (fs : FS) (p : PosixPath) : PosixPath :=
  if is_dir fs p then joinpath p "definition.pbir" else p.

Definition is_file_entry (o : option node) : bool :=
  match o with
  | Some (File _) => true
  | _ => false
  end.

Definition is_dir_entry (o : option node) : bool :=
  match o with
  | Some Dir => true
  | _ => false
  end.

(** The place that the parts [rest] lead to from the place [l], and the
    places they pass on the way, that place last. *)
Definition place (l : loc) (rest : PosixPath) : loc := fold_left step rest l.

Fixpoint places (l : loc) (rest : PosixPath) : list loc :=
  l :: match rest with
       | [] => []
       | c :: rest' => places (step l c) rest'
       end.

(** No regular file stands where [mkdir] has to find or make a directory. *)
Definition no_file_on (fs : FS) (passed : list loc) : bool :=
  forallb (λ l, negb (is_file_entry (entry fs l))) passed.

(** [save] can write to [save_path]: the path of its file can be given to
    the system, no regular file stands where its directory needs a
    directory, and where its file goes there is no directory, neither now
    nor once the directories are made. *)
Definition writable (fs : FS) (save_path : PosixPath) : bool :=
  let passed := places (cwd fs) (directory_of save_path) in
  let file_place :=
    place (cwd fs) (directory_of save_path)
      ++ [name (metadata_file_of save_path)] in
  returns (os_path (metadata_file_of save_path))
  && no_file_on fs passed
  && negb (is_dir_entry (entry fs file_place))
  && bool_decide (file_place ∉ passed).

(** [fs'] is [fs] with the places [passed] made directories. *)
Definition made (fs : FS) (passed : list loc) (fs' : FS) : Prop :=
  cwd fs' = cwd fs
  ∧ (∀ l, l ∈ passed → entry fs' l = Some Dir)
  ∧ (∀ l, l ∉ passed → entry fs' l = entry fs l).

(** [fs'] is [fs] with some directories made where nothing was. *)
Definition grows (fs fs' : FS) : Prop :=
  cwd fs' = cwd fs
  ∧ ∀ l, entry fs' l = entry fs l
         ∨ (entry fs l = None ∧ entry fs' l = Some Dir).

(** What [mkdir(parents=True, exist_ok=True)] does on a path that can be
    given to the system: it makes directories of the places its path passes,
    when no regular file is among them; and when one is, it raises, having
    at most made some directories. *)
Definition mkdir_spec (fuel : nat) (fs : FS) (p : PosixPath) : Prop :=
  if no_file_on fs (places (cwd fs) p)
  then ∃ fs1, mkdir_rec fuel true true fs p = (Ok tt, fs1)
              ∧ made fs (places (cwd fs) p) fs1
  else ∃ e fs1, mkdir_rec fuel true true fs p = (Raise e, fs1) ∧ grows fs fs1.

(** [json.dump] writes the value to its end: every [int] is within the
    limit of digits, and every [str], key and text of a float can be
    encoded. *)
Fixpoint dumpable (v : json) : bool :=
  match v with
  | JInt n => digits_ok (int_digits n)
  | JFloat l => utf8_valid (float_repr l)
  | JStr s => utf8_valid s
  | JArr items => forallb dumpable items
  | JObj members => forallb (λ kv, utf8_valid kv.1 && dumpable kv.2) members
  | _ => true
  end.

Definition columns_dumpable (columns : option (list json)) : bool :=
  match columns with
  | None => true
  | Some l => forallb dumpable l
  end.

(** The call [add_table(name, columns)] adds a table that [save] writes and
    [load] reads back as it is. *)
Definition call_ok (call : string * option (list json)) : bool :=
  utf8_valid call.1 && columns_ok call.2 && columns_dumpable call.2.

(** The generator runs to its end and [write] takes every chunk. *)
Definition gen_ok (g : gen) : bool :=
  match g.2 with
  | None => forallb utf8_valid g.1
  | Some _ => false
  end.

(** The chunks of a generator, joined. *)
Definition gen_text (g : gen) : string := fold_right String.append "" g.1.

(** The chunks of the items of a sequence, and of the members of a
    mapping. *)
Fixpoint encode_items (level : nat) (buf : string) (l : list json) : gen :=
  match l with
  | [] => gen_done
  | x :: l' =>
      gen_seq
        match atom x with
        | Some a => yield_atom buf a
        | None => gen_seq (yield buf) (iterencode (S level) x)
        end
        (encode_items level ("," +:+ newline_indent (S level)) l')
  end.

Fixpoint encode_members (level : nat) (first : bool)
    (l : list (string * json)) : gen :=
  match l with
  | [] => gen_done
  | kv :: l' =>
      gens [
        if first then gen_done else yield ("," +:+ newline_indent (S level));
        yield (encode_str kv.1);
        yield ": ";
        match atom kv.2 with
        | Some a => yield_atom "" a
        | None => iterencode (S level) kv.2
        end;
        encode_members level false l' ]
  end.

(** The chunks of [v] at every depth: the generator runs to its end and
    every chunk can be written exactly when [v] is [dumpable], and the chunks
    then add up to the text of [v]. *)
Definition encodes (v : json) : Prop :=
  ∀ level,
    gen_ok (iterencode level v) = dumpable v
    ∧ (dumpable v = true → gen_text (iterencode level v) = dumps_at level v).

(** Upper bound on the calls of the scanner on the text of a value. *)
Fixpoint json_size (v : json) : nat :=
  match v with
  | JArr items => S (list_sum (map (λ x, S (json_size x)) items))
  | JObj members => S (list_sum (map (λ kv, S (json_size kv.2)) members))
  | _ => 1
  end.

(** What may follow a value in the text [json.dump] writes: nothing, a
    comma, or the line break before a closing bracket. *)
Definition terminated (rest : string) : bool :=
  match rest with
  | EmptyString => true
  | String c _ => Ascii.eqb c "," || Ascii.eqb c "010"
  end.

(** The text of the items of a sequence, from the first item to the closing
    bracket, and of the members of a mapping. *)
Fixpoint dumps_items (level : nat) (l : list json) : string :=
  match l with
  | [] => ""
  | x :: l' =>
      dumps_at (S level) x +:+
      match l' with
      | [] => newline_indent level +:+ "]"
      | _ => "," +:+ newline_indent (S level) +:+ dumps_items level l'
      end
  end.

Fixpoint dumps_members (level : nat) (l : list (string * json)) : string :=
  match l with
  | [] => ""
  | kv :: l' =>
      encode_str kv.1 +:+ ": " +:+ dumps_at (S level) kv.2 +:+
      match l' with
      | [] => newline_indent level +:+ "}"
      | _ => "," +:+ newline_indent (S level) +:+ dumps_members level l'
      end
  end.

(** The first character of the text of a value: not white space, not a
    closing bracket, not the first byte of a byte order mark. *)
Definition starts_value (s : string) : bool :=
  match s with
  | EmptyString => false
  | String c _ =>
      negb (is_ws c) && negb (Ascii.eqb c "]") && negb (Ascii.eqb c "}")
      && negb (Ascii.eqb c "239")
  end.

(** The table [add_table] appends. *)
Definition table_of (call : string * option (list json)) : json :=
  JObj [("name", JStr call.1); ("columns", or_empty_list call.2)].

(** The document of [create_new] with the tables added to it. *)
Definition document (name description : string) (tables : list json) : json :=
  JObj [("version", JStr "1.0");
        ("name", JStr name);
        ("description", JStr description);
        ("datamodel", JObj [("tables", JArr tables); ("relationships", JArr [])]);
        ("reports", JArr []);
        ("settings", JObj [("culture", JStr "en-US")])].

(** The scanner reads the text of [v], at any depth and before any text
    that may follow a value, back as [v]. *)
Definition reads_back (v : json) : Prop :=
  json_ok v = true → dumpable v = true →
  ∀ level fuel rest,
    (json_size v ≤ fuel)%nat → terminated rest = true →
    scan_once fuel (dumps_at level v +:+ rest) = Ok (v, rest).

Definition no_digit (rest : string) : bool :=
  match rest with
  | EmptyString => true
  | String c _ => match digit c with Some _ => false | None => true end
  end.

(** A decimal numeral that is not empty and has no leading zero. *)
Definition nonzero_head (u : Decimal.uint) : bool :=
  match u with
  | Decimal.Nil | Decimal.D0 _ => false
  | _ => true
  end.

(** The first character of a number: a digit or the sign. *)
Definition number_start (s : string) : bool :=
  match s with
  | EmptyString => false
  | String c _ =>
      match digit c with Some _ => true | None => Ascii.eqb c "-" end
  end.

(** ** Sample inputs *)

(** A [float_repr] that prints a float as it was read. *)
Definition lexeme_repr (lexeme : string) : string := lexeme.

(** A file system with the working directory [/home/user]. *)
Definition home : loc := ["home"; "user"].

Definition in_home (entries : gmap loc node) : FS :=
  {| cwd := home; tree := entries |}.

(** A handler constructed without a path, on an empty file system. *)
Definition fresh_world : world :=
  {| self := {| path := None; metadata := JObj [] |}; disk := in_home ∅ |}.

Definition sales_columns : list json :=
  [JObj [("name", JStr "OrderID"); ("type", JStr "int")];
   JObj [("name", JStr "Amount"); ("type", JStr "decimal")]].

(** The text [{"datamodel": null}]. *)
Definition null_datamodel_text : string :=
  String "{" (String "034" ("datamodel" +:+ String "034" ": null}")).

#[local] Arguments String.append !s1 s2 : simpl nomatch.
#[local] Arguments newline_indent : simpl never.
(** ** Notions for the further properties *)

(** The document is a mapping. *)
Definition is_mapping (v : json) : bool :=
  match v with
  | JObj _ => true
  | _ => false
  end.

(** What [get_info] returns for a mapping [d] with [n] tables. *)
Definition info_of (d : list (string * json)) (n : Z) : json :=
  JObj [("name", default (JStr "Unknown") (dict_get d "name"));
        ("version", default (JStr "Unknown") (dict_get d "version"));
        ("description", default (JStr "") (dict_get d "description"));
        ("table_count", JInt n)].

(** ** [main]: the example driver *)

(** [str] of a list or of a dict (the [repr] of its items, nested), which
    the f-strings of [main] would print for such a value. *)
Variable container_str : json → string.

(** [str(v)], as an f-string formats [v]. *)
Definition py_str (v : json) : string :=
  match v with
  | JNull => "None"
  | JBool true => "True"
  | JBool false => "False"
  | JInt n => int_repr n
  | JFloat l => float_repr l
  | JStr s => s
  | JArr _ | JObj _ => container_str v
  end.

Definition is_continuation (c : ascii) : bool :=
  match c with
  | Ascii _ _ _ _ _ _ b6 b7 => b7 && negb b6
  end.

(** The characters of a [str], each with its continuation bytes. *)
Fixpoint code_points (s : string) : list string :=
  match s with
  | EmptyString => []
  | String c r =>
      let rest := code_points r in
      match r with
      | EmptyString => [String c ""]
      | String c' _ =>
          if is_continuation c' then
            match rest with
            | cp :: cps => String c cp :: cps
            | [] => [String c ""]
            end
          else String c "" :: rest
      end
  end.

(** What [for x in v] iterates over. *)
Definition py_iter (v : json) : outcome (list json) :=
  match v with
  | JArr l => Ok l
  | JObj d => Ok (map (λ kv, JStr kv.1) d)
  | JStr s => Ok (map JStr (code_points s))
  | _ => Raise TypeError
  end.

(** [s * n]. *)
Fixpoint str_mul (s : string) (n : nat) : string :=
  match n with
  | O => ""
  | S n' => s +:+ str_mul s n'
  end.

(** [print(line)] on the standard output [out], the text printed so far;
    the standard output takes every line (a closed or full one is outside
    the model). *)
Definition print (line : string) (out : string) : string :=
  out +:+ line +:+ String "010" "".

(** The loop of step 4:
    [for table in handler.get_tables():
         print(f"   - {table['name']} ({len(table['columns'])} columns)")]. *)
Fixpoint print_tables (tables : list json) (out : string)
  : outcome unit * string :=
  match tables with
  | [] => (Ok tt, out)
  | table :: tables' =>
      let line :=
        let? table_name := py_getitem table "name" in
        let? columns := py_getitem table "columns" in
        let? n := py_len columns in
        Ok ("   - " +:+ py_str table_name +:+ " (" +:+ int_repr n
            +:+ " columns)") in
      match line with
      | Ok line => print_tables tables' (print line out)
      | Raise e => (Raise e, out)
      end
  end.

Definition main_sales_columns : list json :=
  [JObj [("name", JStr "OrderID"); ("type", JStr "int")];
   JObj [("name", JStr "Date"); ("type", JStr "datetime")];
   JObj [("name", JStr "Amount"); ("type", JStr "decimal")]].

Definition main_customers_columns : list json :=
  [JObj [("name", JStr "CustomerID"); ("type", JStr "int")];
   JObj [("name", JStr "Name"); ("type", JStr "string")];
   JObj [("name", JStr "Email"); ("type", JStr "string")]].

(** [main()] on the file system [fs]: what it raised if anything, what it
    printed, and the file system it leaves. *)
Definition main (fs : FS) : outcome unit * (string * FS) :=
  let out := print "PBIR Tools - Example Usage" "" in
  let out := print (str_mul "-" 50) out in
  match __init__ None fs with
  | Raise e => (Raise e, (out, fs))
  | Ok handler =>
  let out := print (String "010" "1. Creating new PBIR structure...") out in
  let w :=
    (create_new "Sales Dashboard" "A sample dashboard for sales analytics"
       {| self := handler; disk := fs |}).2 in
  let out := print "2. Adding tables..." out in
  match add_table "Sales" (Some main_sales_columns) w with
  | (Raise e, w) => (Raise e, (out, disk w))
  | (Ok _, w) =>
  match add_table "Customers" (Some main_customers_columns) w with
  | (Raise e, w) => (Raise e, (out, disk w))
  | (Ok _, w) =>
  let out := print "3. Getting info..." out in
  match get_info (self w) with
  | Raise e => (Raise e, (out, disk w))
  | Ok info =>
  match py_getitem info "name" with
  | Raise e => (Raise e, (out, disk w))
  | Ok v =>
  let out := print ("   Name: " +:+ py_str v) out in
  match py_getitem info "version" with
  | Raise e => (Raise e, (out, disk w))
  | Ok v =>
  let out := print ("   Version: " +:+ py_str v) out in
  match py_getitem info "description" with
  | Raise e => (Raise e, (out, disk w))
  | Ok v =>
  let out := print ("   Description: " +:+ py_str v) out in
  match py_getitem info "table_count" with
  | Raise e => (Raise e, (out, disk w))
  | Ok v =>
  let out := print ("   Tables: " +:+ py_str v) out in
  let out := print (String "010" "4. Listing tables:") out in
  match (let? tables := get_tables (self w) in py_iter tables) with
  | Raise e => (Raise e, (out, disk w))
  | Ok tables =>
  match print_tables tables out with
  | (Raise e, out) => (Raise e, (out, disk w))
  | (Ok _, out) =>
  let out := print (String "010" "5. Saving to file...") out in
  let output_path := "/tmp/example_pbir" in
  match save (Some output_path) w with
  | (Raise e, w) => (Raise e, (out, disk w))
  | (Ok _, w) =>
  let out :=
    print ("   Saved to: " +:+ output_path +:+ "/definition.pbir") out in
  let out := print (String "010" "6. Loading from file...") out in
  match __init__ (Some output_path) (disk w) with
  | Raise e => (Raise e, (out, disk w))
  | Ok handler2 =>
  match get_info handler2 with
  | Raise e => (Raise e, (out, disk w))
  | Ok info2 =>
  match py_getitem info2 "name" with
  | Raise e => (Raise e, (out, disk w))
  | Ok v1 =>
  match py_getitem info2 "table_count" with
  | Raise e => (Raise e, (out, disk w))
  | Ok v2 =>
  let out :=
    print ("   Loaded: " +:+ py_str v1 +:+ " with " +:+ py_str v2
           +:+ " tables") out in
  let out := print (String "010" (str_mul "-" 50)) out in
  let out := print "Example completed successfully!" out in
  (Ok tt, (out, disk w))
  end end end end end end end end end end end end end end end.

(** The document [main] builds. *)
Definition main_document : json :=
  document "Sales Dashboard" "A sample dashboard for sales analytics"
    [table_of ("Sales", Some main_sales_columns);
     table_of ("Customers", Some main_customers_columns)].

(** What [main] has printed when it calls [save]. *)
Definition main_output_until_save : string :=
"PBIR Tools - Example Usage
--------------------------------------------------

1. Creating new PBIR structure...
2. Adding tables...
3. Getting info...
   Name: Sales Dashboard
   Version: 1.0
   Description: A sample dashboard for sales analytics
   Tables: 2

4. Listing tables:
   - Sales (3 columns)
   - Customers (3 columns)

5. Saving to file...
".

(** What a run of [main] that completes prints after that. *)
Definition main_output_after_save : string :=
"   Saved to: /tmp/example_pbir/definition.pbir

6. Loading from file...
   Loaded: Sales Dashboard with 2 tables

--------------------------------------------------
Example completed successfully!
".

(** A [container_str] for the sample runs, which print no list or dict. *)
Definition sample_container_str (v : json) : string := "...".

(** * Properties *)

(** ** The data model *)

Lemma dict_set_absent d k v :
  dict_get d k = None → dict_set d k v = d ++ [(k, v)].
Proof.
  induction d as [|[k' v'] d IH]; simpl; [done|].
  destruct (String.eqb k' k); [done|]. intros H. by rewrite IH.
Qed.

Lemma dict_get_set_eq d k v : dict_get (dict_set d k v) k = Some v.
Proof.
  induction d as [|[k' v'] d IH]; simpl.
  - by rewrite String.eqb_refl.
  - destruct (String.eqb k' k) eqn:E; simpl; by rewrite E.
Qed.

Lemma dict_set_set d k v v' : dict_set (dict_set d k v) k v' = dict_set d k v'.
Proof.
  induction d as [|[k' x] d IH]; simpl.
  - by rewrite String.eqb_refl.
  - destruct (String.eqb k' k) eqn:E; simpl; rewrite E; [done|]. by rewrite IH.
Qed.


Lemma dict_get_not_in d k : k ∉ map fst d → dict_get d k = None.
Proof.
  induction d as [|[k' v'] d IH]; simpl; [done|].
  intros H. apply not_elem_of_cons in H as [Hne Hd].
  destruct (String.eqb_spec k' k); [congruence|]. by apply IH.
Qed.

(** [dict(pairs)] of pairs with distinct keys is the pairs themselves. *)
Lemma dict_of_pairs_nodup pairs :
  NoDup (map fst pairs) → dict_of_pairs pairs = pairs.
Proof.
  unfold dict_of_pairs.
  assert (G : ∀ pairs acc, NoDup (map fst (acc ++ pairs)) →
            fold_left (λ d kv, dict_set d kv.1 kv.2) pairs acc = acc ++ pairs).
  { clear pairs. induction pairs as [|[k v] pairs IH]; intros acc Hnd; simpl.
    - by rewrite app_nil_r.
    - rewrite dict_set_absent.
      + rewrite IH; rewrite <- app_assoc; done.
      + apply dict_get_not_in. rewrite map_app in Hnd. simpl in Hnd.
        apply NoDup_app in Hnd as (_ & Hd & _). intros Hin.
        apply (Hd k Hin). left. }
  intros H. by apply (G pairs []).
Qed.

Lemma set_metadata_same w : set_metadata (metadata (self w)) w = w.
Proof. by destruct w as [[p m] fs]. Qed.

Lemma set_disk_same w : set_disk (disk w) w = w.
Proof. by destruct w. Qed.


(** ** Accessors *)

(** C3 (amended).  On every document that is a mapping whose [datamodel],
    when present, is a mapping, [get_tables] returns without raising:
    [datamodel.tables] when present, an empty sequence otherwise.  When that
    value has a length, [get_info] returns without raising, with ["Unknown"],
    ["Unknown"] and [""] for a missing name, version and description; when it
    has none, [get_info] raises what [len] raises.  The empty mapping is such
    a document. *)
Theorem accessors_total_on_mappings
    (h : PBIRHandler) (d : list (string * json)) :
  let dm := match dict_get d "datamodel" with Some (JObj dm) => dm | _ => [] end in
  let tables := default (JArr []) (dict_get dm "tables") in
  metadata h = JObj d →
  match dict_get d "datamodel" with
  | None | Some (JObj _) => True
  | Some _ => False
  end →
  get_tables h = Ok tables
  ∧ (∀ n, py_len tables = Ok n →
       get_info h =
         Ok (JObj [("name", default (JStr "Unknown") (dict_get d "name"));
                   ("version", default (JStr "Unknown") (dict_get d "version"));
                   ("description", default (JStr "") (dict_get d "description"));
                   ("table_count", JInt n)]))
  ∧ (∀ e, py_len tables = Raise e → get_info h = Raise e).
Proof.
  intros dm tables Hm Hshape.
  assert (Ht : get_tables h = Ok tables).
  { unfold get_tables. subst tables dm. rewrite Hm. simpl.
    destruct (dict_get d "datamodel") as [[]|]; simpl in *; done. }
  split; [exact Ht|]. split.
  - intros n Hlen. unfold get_info. rewrite Ht, Hm. simpl. rewrite Hlen. simpl.
    by destruct (dict_get d "name"), (dict_get d "version"),
      (dict_get d "description").
  - intros e Hlen. unfold get_info. rewrite Ht, Hm. simpl. by rewrite Hlen.
Qed.

(** ** Mutation *)



(** ** Paths *)

Lemma nonroot_split p : is_root p = false → p = parent p ++ [name p].
Proof.
  intros H. unfold parent, name. rewrite H.
  apply app_removelast_last. intros ->. done.
Qed.

Lemma parent_prefix p : parent p `prefix_of` p.
Proof.
  destruct (is_root p) eqn:E.
  - unfold parent. by rewrite E.
  - rewrite (nonroot_split p E) at 2. by apply prefix_app_r.
Qed.

Lemma parent_length p : is_root p = false → S (length (parent p)) = length p.
Proof.
  intros E. rewrite (nonroot_split p E) at 2. rewrite length_app. simpl. lia.
Qed.

Lemma parent_nonroot p : is_root p = false → parent p ≠ p.
Proof. intros E H. pose proof (parent_length p E) as Hl. rewrite H in Hl. lia. Qed.

Lemma is_root_snoc p c : c ≠ "/" → is_root (p ++ [c]) = false.
Proof.
  intros Hc. unfold is_root. apply orb_false_iff. split;
    apply bool_decide_eq_false; destruct p as [|? []]; simpl; congruence.
Qed.

Lemma parent_snoc p c : c ≠ "/" → parent (p ++ [c]) = p.
Proof.
  intros Hc. unfold parent. rewrite (is_root_snoc p c Hc).
  apply removelast_last.
Qed.

Lemma name_snoc p c : c ≠ "/" → name (p ++ [c]) = c.
Proof.
  intros Hc. unfold name. rewrite (is_root_snoc p c Hc). apply last_last.
Qed.

Lemma suffix_nonroot p : suffix p ≠ "" → is_root p = false.
Proof.
  unfold suffix, name. destruct (is_root p); [|done]. simpl. done.
Qed.

Lemma metadata_file_nonroot p : is_root (metadata_file_of p) = false.
Proof.
  unfold metadata_file_of. destruct (String.eqb_spec (suffix p) "").
  - by apply is_root_snoc.
  - by apply suffix_nonroot.
Qed.

Lemma metadata_file_parent p : parent (metadata_file_of p) = directory_of p.
Proof.
  unfold metadata_file_of, directory_of. destruct (String.eqb (suffix p) "").
  - by apply parent_snoc.
  - done.
Qed.

(** The file [save] writes is in the directory it makes. *)
Lemma metadata_file_split p :
  metadata_file_of p = directory_of p ++ [name (metadata_file_of p)].
Proof.
  rewrite <- metadata_file_parent. apply nonroot_split, metadata_file_nonroot.
Qed.

(** The name of that file is a name: neither the anchor nor [..]. *)
Lemma metadata_file_name p l :
  step l (name (metadata_file_of p)) = l ++ [name (metadata_file_of p)].
Proof.
  assert (H : name (metadata_file_of p) ≠ "/"
              ∧ name (metadata_file_of p) ≠ "..").
  { unfold metadata_file_of. destruct (String.eqb_spec (suffix p) "") as [|Hs].
    - unfold joinpath. by rewrite name_snoc.
    - split; intros Hn; apply Hs; unfold suffix; by rewrite Hn. }
  destruct H as [H1 H2]. unfold step.
  destruct (String.eqb_spec (name (metadata_file_of p)) "/"); [done|].
  by destruct (String.eqb_spec (name (metadata_file_of p)) "..").
Qed.

(** ** The file system *)

Lemma entry_put_eq fs l n :
  entry fs l ≠ Some Dir → entry (put l n fs) l = Some n.
Proof.
  unfold entry. simpl. destruct (bool_decide _); [done|]. intros _.
  apply lookup_insert_eq.
Qed.

Lemma entry_put_ne fs l l' n : l ≠ l' → entry (put l n fs) l' = entry fs l'.
Proof.
  intros H. unfold entry. simpl. destruct (bool_decide _); [done|].
  by apply lookup_insert_ne.
Qed.

Lemma entry_cwd fs : entry fs (cwd fs) = Some Dir.
Proof. unfold entry. by rewrite bool_decide_eq_true_2. Qed.


Lemma place_snoc l rest c : place l (rest ++ [c]) = step (place l rest) c.
Proof. unfold place. by rewrite fold_left_app. Qed.

Lemma places_snoc l rest c :
  places l (rest ++ [c]) = places l rest ++ [place l (rest ++ [c])].
Proof.
  revert l. induction rest as [|a rest IH]; intros l; simpl; [done|].
  by rewrite IH.
Qed.

Lemma place_in_places l rest : place l rest ∈ places l rest.
Proof.
  revert l. induction rest as [|a rest IH]; intros l; simpl.
  - apply list_elem_of_singleton. done.
  - apply elem_of_cons. right. apply IH.
Qed.

Lemma walk_app fs l r1 r2 :
  walk fs l (r1 ++ r2) = let? m := walk fs l r1 in walk fs m r2.
Proof.
  revert l. induction r1 as [|c r1 IH]; intros l; simpl; [done|].
  destruct (entry fs l) as [[]|]; [done| |done]. apply IH.
Qed.

Lemma walk_Ok_place fs l rest m : walk fs l rest = Ok m → m = place l rest.
Proof.
  revert l. induction rest as [|c rest IH]; intros l; simpl.
  - by intros [= <-].
  - destruct (entry fs l) as [[]|]; [done| |done]. apply IH.
Qed.

Lemma walk_raises fs l rest e :
  walk fs l rest = Raise e → e = FileNotFoundError ∨ e = NotADirectoryError.
Proof.
  revert l. induction rest as [|c rest IH]; intros l; simpl; [done|].
  destruct (entry fs l) as [[]|].
  - intros [= <-]. by right.
  - apply IH.
  - intros [= <-]. by left.
Qed.

(** The places a resolved path passes are directories, the last apart. *)
Lemma walk_Ok_places fs l rest m :
  walk fs l rest = Ok m →
  ∀ x, x ∈ places l rest → entry fs x = Some Dir ∨ x = m.
Proof.
  revert l. induction rest as [|c rest IH]; intros l; simpl.
  - intros [= <-] x Hx. apply list_elem_of_singleton in Hx. by right.
  - destruct (entry fs l) as [[]|] eqn:El; [done| |done].
    intros H x Hx. apply elem_of_cons in Hx as [->|Hx]; [by left|].
    by eapply IH.
Qed.

(** A path whose places are all directories is resolved. *)
Lemma walk_dirs fs l rest :
  (∀ x, x ∈ places l rest → entry fs x = Some Dir) →
  walk fs l rest = Ok (place l rest).
Proof.
  revert l. induction rest as [|c rest IH]; intros l H; simpl; [done|].
  rewrite (H l) by (simpl; apply elem_of_cons; by left).
  apply IH. intros x Hx. apply H. simpl. apply elem_of_cons. by right.
Qed.

(** A regular file where a part is taken. *)
Lemma walk_not_a_directory fs l rest :
  walk fs l rest = Raise NotADirectoryError →
  no_file_on fs (places l rest) = false.
Proof.
  revert l. induction rest as [|c rest IH]; intros l; [done|].
  cbn [walk places]. unfold no_file_on. cbn [forallb].
  destruct (entry fs l) as [[]|] eqn:El; [done| |done].
  intros H. by apply IH.
Qed.

Lemma no_file_on_spec fs passed :
  no_file_on fs passed = true ↔
  ∀ x, x ∈ passed → is_file_entry (entry fs x) = false.
Proof.
  unfold no_file_on. rewrite forallb_forall. split.
  - intros H x Hx. apply negb_true_iff, H. by apply list_elem_of_In.
  - intros H x Hx. apply negb_true_iff, H. by apply list_elem_of_In.
Qed.

Lemma no_file_on_app fs l1 l2 :
  no_file_on fs (l1 ++ l2) = no_file_on fs l1 && no_file_on fs l2.
Proof. apply forallb_app. Qed.

Lemma walk_snoc fs l rest c :
  walk fs l (rest ++ [c]) =
    match walk fs l rest with
    | Ok m =>
        match entry fs m with
        | Some Dir => Ok (step m c)
        | Some (File _) => Raise NotADirectoryError
        | None => Raise FileNotFoundError
        end
    | Raise e => Raise e
    end.
Proof. rewrite walk_app. by destruct (walk fs l rest). Qed.

(** *** Paths the system takes *)

Lemma os_path_Ok p :
  os_path p = Ok tt ↔ forallb fsencodable p = true ∧ existsb has_nul p = false.
Proof.
  unfold os_path. destruct (forallb fsencodable p), (existsb has_nul p);
    simpl; split; try done; by intros [? ?].
Qed.

Lemma os_path_raises p e : os_path p = Raise e → is_OSError e = false.
Proof.
  unfold os_path. destruct (forallb fsencodable p), (existsb has_nul p);
    simpl; try done; by intros [= <-].
Qed.

Lemma os_path_app p r : os_path (p ++ r) = Ok tt → os_path p = Ok tt.
Proof.
  rewrite !os_path_Ok, forallb_app, existsb_app.
  intros [H1 H2]. apply andb_true_iff in H1 as [H1 _].
  apply orb_false_iff in H2 as [H2 _]. done.
Qed.

Lemma os_path_parent p : os_path p = Ok tt → os_path (parent p) = Ok tt.
Proof.
  intros H. destruct (parent_prefix p) as [r Hr]. rewrite Hr in H.
  by apply os_path_app in H.
Qed.

Lemma os_path_snoc p c :
  os_path (p ++ [c]) = Ok tt ↔
  os_path p = Ok tt ∧ fsencodable c = true ∧ has_nul c = false.
Proof.
  rewrite !os_path_Ok, forallb_app, existsb_app. simpl.
  rewrite andb_true_r, orb_false_r, andb_true_iff, orb_false_iff. tauto.
Qed.

Lemma locate_walk fs p :
  os_path p = Ok tt → locate fs p = walk fs (cwd fs) p.
Proof. intros H. unfold locate. by rewrite H. Qed.

Lemma locate_refused fs p e : os_path p = Raise e → locate fs p = Raise e.
Proof. intros H. unfold locate. by rewrite H. Qed.

Lemma locate_Ok fs p m :
  locate fs p = Ok m → os_path p = Ok tt ∧ walk fs (cwd fs) p = Ok m.
Proof. unfold locate. by destruct (os_path p) as [[]|]. Qed.

Lemma is_root_locate fs p :
  is_root p = true → locate fs p = Ok (place (cwd fs) p).
Proof.
  unfold is_root. intros H. apply orb_true_iff in H as [H|H];
    apply bool_decide_eq_true in H; subst; [done|].
  rewrite locate_walk by done. simpl. by rewrite entry_cwd.
Qed.

Lemma is_dir_locate fs p :
  is_dir fs p =
    match locate fs p with
    | Ok m => is_dir_entry (entry fs m)
    | Raise _ => false
    end.
Proof.
  unfold is_dir, stat. destruct (locate fs p) as [m|]; [|done]. simpl.
  by destruct (entry fs m) as [[]|].
Qed.

Lemma stat_Ok_locate fs p n :
  stat fs p = Ok n → ∃ m, locate fs p = Ok m ∧ entry fs m = Some n.
Proof.
  unfold stat. destruct (locate fs p) as [m|]; [|done]. simpl.
  destruct (entry fs m) as [n'|] eqn:E; [|done]. intros [= <-]. by exists m.
Qed.

Lemma locate_stat fs p m n :
  locate fs p = Ok m → entry fs m = Some n → stat fs p = Ok n.
Proof. intros H E. unfold stat. rewrite H. simpl. by rewrite E. Qed.

(** What is above an entry that exists is a directory. *)
Lemma is_dir_prefix fs q p :
  is_dir fs p = true → q `prefix_of` p → is_dir fs q = true.
Proof.
  intros Hp [r ->]. rewrite is_dir_locate in *.
  destruct (locate fs (q ++ r)) as [m|] eqn:Hl; [|done].
  apply locate_Ok in Hl as [Hos Hw].
  rewrite (locate_walk fs q (os_path_app _ _ Hos)). rewrite walk_app in Hw.
  destruct (walk fs (cwd fs) q) as [m'|] eqn:Hq; [|done]. simpl in Hw.
  destruct r as [|c r]; [simpl in Hw; by injection Hw as ->|]. simpl in Hw.
  by destruct (entry fs m') as [[]|].
Qed.

Lemma exists_prefix fs q p :
  exists_ fs p = true → q `prefix_of` p → exists_ fs q = true.
Proof.
  intros Hp [r ->]. unfold exists_, stat in *.
  destruct (locate fs (q ++ r)) as [m|] eqn:Hl; [|done].
  apply locate_Ok in Hl as [Hos Hw].
  rewrite (locate_walk fs q (os_path_app _ _ Hos)). rewrite walk_app in Hw.
  destruct (walk fs (cwd fs) q) as [m'|] eqn:Hq; [|done]. simpl in *.
  destruct r as [|c r]; [simpl in Hw; by injection Hw as ->|]. simpl in Hw.
  by destruct (entry fs m') as [[]|].
Qed.

(** Resolution looks at directories only, so it is kept where they are. *)
Lemma walk_kept fs fs' l rest m :
  (∀ x, entry fs x = Some Dir → entry fs' x = Some Dir) →
  walk fs l rest = Ok m → walk fs' l rest = Ok m.
Proof.
  intros Hk. revert l. induction rest as [|c rest IH]; intros l; simpl; [done|].
  destruct (entry fs l) as [[]|] eqn:El; [done| |done].
  rewrite (Hk l El). apply IH.
Qed.

Lemma grows_refl fs : grows fs fs.
Proof. split; [done|]. intros l. by left. Qed.

Lemma grows_trans fs1 fs2 fs3 : grows fs1 fs2 → grows fs2 fs3 → grows fs1 fs3.
Proof.
  intros [Hc1 H1] [Hc2 H2]. split; [congruence|]. intros l.
  destruct (H1 l) as [E1|[E1 E1']], (H2 l) as [E2|[E2 E2']].
  - left. congruence.
  - right. split; congruence.
  - right. split; congruence.
  - congruence.
Qed.

Lemma made_grows fs passed fs' :
  no_file_on fs passed = true → made fs passed fs' → grows fs fs'.
Proof.
  intros Hnf (Hc & Hin & Hout). split; [done|]. intros l.
  destruct (decide (l ∈ passed)) as [Hl|Hl].
  - rewrite (Hin l Hl).
    pose proof (proj1 (no_file_on_spec _ _) Hnf l Hl) as Hf.
    destruct (entry fs l) as [[]|]; [done|by left|by right].
  - left. by apply Hout.
Qed.



(** A file put where no directory is hides nothing. *)
Lemma put_file_locate fs l content p m :
  entry fs l ≠ Some Dir → locate fs p = Ok m →
  locate (put l (File content) fs) p = Ok m.
Proof.
  intros Hl H. apply locate_Ok in H as [Hos H].
  rewrite (locate_walk _ _ Hos). simpl.
  eapply walk_kept; [|exact H]. intros x Hx.
  rewrite entry_put_ne; [done|]. intros ->. done.
Qed.


(** ** [mkdir] *)

Lemma os_mkdir_cases fs p :
  os_mkdir fs p =
    match locate fs p with
    | Raise e => Raise e
    | Ok m =>
        match entry fs m with
        | Some _ => Raise FileExistsError
        | None => Ok (put m Dir fs)
        end
    end.
Proof. unfold os_mkdir. by destruct (locate fs p). Qed.

Lemma mkdir_rec_unfold fuel parents exist_ok fs p :
  mkdir_rec fuel parents exist_ok fs p =
    match os_mkdir fs p with
    | Ok fs' => (Ok tt, fs')
    | Raise FileNotFoundError =>
        if negb parents || bool_decide (parent p = p)
        then (Raise FileNotFoundError, fs)
        else
          match fuel with
          | O => (Raise FileNotFoundError, fs)
          | S fuel' =>
              match mkdir_rec fuel' true true fs (parent p) with
              | (Ok _, fs1) => mkdir_rec fuel' false exist_ok fs1 p
              | (Raise e, fs1) => (Raise e, fs1)
              end
          end
    | Raise e =>
        if is_OSError e then
          if negb exist_ok || negb (is_dir fs p) then (Raise e, fs)
          else (Ok tt, fs)
        else (Raise e, fs)
    end.
Proof. by destruct fuel. Qed.

(** Without [parents] the fuel is not used. *)
Lemma mkdir_rec_no_parents f f' exist_ok fs p :
  mkdir_rec f false exist_ok fs p = mkdir_rec f' false exist_ok fs p.
Proof.
  rewrite !mkdir_rec_unfold. simpl. by destruct (os_mkdir fs p) as [|[]].
Qed.

(** The fuel of [mkdir], the number of parts of its path, is enough: with
    more fuel it does the same. *)
Lemma mkdir_rec_fuel f : ∀ f' parents exist_ok fs p,
  (length p ≤ f)%nat → (length p ≤ f')%nat →
  mkdir_rec f parents exist_ok fs p = mkdir_rec f' parents exist_ok fs p.
Proof.
  induction f as [|f IH]; intros f' parents exist_ok fs p Hf Hf';
    rewrite !(mkdir_rec_unfold _ parents).
  all: destruct (os_mkdir fs p) as [|[]]; try done.
  all: destruct (negb parents || bool_decide (parent p = p)) eqn:E; [done|].
  all: apply orb_false_iff in E as [_ E]; apply bool_decide_eq_false in E.
  all: assert (Er : is_root p = false)
    by (unfold parent in E; by destruct (is_root p)).
  all: pose proof (parent_length p Er).
  - lia.
  - destruct f' as [|f']; [lia|].
    rewrite (IH f' true true fs (parent p)) by lia.
    destruct (mkdir_rec f' true true fs (parent p)) as [[[]|e] fs1]; [|done].
    apply mkdir_rec_no_parents.
Qed.

(** A path the system does not take. *)
Lemma mkdir_rec_refused fuel parents exist_ok fs p e :
  os_path p = Raise e →
  mkdir_rec fuel parents exist_ok fs p = (Raise e, fs).
Proof.
  intros H. rewrite mkdir_rec_unfold, os_mkdir_cases, (locate_refused _ _ _ H).
  pose proof (os_path_raises _ _ H). by destruct e.
Qed.

(** [mkdir(exist_ok=True)] without [parents] on a path that is resolved. *)
Lemma mkdir_rec_located fuel parents fs p m :
  locate fs p = Ok m →
  mkdir_rec fuel parents true fs p =
    match entry fs m with
    | None => (Ok tt, put m Dir fs)
    | Some Dir => (Ok tt, fs)
    | Some (File _) => (Raise FileExistsError, fs)
    end.
Proof.
  intros H. rewrite mkdir_rec_unfold, os_mkdir_cases, is_dir_locate, H.
  by destruct (entry fs m) as [[]|].
Qed.

Lemma mkdir_existing fs p :
  is_dir fs p = true → mkdir true true fs p = (Ok tt, fs).
Proof.
  intros H. rewrite is_dir_locate in H. unfold mkdir.
  destruct (locate fs p) as [m|] eqn:Hl; [|done].
  rewrite (mkdir_rec_located _ _ _ _ _ Hl).
  by destruct (entry fs m) as [[]|].
Qed.

Lemma mkdir_spec_located fuel fs p m :
  locate fs p = Ok m → mkdir_spec fuel fs p.
Proof.
  intros Hl. unfold mkdir_spec. rewrite (mkdir_rec_located _ _ _ _ _ Hl).
  apply locate_Ok in Hl as [_ Hl].
  pose proof (walk_Ok_places _ _ _ _ Hl) as Hps.
  pose proof (walk_Ok_place _ _ _ _ Hl) as Hm.
  assert (Hin : m ∈ places (cwd fs) p) by (rewrite Hm; apply place_in_places).
  destruct (entry fs m) as [[content|]|] eqn:Em.
  - assert (no_file_on fs (places (cwd fs) p) = false) as ->.
    { apply not_true_iff_false. intros Hnf.
      pose proof (proj1 (no_file_on_spec _ _) Hnf m Hin) as Hf.
      by rewrite Em in Hf. }
    exists FileExistsError, fs. split; [done|apply grows_refl].
  - assert (no_file_on fs (places (cwd fs) p) = true) as ->.
    { apply no_file_on_spec. intros x Hx.
      destruct (Hps x Hx) as [->| ->]; [done|by rewrite Em]. }
    exists fs. split; [done|]. split; [done|]. split; [|done].
    intros x Hx. by destruct (Hps x Hx) as [E| ->].
  - assert (no_file_on fs (places (cwd fs) p) = true) as ->.
    { apply no_file_on_spec. intros x Hx.
      destruct (Hps x Hx) as [->| ->]; [done|by rewrite Em]. }
    exists (put m Dir fs). split; [done|]. split; [done|]. split.
    + intros x Hx. destruct (decide (x = m)) as [->|Hne].
      * apply entry_put_eq. by rewrite Em.
      * rewrite entry_put_ne by done. by destruct (Hps x Hx).
    + intros x Hx. apply entry_put_ne. by intros <-.
Qed.

Lemma mkdir_spec_blocked fuel fs p :
  os_path p = Ok tt →
  locate fs p = Raise NotADirectoryError → mkdir_spec fuel fs p.
Proof.
  intros Hos Hl. unfold mkdir_spec.
  rewrite mkdir_rec_unfold, os_mkdir_cases, is_dir_locate, Hl.
  rewrite (locate_walk _ _ Hos) in Hl.
  rewrite (walk_not_a_directory _ _ _ Hl).
  exists NotADirectoryError, fs. split; [done|apply grows_refl].
Qed.

Lemma mkdir_rec_spec fuel : ∀ fs p,
  os_path p = Ok tt → (length p ≤ fuel)%nat → mkdir_spec fuel fs p.
Proof.
  induction fuel as [|fuel IH]; intros fs p Hos Hlen.
  all: destruct (locate fs p) as [m|e] eqn:Hl;
    [by eapply mkdir_spec_located|].
  all: pose proof Hl as Hw; rewrite (locate_walk _ _ Hos) in Hw.
  all: destruct (walk_raises _ _ _ _ Hw) as [-> | ->];
    [|by apply mkdir_spec_blocked].
  all: assert (Er : is_root p = false)
    by (destruct (is_root p) eqn:Er; [|done];
        by rewrite (is_root_locate fs p Er) in Hl).
  - (* no fuel: the path has a part *)
    pose proof (parent_length p Er). lia.
  - (* a directory is missing: the parent first *)
    unfold mkdir_spec.
    rewrite mkdir_rec_unfold, os_mkdir_cases, Hl. simpl negb.
    rewrite (bool_decide_eq_false_2 _ (parent_nonroot p Er)). simpl orb.
    cbv iota.
    pose proof (nonroot_split p Er) as Hsplit.
    set (q := parent p) in *. set (c := name p) in *.
    assert (Hq : (length q ≤ fuel)%nat).
    { pose proof (parent_length p Er). subst q. lia. }
    specialize (IH fs q (os_path_parent _ Hos) Hq). unfold mkdir_spec in IH.
    assert (Hpl : places (cwd fs) p
                  = places (cwd fs) q ++ [step (place (cwd fs) q) c]).
    { rewrite Hsplit at 1. by rewrite places_snoc, place_snoc. }
    rewrite Hpl, no_file_on_app.
    destruct (no_file_on fs (places (cwd fs) q)) eqn:Hnf.
    + destruct IH as (fs1 & Hmk & Hmade). rewrite Hmk.
      pose proof Hmade as (Hc & Hin & Hout).
      set (mm := step (place (cwd fs) q) c) in *.
      assert (Hlq : walk fs1 (cwd fs1) q = Ok (place (cwd fs) q)).
      { rewrite Hc. apply walk_dirs. exact Hin. }
      assert (Hlp : locate fs1 p = Ok mm).
      { rewrite (locate_walk _ _ Hos). rewrite Hsplit at 1.
        rewrite walk_snoc, Hlq.
        by rewrite (Hin _ (place_in_places _ _)). }
      rewrite (mkdir_rec_located _ _ _ _ _ Hlp).
      assert (Hnf1 : no_file_on fs [mm] = negb (is_file_entry (entry fs mm))).
      { unfold no_file_on. simpl. by rewrite andb_true_r. }
      rewrite Hnf1. simpl andb.
      destruct (decide (mm ∈ places (cwd fs) q)) as [Hmm|Hmm].
      * rewrite (Hin mm Hmm).
        rewrite (proj1 (no_file_on_spec _ _) Hnf mm Hmm). simpl.
        exists fs1. split; [done|]. split; [done|]. split.
        -- intros x Hx. apply elem_of_app in Hx as [Hx|Hx]; [by apply Hin|].
           apply list_elem_of_singleton in Hx as ->. by apply Hin.
        -- intros x Hx. apply Hout. intros Hx'. apply Hx.
           apply elem_of_app. by left.
      * rewrite (Hout mm Hmm).
        destruct (entry fs mm) as [[content|]|] eqn:Em; simpl.
        -- exists FileExistsError, fs1. split; [done|].
           by apply (made_grows _ _ _ Hnf).
        -- exists fs1. split; [done|]. split; [done|]. split.
           ++ intros x Hx. apply elem_of_app in Hx as [Hx|Hx]; [by apply Hin|].
              apply list_elem_of_singleton in Hx as ->.
              by rewrite (Hout mm Hmm).
           ++ intros x Hx. apply Hout. intros Hx'. apply Hx.
              apply elem_of_app. by left.
        -- exists (put mm Dir fs1). split; [done|]. split; [done|]. split.
           ++ intros x Hx. destruct (decide (x = mm)) as [->|Hne].
              ** apply entry_put_eq. by rewrite (Hout mm Hmm), Em.
              ** rewrite entry_put_ne by done.
                 apply elem_of_app in Hx as [Hx|Hx]; [by apply Hin|].
                 by apply list_elem_of_singleton in Hx.
           ++ intros x Hx. rewrite entry_put_ne.
              ** apply Hout. intros Hx'. apply Hx. apply elem_of_app. by left.
              ** intros <-. apply Hx. apply elem_of_app. right.
                 by apply list_elem_of_singleton.
    + destruct IH as (e & fs1 & Hmk & Hg). rewrite Hmk. simpl.
      by exists e, fs1.
Qed.

(** ** What [json.dump] writes *)

Lemma append_assoc (a b c : string) : (a +:+ b) +:+ c = a +:+ (b +:+ c).
Proof. induction a as [|x a IH]; simpl; [done|]. by rewrite IH. Qed.

Lemma append_nil_r (a : string) : a +:+ "" = a.
Proof. induction a as [|x a IH]; simpl; [done|]. by rewrite IH. Qed.

Lemma length_append (a b : string) :
  String.length (a +:+ b) = (String.length a + String.length b)%nat.
Proof. induction a as [|x a IH]; simpl; [done|]. by rewrite IH. Qed.

Lemma utf8_run_app st a b :
  utf8_run st (a +:+ b) =
    match utf8_run st a with
    | Some st' => utf8_run st' b
    | None => None
    end.
Proof.
  revert st. induction a as [|c a IH]; intros st; simpl; [done|].
  destruct (utf8_step st c); [apply IH|done].
Qed.

(** After text that is UTF-8, the decoder is between two characters. *)
Lemma utf8_valid_app a b :
  utf8_valid a = true → utf8_valid (a +:+ b) = utf8_valid b.
Proof.
  unfold utf8_valid. rewrite utf8_run_app.
  by destruct (utf8_run U_start a) as [[]|].
Qed.

Lemma utf8_valid_spaces n : utf8_valid (spaces n) = true.
Proof. induction n as [|n IH]; [done|]. exact IH. Qed.

Lemma utf8_valid_newline_indent level : utf8_valid (newline_indent level) = true.
Proof. unfold newline_indent. apply (utf8_valid_spaces (2 * level)). Qed.

(** An escape is made of ASCII characters, which the decoder takes between
    two characters only, as it takes the character that is escaped. *)
Lemma utf8_run_escape_char st c r :
  utf8_run st (escape_char c +:+ r) =
    match utf8_step st c with
    | Some st' => utf8_run st' r
    | None => None
    end.
Proof.
  destruct st; destruct c as [[] [] [] [] [] [] [] []]; reflexivity.
Qed.

Lemma utf8_run_escape st s r :
  utf8_run st (escape s +:+ r) =
    match utf8_run st s with
    | Some st' => utf8_run st' r
    | None => None
    end.
Proof.
  revert st. induction s as [|c s IH]; intros st; simpl; [done|].
  rewrite append_assoc, utf8_run_escape_char.
  destruct (utf8_step st c); [apply IH|done].
Qed.

Lemma utf8_valid_encode_str s : utf8_valid (encode_str s) = utf8_valid s.
Proof.
  unfold encode_str, utf8_valid.
  change (utf8_run U_start (String "034" ?t)) with (utf8_run U_start t).
  rewrite utf8_run_escape.
  by destruct (utf8_run U_start s) as [[]|].
Qed.

Lemma utf8_valid_uint (u : Decimal.uint) r :
  utf8_valid (NilEmpty.string_of_uint u +:+ r) = utf8_valid r.
Proof. induction u; simpl; done. Qed.

Lemma utf8_valid_int_repr n : utf8_valid (int_repr n) = true.
Proof.
  assert (H : ∀ u, utf8_valid (NilZero.string_of_uint u) = true).
  { intros u. pose proof (utf8_valid_uint u "") as H.
    rewrite append_nil_r in H. by destruct u. }
  unfold int_repr. destruct (Z.to_int n) as [u|u]; simpl; [apply H|].
  exact (H u).
Qed.

Lemma dumps_at_arr level items :
  items ≠ [] →
  dumps_at level (JArr items)
  = String "[" (newline_indent (S level) +:+ dumps_items level items).
Proof.
  intros H. destruct items as [|x l]; [done|]. clear H.
  change (dumps_at level (JArr (x :: l))) with
    (String "[" (newline_indent (S level) +:+
       (fix elems (l : list json) : string :=
          match l with
          | [] => ""
          | x :: l' =>
              dumps_at (S level) x +:+
              match l' with
              | [] => newline_indent level +:+ "]"
              | _ => "," +:+ newline_indent (S level) +:+ elems l'
              end
          end) (x :: l))).
  apply (f_equal (String _)).
  apply (f_equal (String.append (newline_indent (S level)))).
  revert x. induction l as [|y l IH]; intros x; [done|].
  apply (f_equal (String.append _)).
  apply (f_equal (String.append ",")), (f_equal (String.append _)).
  apply IH.
Qed.

Lemma dumps_at_obj level members :
  members ≠ [] →
  dumps_at level (JObj members)
  = String "{" (newline_indent (S level) +:+ dumps_members level members).
Proof.
  intros H. destruct members as [|x l]; [done|]. clear H.
  change (dumps_at level (JObj (x :: l))) with
    (String "{" (newline_indent (S level) +:+
       (fix elems (l : list (string * json)) : string :=
          match l with
          | [] => ""
          | kv :: l' =>
              encode_str kv.1 +:+ ": " +:+ dumps_at (S level) kv.2 +:+
              match l' with
              | [] => newline_indent level +:+ "}"
              | _ => "," +:+ newline_indent (S level) +:+ elems l'
              end
          end) (x :: l))).
  apply (f_equal (String _)).
  apply (f_equal (String.append (newline_indent (S level)))).
  revert x. induction l as [|y l IH]; intros x; [done|].
  do 3 apply (f_equal (String.append _)).
  apply (f_equal (String.append ",")), (f_equal (String.append _)).
  apply IH.
Qed.

Lemma dumps_items_cons level x l :
  dumps_items level (x :: l) =
    dumps_at (S level) x +:+
    match l with
    | [] => newline_indent level +:+ "]"
    | _ => "," +:+ newline_indent (S level) +:+ dumps_items level l
    end.
Proof. done. Qed.

Lemma dumps_members_cons level kv l :
  dumps_members level (kv :: l) =
    encode_str kv.1 +:+ ": " +:+ dumps_at (S level) kv.2 +:+
    match l with
    | [] => newline_indent level +:+ "}"
    | _ => "," +:+ newline_indent (S level) +:+ dumps_members level l
    end.
Proof. done. Qed.

Lemma iterencode_arr level items :
  items ≠ [] →
  iterencode level (JArr items) =
    gens [ encode_items level ("[" +:+ newline_indent (S level)) items;
           yield (newline_indent level); yield "]" ].
Proof.
  intros H. destruct items as [|x l]; [done|]. clear H.
  change (iterencode level (JArr (x :: l))) with
    (gens [
       (fix elems (buf : string) (l : list json) : gen :=
          match l with
          | [] => gen_done
          | x :: l' =>
              gen_seq
                match atom x with
                | Some a => yield_atom buf a
                | None => gen_seq (yield buf) (iterencode (S level) x)
                end
                (elems ("," +:+ newline_indent (S level)) l')
          end) ("[" +:+ newline_indent (S level)) (x :: l);
       yield (newline_indent level); yield "]" ]).
  assert (G : ∀ l buf,
    (fix elems (buf : string) (l : list json) : gen :=
       match l with
       | [] => gen_done
       | x :: l' =>
           gen_seq
             match atom x with
             | Some a => yield_atom buf a
             | None => gen_seq (yield buf) (iterencode (S level) x)
             end
             (elems ("," +:+ newline_indent (S level)) l')
       end) buf l = encode_items level buf l).
  { clear. intros l. induction l as [|x l IH]; intros buf; [done|].
    cbn [encode_items]. rewrite <- IH. reflexivity. }
  exact (f_equal
           (λ e, gens [ e; yield (newline_indent level); yield "]" ])
           (G (x :: l) ("[" +:+ newline_indent (S level)))).
Qed.

Lemma iterencode_obj level members :
  members ≠ [] →
  iterencode level (JObj members) =
    gens [ yield "{"; yield (newline_indent (S level));
           encode_members level true members;
           yield (newline_indent level); yield "}" ].
Proof.
  intros H. destruct members as [|x l]; [done|]. clear H.
  change (iterencode level (JObj (x :: l))) with
    (gens [
       yield "{"; yield (newline_indent (S level));
       (fix elems (first : bool) (l : list (string * json)) : gen :=
          match l with
          | [] => gen_done
          | kv :: l' =>
              gens [
                if first then gen_done
                else yield ("," +:+ newline_indent (S level));
                yield (encode_str kv.1);
                yield ": ";
                match atom kv.2 with
                | Some a => yield_atom "" a
                | None => iterencode (S level) kv.2
                end;
                elems false l' ]
          end) true (x :: l);
       yield (newline_indent level); yield "}" ]).
  assert (G : ∀ l first,
    (fix elems (first : bool) (l : list (string * json)) : gen :=
       match l with
       | [] => gen_done
       | kv :: l' =>
           gens [
             if first then gen_done
             else yield ("," +:+ newline_indent (S level));
             yield (encode_str kv.1);
             yield ": ";
             match atom kv.2 with
             | Some a => yield_atom "" a
             | None => iterencode (S level) kv.2
             end;
             elems false l' ]
       end) first l = encode_members level first l).
  { clear. intros l. induction l as [|x l IH]; intros first; [done|].
    cbn [encode_members]. rewrite <- IH. reflexivity. }
  exact (f_equal
           (λ e, gens [ yield "{"; yield (newline_indent (S level)); e;
                        yield (newline_indent level); yield "}" ])
           (G (x :: l) true)).
Qed.

Lemma iterencode_atom level v a :
  atom v = Some a → iterencode level v = yield_atom "" a.
Proof. destruct v as [|[]| | | | |]; try done; simpl; by intros [= <-]. Qed.

Lemma gen_ok_seq g1 g2 : gen_ok (gen_seq g1 g2) = gen_ok g1 && gen_ok g2.
Proof.
  destruct g1 as [c1 [e1|]], g2 as [c2 e2]; unfold gen_seq, gen_ok; simpl.
  - done.
  - destruct e2; [by rewrite andb_false_r|]. apply forallb_app.
Qed.

Lemma gen_ok_ends g : gen_ok g = true → g.2 = None.
Proof. unfold gen_ok. by destruct (g.2). Qed.

Lemma gen_text_seq g1 g2 :
  gen_ok g1 = true →
  gen_text (gen_seq g1 g2) = gen_text g1 +:+ gen_text g2.
Proof.
  intros H. apply gen_ok_ends in H.
  destruct g1 as [c1 e1]. simpl in H. subst e1.
  unfold gen_seq, gen_text. simpl.
  induction c1 as [|c c1 IH]; simpl; [done|]. by rewrite IH, append_assoc.
Qed.

Lemma gen_ok_yield s : gen_ok (yield s) = utf8_valid s.
Proof. unfold gen_ok, yield. simpl. apply andb_true_r. Qed.

Lemma gen_text_yield s : gen_text (yield s) = s.
Proof. unfold gen_text, yield. simpl. apply append_nil_r. Qed.

(** The chunk of a value that is not a container. *)
Lemma yield_atom_ok level buf v a :
  atom v = Some a → utf8_valid buf = true →
  gen_ok (yield_atom buf a) = dumpable v
  ∧ (dumpable v = true →
     gen_text (yield_atom buf a) = buf +:+ dumps_at level v).
Proof.
  intros Ha Hbuf.
  destruct v as [|[]|n|l|s| |]; try done; simpl in Ha;
    injection Ha as <-; simpl.
  1-3: rewrite gen_ok_yield, gen_text_yield, (utf8_valid_app _ _ Hbuf); done.
  - unfold int_str. destruct (digits_ok (int_digits n)); simpl; [|done].
    rewrite gen_ok_yield, gen_text_yield, (utf8_valid_app _ _ Hbuf).
    by rewrite utf8_valid_int_repr.
  - rewrite gen_ok_yield, gen_text_yield, (utf8_valid_app _ _ Hbuf). done.
  - rewrite gen_ok_yield, gen_text_yield, (utf8_valid_app _ _ Hbuf).
    by rewrite utf8_valid_encode_str.
Qed.


Lemma utf8_valid_separator level :
  utf8_valid ("," +:+ newline_indent (S level)) = true.
Proof. apply (utf8_valid_newline_indent (S level)). Qed.

Lemma gen_ok_done : gen_ok gen_done = true.
Proof. done. Qed.

Lemma gen_seq_done_r g : gen_seq g gen_done = g.
Proof.
  destruct g as [c [e|]]; unfold gen_seq; simpl; [done|].
  by rewrite app_nil_r.
Qed.

(** The chunks of an item of a sequence. *)
Lemma item_chunk_ok level buf x :
  encodes x → utf8_valid buf = true →
  let chunk :=
    match atom x with
    | Some a => yield_atom buf a
    | None => gen_seq (yield buf) (iterencode (S level) x)
    end in
  gen_ok chunk = dumpable x
  ∧ (dumpable x = true → gen_text chunk = buf +:+ dumps_at (S level) x).
Proof.
  intros Hx Hbuf. destruct (atom x) as [a|] eqn:Ha; simpl.
  - by apply yield_atom_ok.
  - destruct (Hx (S level)) as [Hok Htext].
    rewrite gen_ok_seq, gen_ok_yield, Hbuf, Hok. split; [done|].
    intros Hd. rewrite gen_text_seq by (by rewrite gen_ok_yield).
    by rewrite gen_text_yield, Htext.
Qed.

Lemma encode_items_ok level l :
  Forall encodes l → ∀ buf, utf8_valid buf = true →
  gen_ok (encode_items level buf l) = forallb dumpable l
  ∧ (forallb dumpable l = true → l ≠ [] →
     gen_text (encode_items level buf l) +:+ newline_indent level +:+ "]"
     = buf +:+ dumps_items level l).
Proof.
  induction 1 as [|x l Hx HF IH]; intros buf Hbuf; [done|].
  cbn [encode_items forallb].
  destruct (item_chunk_ok level buf x Hx Hbuf) as [Hok Htext].
  destruct (IH _ (utf8_valid_separator level)) as [Hok' Htext'].
  rewrite gen_ok_seq, Hok, Hok'. split; [done|].
  intros Hd _. apply andb_true_iff in Hd as [Hdx Hdl].
  rewrite gen_text_seq by (by rewrite Hok). rewrite (Htext Hdx).
  rewrite dumps_items_cons, !append_assoc. do 2 f_equal.
  destruct l as [|y l']; [done|].
  rewrite (Htext' Hdl) by done. by rewrite !append_assoc.
Qed.

(** The chunk of the value of a member is that of the value by itself. *)
Lemma member_chunk level v :
  match atom v with
  | Some a => yield_atom "" a
  | None => iterencode (S level) v
  end = iterencode (S level) v.
Proof.
  destruct (atom v) as [a|] eqn:Ha; [|done]. by rewrite (iterencode_atom _ _ _ Ha).
Qed.

Lemma encode_members_ok level l :
  Forall (λ kv, encodes kv.2) l → ∀ first,
  gen_ok (encode_members level first l)
  = forallb (λ kv, utf8_valid kv.1 && dumpable kv.2) l
  ∧ (forallb (λ kv, utf8_valid kv.1 && dumpable kv.2) l = true → l ≠ [] →
     gen_text (encode_members level first l) +:+ newline_indent level +:+ "}"
     = (if first then "" else "," +:+ newline_indent (S level))
       +:+ dumps_members level l).
Proof.
  induction 1 as [|[k v] l Hx HF IH]; intros first; [done|].
  cbn [encode_members forallb gens fst snd]. simpl in Hx.
  rewrite member_chunk, gen_seq_done_r.
  destruct (Hx (S level)) as [Hok Htext].
  destruct (IH false) as [Hok' Htext'].
  set (F := if first then gen_done
            else yield ("," +:+ newline_indent (S level))).
  assert (HF1 : gen_ok F = true).
  { subst F. destruct first; [done|].
    rewrite gen_ok_yield. apply utf8_valid_separator. }
  assert (HF2 : gen_text F
                = if first then "" else "," +:+ newline_indent (S level)).
  { subst F. destruct first; [done|]. apply gen_text_yield. }
  rewrite !gen_ok_seq, HF1, !gen_ok_yield, utf8_valid_encode_str, Hok, Hok'.
  simpl andb. split.
  { by destruct (utf8_valid k), (dumpable v). }
  intros Hd _. apply andb_true_iff in Hd as [Hd Hdl].
  apply andb_true_iff in Hd as [Hk Hdv].
  rewrite gen_text_seq by done.
  rewrite gen_text_seq by (by rewrite gen_ok_yield, utf8_valid_encode_str).
  rewrite gen_text_seq by (by rewrite gen_ok_yield).
  rewrite gen_text_seq by (by rewrite Hok).
  rewrite HF2, !gen_text_yield, (Htext Hdv).
  rewrite dumps_members_cons, !append_assoc. simpl fst. simpl snd.
  do 4 f_equal.
  destruct l as [|y l']; [done|].
  rewrite (Htext' Hdl) by done. by rewrite !append_assoc.
Qed.

Lemma iterencode_encodes v : encodes v.
Proof.
  induction v as [|b|n|l|s|items IH|members IH] using json_nested_ind;
    intros level; [|destruct b|..].
  1-6: match goal with
       | |- context [iterencode ?lv ?v] =>
           destruct (yield_atom_ok lv "" v _ eq_refl eq_refl) as [H1 H2];
           split; [exact H1|exact H2]
       end.
  - destruct items as [|x l]; [done|].
    rewrite iterencode_arr, dumps_at_arr by done.
    cbn [gens]. rewrite gen_seq_done_r.
    destruct (encode_items_ok level (x :: l) IH
                ("[" +:+ newline_indent (S level))
                (utf8_valid_newline_indent (S level))) as [Hok Htext].
    rewrite !gen_ok_seq, Hok, !gen_ok_yield, utf8_valid_newline_indent.
    simpl andb. change (dumpable (JArr (x :: l))) with (forallb dumpable (x :: l)).
    split; [by rewrite !andb_true_r|].
    intros Hd. rewrite gen_text_seq by (by rewrite Hok).
    rewrite gen_text_seq
      by (by rewrite gen_ok_yield, utf8_valid_newline_indent).
    rewrite !gen_text_yield. by rewrite (Htext Hd).
  - destruct members as [|x l]; [done|].
    rewrite iterencode_obj, dumps_at_obj by done.
    cbn [gens]. rewrite gen_seq_done_r.
    destruct (encode_members_ok level (x :: l) IH true) as [Hok Htext].
    rewrite !gen_ok_seq, Hok, !gen_ok_yield, !utf8_valid_newline_indent.
    simpl andb.
    change (dumpable (JObj (x :: l)))
      with (forallb (λ kv, utf8_valid kv.1 && dumpable kv.2) (x :: l)).
    split; [by rewrite !andb_true_r|].
    intros Hd. rewrite gen_text_seq by (by rewrite gen_ok_yield).
    rewrite gen_text_seq
      by (by rewrite gen_ok_yield, utf8_valid_newline_indent).
    rewrite gen_text_seq by (by rewrite Hok).
    rewrite gen_text_seq
      by (by rewrite gen_ok_yield, utf8_valid_newline_indent).
    rewrite !gen_text_yield. rewrite (Htext Hd) by done. done.
Qed.

(** The generator is ended by no exception other than the [ValueError] of
    an [int] over the limit. *)
Lemma gen_seq_stop g1 g2 e :
  (gen_seq g1 g2).2 = Some e → g1.2 = Some e ∨ g2.2 = Some e.
Proof.
  destruct g1 as [c1 [e1|]]; unfold gen_seq; simpl; [by left|by right].
Qed.

Lemma yield_atom_stop buf v a e :
  atom v = Some a → (yield_atom buf a).2 = Some e → e = ValueError.
Proof.
  destruct v as [|[]|n|l|s| |]; try done; simpl; intros [= <-]; try done.
  unfold int_str. destruct (digits_ok _); simpl; [done|]. by intros [= <-].
Qed.

Lemma iterencode_stop v : ∀ level e,
  (iterencode level v).2 = Some e → e = ValueError.
Proof.
  induction v as [|b|n|l|s|items IH|members IH] using json_nested_ind;
    intros level e; [|destruct b|..].
  1-6: match goal with
       | |- context [iterencode ?lv ?v] =>
           apply (yield_atom_stop "" v _ e eq_refl)
       end.
  - destruct items as [|x l]; [done|].
    rewrite iterencode_arr by done. cbn [gens]. intros H.
    apply gen_seq_stop in H as [H|H].
    2:{ apply gen_seq_stop in H as [H|H]; [done|].
        by apply gen_seq_stop in H as [H|H]. }
    revert H. generalize ("[" +:+ newline_indent (S level)).
    induction IH as [|y l' Hy HF IHl]; intros buf; [done|].
    cbn [encode_items]. intros H. apply gen_seq_stop in H as [H|H].
    + destruct (atom y) as [a|] eqn:Ha.
      * by eapply yield_atom_stop.
      * apply gen_seq_stop in H as [H|H]; [done|]. by eapply Hy.
    + by eapply IHl.
  - destruct members as [|x l]; [done|].
    rewrite iterencode_obj by done. cbn [gens]. intros H.
    apply gen_seq_stop in H as [H|H]; [done|].
    apply gen_seq_stop in H as [H|H]; [done|].
    apply gen_seq_stop in H as [H|H].
    2:{ apply gen_seq_stop in H as [H|H]; [done|].
        by apply gen_seq_stop in H as [H|H]. }
    revert H. generalize true.
    induction IH as [|[k v] l' Hy HF IHl]; intros first; [done|].
    cbn [encode_members gens fst snd]. rewrite member_chunk. intros H.
    apply gen_seq_stop in H as [H|H]; [by destruct first|].
    apply gen_seq_stop in H as [H|H]; [done|].
    apply gen_seq_stop in H as [H|H]; [done|].
    apply gen_seq_stop in H as [H|H]; [by eapply Hy|].
    apply gen_seq_stop in H as [H|H]; [by eapply IHl|done].
Qed.

(** [write] takes every chunk exactly when every chunk is UTF-8. *)
Lemma write_chunks_ok chunks written :
  forallb utf8_valid chunks = true →
  write_chunks chunks written
  = (Ok tt, written +:+ fold_right String.append "" chunks).
Proof.
  revert written. induction chunks as [|c chunks IH]; intros written; simpl.
  - by rewrite append_nil_r.
  - intros H. apply andb_true_iff in H as [-> H].
    by rewrite IH, append_assoc.
Qed.

Lemma write_chunks_fail chunks written :
  forallb utf8_valid chunks = false →
  ∃ text, write_chunks chunks written = (Raise UnicodeEncodeError, text).
Proof.
  revert written. induction chunks as [|c chunks IH]; intros written; simpl;
    [done|].
  destruct (utf8_valid c); simpl; [apply IH|]. intros _. by eexists.
Qed.

(** [json.dump] returns exactly on the values that are [dumpable], and has
    then written their text. *)
Lemma json_dump_dumpable v :
  dumpable v = true → json_dump v = (Ok tt, json_dumps v).
Proof.
  intros Hd. destruct (iterencode_encodes v 0%nat) as [Hok Htext].
  rewrite Hd in Hok. unfold json_dump, json_dumps.
  pose proof (gen_ok_ends _ Hok) as Hend. unfold gen_ok in Hok.
  rewrite Hend in *. rewrite (write_chunks_ok _ _ Hok). simpl.
  f_equal. exact (Htext Hd).
Qed.

Lemma json_dump_raises v :
  dumpable v = false →
  ∃ e text, json_dump v = (Raise e, text)
            ∧ (e = ValueError ∨ e = UnicodeEncodeError).
Proof.
  intros Hd. destruct (iterencode_encodes v 0%nat) as [Hok _].
  rewrite Hd in Hok. unfold json_dump. unfold gen_ok in Hok.
  destruct (forallb utf8_valid (iterencode 0 v).1) eqn:Hv.
  - rewrite (write_chunks_ok _ _ Hv).
    destruct ((iterencode 0 v).2) as [e|] eqn:He; [|done].
    exists e. eexists. split; [done|]. left.
    by eapply iterencode_stop.
  - destruct (write_chunks_fail _ "" Hv) as [text ->].
    exists UnicodeEncodeError, text. split; [done|]. by right.
Qed.

Lemma utf8_valid_concat chunks :
  forallb utf8_valid chunks = true →
  utf8_valid (fold_right String.append "" chunks) = true.
Proof.
  induction chunks as [|c chunks IH]; simpl; [done|].
  intros H. apply andb_true_iff in H as [Hc H].
  rewrite (utf8_valid_app _ _ Hc). by apply IH.
Qed.

(** The text of a [dumpable] value is UTF-8. *)
Lemma utf8_valid_dumps v : dumpable v = true → utf8_valid (json_dumps v) = true.
Proof.
  intros Hd. destruct (iterencode_encodes v 0%nat) as [Hok Htext].
  rewrite Hd in Hok. unfold json_dumps. rewrite <- (Htext Hd).
  apply utf8_valid_concat. unfold gen_ok in Hok.
  by destruct ((iterencode 0 v).2).
Qed.

Lemma json_dump_Ok_inv v text :
  json_dump v = (Ok tt, text) → dumpable v = true ∧ text = json_dumps v.
Proof.
  intros H. destruct (dumpable v) eqn:Hd.
  - rewrite (json_dump_dumpable v Hd) in H. by injection H as <-.
  - destruct (json_dump_raises v Hd) as (e & t & H' & _). congruence.
Qed.

(** ** Saving *)

(** [save] is: make the directory of the target, open its file, and write. *)
Lemma save_unfold output_path w :
  save output_path w =
    match save_target (self w) output_path with
    | None => (Raise ValueError, w)
    | Some save_path =>
        match mkdir true true (disk w) (directory_of save_path) with
        | (Raise e, fs1) => (Raise e, set_disk fs1 w)
        | (Ok _, fs1) =>
            match open_w fs1 (metadata_file_of save_path) with
            | Raise e => (Raise e, set_disk fs1 w)
            | Ok l =>
                ((json_dump (metadata (self w))).1,
                 set_disk
                   (put l (File (json_dump (metadata (self w))).2) fs1) w)
            end
        end
    end.
Proof.
  unfold save, directory_of, metadata_file_of.
  destruct (save_target _ _) as [sp|]; [|done].
  destruct (String.eqb (suffix sp) "");
    destruct (mkdir _ _ _ _) as [[[]|e] fs1]; try done;
    destruct (open_w _ _); try done; by destruct (json_dump _).
Qed.

(** C7.  [save], with or without an explicit [output_path], leaves the
    handler (its remembered path and its document) as it was, so a later
    [save()] without argument has the target it had before. *)
Theorem save_keeps_path (output_path : option string) (w : world) :
  self (save output_path w).2 = self w
  ∧ save_target (self (save output_path w).2) None = save_target (self w) None.
Proof.
  assert (H : self (save output_path w).2 = self w).
  { rewrite save_unfold. destruct (save_target _ _); [|done].
    destruct (mkdir _ _ _ _) as [[[]|e] fs1]; [|done].
    by destruct (open_w _ _). }
  split; [exact H|]. by rewrite H.
Qed.

(** C8.  A handler constructed without a path has none, and [save()] without
    argument on a handler that has no path raises [ValueError] and leaves the
    file system as it was. *)
Theorem save_without_destination :
  (∀ fs, __init__ None fs = Ok {| path := None; metadata := JObj [] |})
  ∧ (∀ w, path (self w) = None → save None w = (Raise ValueError, w)).
Proof.
  split; [done|]. intros w Hp. unfold save, save_target. simpl. by rewrite Hp.
Qed.

Lemma mkdir_made fs p :
  os_path p = Ok tt →
  no_file_on fs (places (cwd fs) p) = true →
  ∃ fs1, mkdir true true fs p = (Ok tt, fs1) ∧ made fs (places (cwd fs) p) fs1.
Proof.
  intros Hos H. pose proof (mkdir_rec_spec (length p) fs p Hos (le_n _)) as Hs.
  unfold mkdir_spec in Hs. by rewrite H in Hs.
Qed.

Lemma mkdir_blocked fs p :
  os_path p = Ok tt →
  no_file_on fs (places (cwd fs) p) = false →
  ∃ e fs1, mkdir true true fs p = (Raise e, fs1) ∧ grows fs fs1.
Proof.
  intros Hos H. pose proof (mkdir_rec_spec (length p) fs p Hos (le_n _)) as Hs.
  unfold mkdir_spec in Hs. by rewrite H in Hs.
Qed.

(** Whatever its outcome, [mkdir] only adds directories. *)
Lemma mkdir_grows fs p : grows fs (mkdir true true fs p).2.
Proof.
  destruct (os_path p) as [[]|e] eqn:Hos.
  - destruct (no_file_on fs (places (cwd fs) p)) eqn:Hnf.
    + destruct (mkdir_made _ _ Hos Hnf) as (fs1 & -> & Hmade).
      by eapply made_grows.
    + by destruct (mkdir_blocked _ _ Hos Hnf) as (e & fs1 & -> & Hg).
  - unfold mkdir. rewrite (mkdir_rec_refused _ _ _ _ _ _ Hos).
    apply grows_refl.
Qed.

(** Where [open] finds the file once the directories are made. *)
Lemma open_w_made fs sp fs1 :
  os_path (metadata_file_of sp) = Ok tt →
  made fs (places (cwd fs) (directory_of sp)) fs1 →
  let file_place :=
    place (cwd fs) (directory_of sp) ++ [name (metadata_file_of sp)] in
  locate fs1 (metadata_file_of sp) = Ok file_place
  ∧ open_w fs1 (metadata_file_of sp) =
      if negb (is_dir_entry (entry fs file_place))
         && bool_decide (file_place ∉ places (cwd fs) (directory_of sp))
      then Ok file_place else Raise IsADirectoryError.
Proof.
  intros Hos (Hc & Hin & Hout) fp.
  assert (Hl : locate fs1 (metadata_file_of sp) = Ok fp).
  { rewrite (locate_walk _ _ Hos).
    pose proof (metadata_file_split sp) as Hsplit.
    pose proof (metadata_file_name sp (place (cwd fs) (directory_of sp))) as Hn.
    subst fp. set (fname := name (metadata_file_of sp)) in *.
    rewrite Hsplit. rewrite walk_snoc, Hc.
    rewrite (walk_dirs fs1 _ _ Hin).
    by rewrite (Hin _ (place_in_places _ _)), Hn. }
  split; [exact Hl|]. unfold open_w. rewrite Hl. simpl.
  destruct (decide (fp ∈ places (cwd fs) (directory_of sp))) as [Hfp|Hfp].
  - rewrite (Hin fp Hfp).
    rewrite (bool_decide_eq_false_2 _ (λ H, H Hfp)). by rewrite andb_false_r.
  - rewrite (Hout fp Hfp), (bool_decide_eq_true_2 _ Hfp), andb_true_r.
    by destruct (entry fs fp) as [[]|].
Qed.

(** [save] where it can write: the directories are made and the file holds
    what [json.dump] wrote. *)
Lemma save_writable output_path w sp :
  save_target (self w) output_path = Some sp →
  writable (disk w) sp = true →
  ∃ fs1 file_place,
    made (disk w) (places (cwd (disk w)) (directory_of sp)) fs1
    ∧ grows (disk w) fs1
    ∧ locate fs1 (metadata_file_of sp) = Ok file_place
    ∧ entry fs1 file_place ≠ Some Dir
    ∧ save output_path w =
        ((json_dump (metadata (self w))).1,
         set_disk
           (put file_place (File (json_dump (metadata (self w))).2) fs1) w).
Proof.
  intros Ht Hw. unfold writable in Hw.
  apply andb_true_iff in Hw as [Hw Hfree].
  apply andb_true_iff in Hw as [Hw Hnd].
  apply andb_true_iff in Hw as [Hos Hnf].
  destruct (os_path (metadata_file_of sp)) as [[]|] eqn:Hos'; [clear Hos|done].
  assert (Hosd : os_path (directory_of sp) = Ok tt).
  { rewrite <- metadata_file_parent. by apply os_path_parent. }
  destruct (mkdir_made _ _ Hosd Hnf) as (fs1 & Hmk & Hmade).
  destruct (open_w_made _ sp _ Hos' Hmade) as [Hl Hopen].
  rewrite Hnd, Hfree in Hopen. simpl in Hopen.
  eexists fs1, _. split; [exact Hmade|].
  split; [by eapply made_grows|]. split; [exact Hl|]. split.
  - destruct Hmade as (_ & _ & Hout). apply bool_decide_eq_true in Hfree.
    rewrite (Hout _ Hfree). intros E. by rewrite E in Hnd.
  - by rewrite save_unfold, Ht, Hmk, Hopen.
Qed.

(** [save] where it cannot write: it raises, having at most made some
    directories. *)
Lemma save_not_writable output_path w sp :
  save_target (self w) output_path = Some sp →
  writable (disk w) sp = false →
  ∃ e fs1, save output_path w = (Raise e, set_disk fs1 w)
           ∧ grows (disk w) fs1.
Proof.
  intros Ht Hw. unfold writable in Hw. rewrite save_unfold, Ht.
  destruct (os_path (metadata_file_of sp)) as [[]|e0] eqn:Hos.
  - assert (Hosd : os_path (directory_of sp) = Ok tt).
    { rewrite <- metadata_file_parent. by apply os_path_parent. }
    destruct (no_file_on (disk w) (places (cwd (disk w)) (directory_of sp)))
      eqn:Hnf.
    + destruct (mkdir_made _ _ Hosd Hnf) as (fs1 & Hmk & Hmade).
      destruct (open_w_made _ sp _ Hos Hmade) as [Hl Hopen].
      simpl in Hw. rewrite Hw in Hopen. rewrite Hmk, Hopen.
      exists IsADirectoryError, fs1. split; [done|]. by eapply made_grows.
    + destruct (mkdir_blocked _ _ Hosd Hnf) as (e & fs1 & Hmk & Hg).
      rewrite Hmk. by exists e, fs1.
  - pose proof (mkdir_grows (disk w) (directory_of sp)) as Hg.
    destruct (mkdir true true (disk w) (directory_of sp)) as [[[]|e] fs1];
      simpl in Hg; [|by exists e, fs1].
    unfold open_w. rewrite (locate_refused _ _ _ Hos). simpl.
    by exists e0, fs1.
Qed.

Lemma save_succeeds output_path w save_path :
  save_target (self w) output_path = Some save_path →
  writable (disk w) save_path = true →
  dumpable (metadata (self w)) = true →
  ∃ w', save output_path w = (Ok tt, w').
Proof.
  intros Ht Hw Hd.
  destruct (save_writable _ _ _ Ht Hw) as (fs1 & fp & _ & _ & _ & _ & ->).
  rewrite (json_dump_dumpable _ Hd). by eexists.
Qed.

Lemma read_text_Ok fs p content :
  read_text fs p = Ok content →
  stat fs p = Ok (File content) ∧ exists_ fs p = true ∧ is_dir fs p = false.
Proof.
  unfold read_text, exists_, is_dir.
  destruct (stat fs p) as [[c|]|]; [|done|done].
  destruct (utf8_valid c); [|done]. by intros [= ->].
Qed.

Lemma is_dir_exists fs p : is_dir fs p = true → exists_ fs p = true.
Proof. unfold is_dir, exists_. by destruct (stat fs p). Qed.

(** What a [save] that returns has done. *)
Lemma save_Ok_inv output_path w w' :
  save output_path w = (Ok tt, w') →
  ∃ save_path fs1 file_place,
    save_target (self w) output_path = Some save_path
    ∧ writable (disk w) save_path = true
    ∧ dumpable (metadata (self w)) = true
    ∧ grows (disk w) fs1
    ∧ is_dir fs1 (directory_of save_path) = true
    ∧ locate fs1 (metadata_file_of save_path) = Ok file_place
    ∧ entry fs1 file_place ≠ Some Dir
    ∧ w' = set_disk
             (put file_place (File (json_dumps (metadata (self w)))) fs1) w
    ∧ is_dir (disk w') (directory_of save_path) = true
    ∧ read_text (disk w') (metadata_file_of save_path)
      = Ok (json_dumps (metadata (self w))).
Proof.
  intros Hs.
  destruct (save_target (self w) output_path) as [sp|] eqn:Ht.
  2:{ rewrite save_unfold, Ht in Hs. done. }
  destruct (writable (disk w) sp) eqn:Hw.
  2:{ destruct (save_not_writable _ _ _ Ht Hw) as (e & fs1 & Hs' & _).
      congruence. }
  destruct (save_writable _ _ _ Ht Hw)
    as (fs1 & fp & Hmade & Hg & Hl & Hfp & Hs').
  rewrite Hs' in Hs. injection Hs as Hdump Hw'.
  destruct (json_dump (metadata (self w))) as [r text] eqn:Hj.
  simpl in Hdump, Hw'. subst r.
  destruct (json_dump_Ok_inv _ _ Hj) as [Hd ->].
  assert (Hdir : is_dir fs1 (directory_of sp) = true).
  { destruct Hmade as (Hc & Hin & _). rewrite is_dir_locate.
    apply locate_Ok in Hl as Hos. destruct Hos as [Hos _].
    rewrite locate_walk
      by (rewrite <- metadata_file_parent; by apply os_path_parent).
    rewrite Hc, (walk_dirs fs1 _ _ Hin).
    by rewrite (Hin _ (place_in_places _ _)). }
  set (text := json_dumps (metadata (self w))) in *.
  assert (Hdir' : is_dir (put fp (File text) fs1) (directory_of sp) = true).
  { rewrite is_dir_locate in *.
    destruct (locate fs1 (directory_of sp)) as [d|] eqn:Hd'; [|done].
    rewrite (put_file_locate _ _ _ _ _ Hfp Hd').
    rewrite entry_put_ne; [done|]. intros <-.
    by destruct (entry fs1 fp) as [[]|]. }
  assert (Hread : read_text (put fp (File text) fs1) (metadata_file_of sp)
                  = Ok text).
  { unfold read_text. rewrite (locate_stat _ _ fp (File text)).
    - subst text. by rewrite (utf8_valid_dumps _ Hd).
    - by apply put_file_locate.
    - by apply entry_put_eq. }
  exists sp, fs1, fp. subst w'. by repeat (split; [done|]).
Qed.



(** ** Loading *)

Lemma scan_once_S f s :
  scan_once (S f) s =
    match s with
    | EmptyString => Raise JSONDecodeError
    | String c r =>
        if Ascii.eqb c "034" then
          match scanstring r with
          | Some (str, rest) => Ok (JStr str, rest)
          | None => Raise JSONDecodeError
          end
        else if Ascii.eqb c "{" then
          match skip_ws r with
          | String c1 r1 =>
              if Ascii.eqb c1 "}" then Ok (JObj [], r1)
              else
                match object_items f (String c1 r1) with
                | Ok (pairs, rest) => Ok (JObj (dict_of_pairs pairs), rest)
                | Raise e => Raise e
                end
          | EmptyString => Raise JSONDecodeError
          end
        else if Ascii.eqb c "[" then
          match skip_ws r with
          | String c1 r1 =>
              if Ascii.eqb c1 "]" then Ok (JArr [], r1)
              else
                match array_items f (String c1 r1) with
                | Ok (values, rest) => Ok (JArr values, rest)
                | Raise e => Raise e
                end
          | EmptyString => Raise JSONDecodeError
          end
        else scan_constant s
    end.
Proof. done. Qed.

Lemma array_items_S f s :
  array_items (S f) s =
    match scan_once f s with
    | Raise e => Raise e
    | Ok (value, r) =>
        match skip_ws r with
        | String c r1 =>
            if Ascii.eqb c "]" then Ok ([value], r1)
            else if Ascii.eqb c "," then
              match array_items f (skip_ws r1) with
              | Ok (values, rest) => Ok (value :: values, rest)
              | Raise e => Raise e
              end
            else Raise JSONDecodeError
        | EmptyString => Raise JSONDecodeError
        end
    end.
Proof. done. Qed.

Lemma object_items_S f s :
  object_items (S f) s =
    match s with
    | EmptyString => Raise JSONDecodeError
    | String q r =>
        if negb (Ascii.eqb q "034") then Raise JSONDecodeError
        else
          match scanstring r with
          | None => Raise JSONDecodeError
          | Some (key, r1) =>
              match skip_ws r1 with
              | EmptyString => Raise JSONDecodeError
              | String c r2 =>
                  if negb (Ascii.eqb c ":") then Raise JSONDecodeError
                  else
                    match scan_once f (skip_ws r2) with
                    | Raise e => Raise e
                    | Ok (value, r3) =>
                        match skip_ws r3 with
                        | EmptyString => Raise JSONDecodeError
                        | String c3 r4 =>
                            if Ascii.eqb c3 "}" then Ok ([(key, value)], r4)
                            else if Ascii.eqb c3 "," then
                              match object_items f (skip_ws r4) with
                              | Ok (pairs, rest) =>
                                  Ok ((key, value) :: pairs, rest)
                              | Raise e => Raise e
                              end
                            else Raise JSONDecodeError
                        end
                    end
              end
          end
    end.
Proof. done. Qed.

Lemma scan_number_raises s e : scan_number s = Some (Raise e) → e = ValueError.
Proof.
  unfold scan_number.
  destruct (match s with
            | String c r => if Ascii.eqb c "-" then (true, r) else (false, s)
            | EmptyString => (false, s)
            end) as [neg s1].
  destruct (scan_integer s1) as [[i s2]|]; [|done].
  destruct (scan_frac s2) as [frac s3]. destruct (scan_exp s3) as [exp s4].
  destruct (String.eqb frac "" && String.eqb exp ""); [|done].
  destruct (digits_ok i); [done|]. by intros [= <-].
Qed.

Lemma scan_constant_raises s e :
  scan_constant s = Raise e → e = JSONDecodeError ∨ e = ValueError.
Proof.
  unfold scan_constant.
  destruct (strip_prefix "null" s); [done|].
  destruct (strip_prefix "true" s); [done|].
  destruct (strip_prefix "false" s); [done|].
  destruct (scan_number s) as [[res|e']|] eqn:Hn.
  - done.
  - intros [= ->]. right. by eapply scan_number_raises.
  - destruct (strip_prefix "NaN" s); [done|].
    destruct (strip_prefix "Infinity" s); [done|].
    destruct (strip_prefix "-Infinity" s); [done|].
    intros [= <-]. by left.
Qed.

(** The scanner raises [JSONDecodeError] or [ValueError], nothing else. *)
Lemma scan_raises fuel :
  (∀ s e, scan_once fuel s = Raise e → e = JSONDecodeError ∨ e = ValueError)
  ∧ (∀ s e, array_items fuel s = Raise e →
       e = JSONDecodeError ∨ e = ValueError)
  ∧ (∀ s e, object_items fuel s = Raise e →
       e = JSONDecodeError ∨ e = ValueError).
Proof.
  induction fuel as [|f (IH1 & IH2 & IH3)].
  - repeat split; intros s e; simpl; intros [= <-]; by left.
  - repeat split; intros s e.
    + rewrite scan_once_S. destruct s as [|c r]; [intros [= <-]; by left|].
      destruct (Ascii.eqb c "034").
      { destruct (scanstring r) as [[]|]; [done|]. intros [= <-]. by left. }
      destruct (Ascii.eqb c "{").
      { destruct (skip_ws r) as [|c1 r1]; [intros [= <-]; by left|].
        destruct (Ascii.eqb c1 "}"); [done|].
        destruct (object_items f _) as [[]|e'] eqn:H; [done|].
        intros [= <-]. by eapply IH3. }
      destruct (Ascii.eqb c "[").
      { destruct (skip_ws r) as [|c1 r1]; [intros [= <-]; by left|].
        destruct (Ascii.eqb c1 "]"); [done|].
        destruct (array_items f _) as [[]|e'] eqn:H; [done|].
        intros [= <-]. by eapply IH2. }
      apply scan_constant_raises.
    + rewrite array_items_S.
      destruct (scan_once f s) as [[v r]|e'] eqn:H.
      2:{ intros [= <-]. by eapply IH1. }
      destruct (skip_ws r) as [|c r1]; [intros [= <-]; by left|].
      destruct (Ascii.eqb c "]"); [done|].
      destruct (Ascii.eqb c ","); [|intros [= <-]; by left].
      destruct (array_items f _) as [[]|e'] eqn:H'; [done|].
      intros [= <-]. by eapply IH2.
    + rewrite object_items_S. destruct s as [|q r]; [intros [= <-]; by left|].
      destruct (negb _); [intros [= <-]; by left|].
      destruct (scanstring r) as [[key r1]|]; [|intros [= <-]; by left].
      destruct (skip_ws r1) as [|c r2]; [intros [= <-]; by left|].
      destruct (negb _); [intros [= <-]; by left|].
      destruct (scan_once f _) as [[v r3]|e'] eqn:H.
      2:{ intros [= <-]. by eapply IH1. }
      destruct (skip_ws r3) as [|c3 r4]; [intros [= <-]; by left|].
      destruct (Ascii.eqb c3 "}"); [done|].
      destruct (Ascii.eqb c3 ","); [|intros [= <-]; by left].
      destruct (object_items f _) as [[]|e'] eqn:H'; [done|].
      intros [= <-]. by eapply IH3.
Qed.

(** [json.loads] raises [JSONDecodeError], or [ValueError] for an integer
    over the limit of digits. *)
Lemma json_loads_raises s e :
  json_loads s = Raise e → e = JSONDecodeError ∨ e = ValueError.
Proof.
  unfold json_loads. destruct (String.prefix _ s); [intros [= <-]; by left|].
  destruct (scan_once _ _) as [[v rest]|e'] eqn:H.
  - destruct (skip_ws rest); [done|]. intros [= <-]. by left.
  - intros [= <-]. by eapply (proj1 (scan_raises _)).
Qed.

(** C4.  [load] on a handler whose path is unset or does not exist raises
    [FileNotFoundError]; and whatever [load] raises, the handler and its
    document are as they were before the call. *)
Theorem load_failure_keeps_document (w : world) :
  (match path (self w) with
   | Some p => exists_ (disk w) p = false
   | None => True
   end → load w = (Raise FileNotFoundError, w))
  ∧ (∀ e, (load w).1 = Raise e → (load w).2 = w).
Proof.
  split.
  - unfold load. destruct (path (self w)); [|done]. by intros ->.
  - intros e. unfold load. destruct (path (self w)); [|done].
    destruct (negb _); [done|].
    by destruct (if is_dir _ _ then _ else _).
Qed.

(** C2 (amended).  After [create_new], and after the [load] of an existing
    directory without [definition.pbir], [datamodel.tables] and
    [datamodel.relationships] are present and are sequences.  A [load] that
    reads a file installs the parsed value as it is. *)
Theorem datamodel_sequences_after_create_or_default (w : world) :
  (∀ name description,
     datamodel_sequences (metadata (self (create_new name description w).2))
     = true)
  ∧ (∀ p, path (self w) = Some p → is_dir (disk w) p = true →
       exists_ (disk w) (joinpath p "definition.pbir") = false →
       load w = (Ok _create_default_metadata,
                 set_metadata _create_default_metadata w)
       ∧ datamodel_sequences (metadata (self (load w).2)) = true)
  ∧ (∀ p m, path (self w) = Some p →
       exists_ (disk w) p = true →
       exists_ (disk w) (source_of (disk w) p) = true →
       json_load (disk w) (source_of (disk w) p) = Ok m →
       load w = (Ok m, set_metadata m w)).
Proof.
  split; [done|]. split.
  - intros p Hp Hdir Hex. unfold load. rewrite Hp.
    rewrite (is_dir_exists _ _ Hdir). simpl. by rewrite Hdir, Hex.
  - intros p m Hp Hex Hsrc Hload. unfold load. rewrite Hp, Hex. simpl.
    unfold source_of in *. destruct (is_dir (disk w) p).
    + by rewrite Hsrc, Hload.
    + by rewrite Hload.
Qed.

Lemma path_of_arg_Some s : s ≠ "" → path_of_arg (Some s) = Some (Path s).
Proof. intros H. unfold path_of_arg. by destruct (String.eqb_spec s ""). Qed.

(** The constructor on a path that exists is [load] on a new handler. *)
Lemma init_existing s fs :
  s ≠ "" → exists_ fs (Path s) = true →
  __init__ (Some s) fs =
    match load {| self := {| path := Some (Path s); metadata := JObj [] |};
                  disk := fs |} with
    | (Ok _, w) => Ok (self w)
    | (Raise e, _) => Raise e
    end.
Proof.
  intros Hs Hex. unfold __init__. rewrite (path_of_arg_Some s Hs). simpl.
  by rewrite Hex.
Qed.

(** [load] on a path that exists is [json.load] on its file. *)
Lemma load_source w p :
  path (self w) = Some p →
  exists_ (disk w) p = true →
  exists_ (disk w) (source_of (disk w) p) = true →
  load w =
    match json_load (disk w) (source_of (disk w) p) with
    | Ok m => (Ok m, set_metadata m w)
    | Raise e => (Raise e, w)
    end.
Proof.
  intros Hp Hex Hsrc. unfold load. rewrite Hp, Hex. simpl.
  unfold source_of in *. destruct (is_dir (disk w) p); [|done].
  by rewrite Hsrc.
Qed.

(** C10 (amended).  Constructing the handler on a path that exists runs
    [load], so it raises what [json.load] raises on the file (the path
    itself, or [definition.pbir] in it when it is a directory):
    [UnicodeDecodeError] when its bytes are not UTF-8, and otherwise what the
    decoder raises on the text, which is [JSONDecodeError] or, for an integer
    over the limit of digits, [ValueError]. *)
Theorem init_raises_on_malformed (s content : string) (fs : FS) :
  s ≠ "" →
  exists_ fs (Path s) = true →
  stat fs (source_of fs (Path s)) = Ok (File content) →
  (utf8_valid content = false →
   __init__ (Some s) fs = Raise UnicodeDecodeError)
  ∧ (utf8_valid content = true → ∀ e, json_loads content = Raise e →
     __init__ (Some s) fs = Raise e
     ∧ (e = JSONDecodeError ∨ e = ValueError)).
Proof.
  intros Hs Hex Hst. rewrite (init_existing s fs Hs Hex).
  rewrite (load_source
             {| self := {| path := Some (Path s); metadata := JObj [] |};
                disk := fs |} (Path s) eq_refl Hex); simpl.
  2:{ unfold exists_. by rewrite Hst. }
  unfold json_load, read_text. rewrite Hst. split.
  - by intros ->.
  - intros -> e He. simpl. rewrite He. split; [done|].
    by apply (json_loads_raises content).
Qed.

(** ** The fuel of the scanner

    Every call of the scanner that returns has read at least one character,
    so the calls nest no deeper than the text is long, and the fuel that
    [json_loads] supplies is never used up: with more fuel the scanner does
    the same. *)

Lemma skip_ws_length s : (String.length (skip_ws s) ≤ String.length s)%nat.
Proof.
  induction s as [|c r IH]; simpl; [done|]. destruct (is_ws c); simpl; lia.
Qed.

Lemma prepend_Some pre r str rest :
  prepend pre r = Some (str, rest) → ∃ content, r = Some (content, rest).
Proof.
  destruct r as [[content rest']|]; [|done]. simpl. intros [= _ <-].
  by eexists.
Qed.

Lemma scanstring_length n : ∀ s str rest,
  (String.length s ≤ n)%nat → scanstring s = Some (str, rest) →
  (String.length rest < String.length s)%nat.
Proof.
  induction n as [|n IH]; intros s str rest Hn H.
  - destruct s; [done|simpl in Hn; lia].
  - destruct s as [|c r]; [done|]. cbn [scanstring] in H. simpl in Hn.
    repeat (case_match; try done; simplify_eq);
      try (simpl; lia);
      try (apply prepend_Some in H as [? H]; apply IH in H;
           simpl in *; lia).
Qed.

Lemma scan_digits_length s :
  (String.length (scan_digits s).2 ≤ String.length s)%nat.
Proof.
  induction s as [|c r IH]; simpl; [done|].
  destruct (digit c); [|simpl; lia].
  destruct (scan_digits r) as [u0 rest]. simpl in *. lia.
Qed.

Lemma scan_integer_length s u rest :
  scan_integer s = Some (u, rest) →
  (String.length rest < String.length s)%nat.
Proof.
  destruct s as [|c r]; [done|]. simpl.
  destruct (Ascii.eqb c "0"); [intros [= _ <-]; lia|].
  destruct (digit c); [|done].
  pose proof (scan_digits_length r) as H.
  destruct (scan_digits r) as [u' rest']. intros [= _ <-]. simpl in H. lia.
Qed.

Lemma scan_frac_length s :
  (String.length (scan_frac s).2 ≤ String.length s)%nat.
Proof.
  destruct s as [|c r]; [done|]. unfold scan_frac.
  destruct (Ascii.eqb c "."); [|done].
  pose proof (scan_digits_length r) as H.
  destruct (scan_digits r) as [[] rest]; simpl in *; lia.
Qed.

Lemma scan_exp_length s :
  (String.length (scan_exp s).2 ≤ String.length s)%nat.
Proof.
  destruct s as [|c r]; [done|]. unfold scan_exp.
  destruct (Ascii.eqb c "e" || Ascii.eqb c "E"); [|done].
  destruct r as [|g r'].
  - done.
  - destruct (Ascii.eqb g "+" || Ascii.eqb g "-").
    + pose proof (scan_digits_length r') as H.
      destruct (scan_digits r') as [[] rest]; simpl in *; lia.
    + pose proof (scan_digits_length (String g r')) as H.
      destruct (scan_digits (String g r')) as [[] rest]; simpl in *; lia.
Qed.

Lemma scan_number_length s v rest :
  scan_number s = Some (Ok (v, rest)) →
  (String.length rest < String.length s)%nat.
Proof.
  unfold scan_number.
  set (sg := match s with
             | String c r => if Ascii.eqb c "-" then (true, r) else (false, s)
             | EmptyString => (false, s)
             end).
  assert (Hsg : (String.length sg.2 ≤ String.length s)%nat).
  { subst sg. destruct s as [|c r]; [done|].
    destruct (Ascii.eqb c "-"); simpl; lia. }
  destruct sg as [neg s1]. simpl in Hsg.
  destruct (scan_integer s1) as [[i s2]|] eqn:Hi; [|done].
  apply scan_integer_length in Hi.
  pose proof (scan_frac_length s2) as Hf.
  destruct (scan_frac s2) as [frac s3]. simpl in Hf.
  pose proof (scan_exp_length s3) as He.
  destruct (scan_exp s3) as [exp s4]. simpl in He.
  destruct (String.eqb frac "" && String.eqb exp "").
  - destruct (digits_ok i); [|done]. intros [= _ <-]. lia.
  - intros [= _ <-]. lia.
Qed.

Lemma strip_prefix_length lit : ∀ s r,
  strip_prefix lit s = Some r →
  (String.length r + String.length lit = String.length s)%nat.
Proof.
  induction lit as [|a lit IH]; intros s r; simpl.
  - intros [= <-]. lia.
  - destruct s as [|b s]; [done|]. destruct (Ascii.eqb a b); [|done].
    intros H. apply IH in H. simpl. lia.
Qed.

Lemma scan_constant_length s v rest :
  scan_constant s = Ok (v, rest) →
  (String.length rest < String.length s)%nat.
Proof.
  unfold scan_constant.
  repeat
    match goal with
    | |- context [strip_prefix ?lit s] =>
        let H := fresh "H" in
        destruct (strip_prefix lit s) eqn:H;
        [apply strip_prefix_length in H; simpl in H; intros [= _ <-]; lia|]
    | |- context [scan_number s] =>
        let H := fresh "H" in
        destruct (scan_number s) as [[[v' rest']|e]|] eqn:H;
        [apply scan_number_length in H; intros [= _ <-]; lia|done|]
    end.
  done.
Qed.

(** A call of the scanner that returns has read something. *)
Lemma scanner_reads fuel :
  (∀ s v rest, scan_once fuel s = Ok (v, rest) →
     (String.length rest < String.length s)%nat)
  ∧ (∀ s vs rest, array_items fuel s = Ok (vs, rest) →
       (String.length rest < String.length s)%nat)
  ∧ (∀ s ps rest, object_items fuel s = Ok (ps, rest) →
       (String.length rest < String.length s)%nat).
Proof.
  induction fuel as [|f (IHo & IHa & IHm)]; [done|].
  split; [|split].
  - intros s v rest. rewrite scan_once_S.
    destruct s as [|c r]; [done|].
    destruct (Ascii.eqb c "034").
    { destruct (scanstring r) as [[str rest']|] eqn:Hs; [|done].
      apply (scanstring_length _ _ _ _ (le_n _)) in Hs.
      intros [= _ <-]. simpl. lia. }
    destruct (Ascii.eqb c "{").
    { pose proof (skip_ws_length r) as Hw.
      destruct (skip_ws r) as [|c1 r1]; [done|]. simpl in Hw.
      destruct (Ascii.eqb c1 "}"); [intros [= _ <-]; simpl; lia|].
      destruct (object_items f (String c1 r1)) as [[ps rest']|] eqn:Hm; [|done].
      apply IHm in Hm. intros [= _ <-]. simpl in *. lia. }
    destruct (Ascii.eqb c "[").
    { pose proof (skip_ws_length r) as Hw.
      destruct (skip_ws r) as [|c1 r1]; [done|]. simpl in Hw.
      destruct (Ascii.eqb c1 "]"); [intros [= _ <-]; simpl; lia|].
      destruct (array_items f (String c1 r1)) as [[vs rest']|] eqn:Ha; [|done].
      apply IHa in Ha. intros [= _ <-]. simpl in *. lia. }
    apply scan_constant_length.
  - intros s vs rest. rewrite array_items_S.
    destruct (scan_once f s) as [[value r]|] eqn:Ho; [|done].
    apply IHo in Ho. pose proof (skip_ws_length r) as Hw.
    destruct (skip_ws r) as [|c r1]; [done|]. simpl in Hw.
    destruct (Ascii.eqb c "]"); [intros [= _ <-]; lia|].
    destruct (Ascii.eqb c ","); [|done].
    pose proof (skip_ws_length r1) as Hw1.
    destruct (array_items f (skip_ws r1)) as [[vs' rest']|] eqn:Ha; [|done].
    apply IHa in Ha. intros [= _ <-]. lia.
  - intros s ps rest. rewrite object_items_S.
    destruct s as [|q r]; [done|].
    destruct (negb (Ascii.eqb q "034")); [done|].
    destruct (scanstring r) as [[key r1]|] eqn:Hs; [|done].
    apply (scanstring_length _ _ _ _ (le_n _)) in Hs.
    pose proof (skip_ws_length r1) as Hw1.
    destruct (skip_ws r1) as [|c r2]; [done|]. simpl in Hw1.
    destruct (negb (Ascii.eqb c ":")); [done|].
    pose proof (skip_ws_length r2) as Hw2.
    destruct (scan_once f (skip_ws r2)) as [[value r3]|] eqn:Ho; [|done].
    apply IHo in Ho. pose proof (skip_ws_length r3) as Hw3.
    destruct (skip_ws r3) as [|c3 r4]; [done|]. simpl in Hw3.
    destruct (Ascii.eqb c3 "}"); [intros [= _ <-]; simpl; lia|].
    destruct (Ascii.eqb c3 ","); [|done].
    pose proof (skip_ws_length r4) as Hw4.
    destruct (object_items f (skip_ws r4)) as [[ps' rest']|] eqn:Hm; [|done].
    apply IHm in Hm. intros [= _ <-]. simpl. lia.
Qed.

(** Fuel beyond twice the length of the text is not used. *)
Lemma scanner_fuel f :
  (∀ f' s, (2 * String.length s + 1 ≤ f)%nat →
     (2 * String.length s + 1 ≤ f')%nat →
     scan_once f s = scan_once f' s)
  ∧ (∀ f' s, (2 * String.length s + 2 ≤ f)%nat →
       (2 * String.length s + 2 ≤ f')%nat →
       array_items f s = array_items f' s)
  ∧ (∀ f' s, (2 * String.length s + 2 ≤ f)%nat →
       (2 * String.length s + 2 ≤ f')%nat →
       object_items f s = object_items f' s).
Proof.
  induction f as [|f (IHo & IHa & IHm)].
  { split; [|split]; intros; lia. }
  split; [|split]; intros f' s Hf Hf'.
  - destruct f' as [|f']; [lia|]. rewrite !scan_once_S.
    destruct s as [|c r]; [done|]. simpl in Hf, Hf'.
    destruct (Ascii.eqb c "034"); [done|].
    pose proof (skip_ws_length r) as Hw.
    destruct (Ascii.eqb c "{").
    { destruct (skip_ws r) as [|c1 r1]; [done|]. simpl in Hw.
      destruct (Ascii.eqb c1 "}"); [done|].
      by rewrite (IHm f' (String c1 r1)) by (simpl; lia). }
    destruct (Ascii.eqb c "[").
    { destruct (skip_ws r) as [|c1 r1]; [done|]. simpl in Hw.
      destruct (Ascii.eqb c1 "]"); [done|].
      by rewrite (IHa f' (String c1 r1)) by (simpl; lia). }
    done.
  - destruct f' as [|f']; [lia|]. rewrite !array_items_S.
    rewrite (IHo f' s) by lia.
    destruct (scan_once f' s) as [[value r]|] eqn:Ho; [|done].
    apply (proj1 (scanner_reads f')) in Ho.
    pose proof (skip_ws_length r) as Hw.
    destruct (skip_ws r) as [|c r1]; [done|]. simpl in Hw.
    destruct (Ascii.eqb c "]"); [done|].
    destruct (Ascii.eqb c ","); [|done].
    pose proof (skip_ws_length r1) as Hw1.
    by rewrite (IHa f' (skip_ws r1)) by lia.
  - destruct f' as [|f']; [lia|]. rewrite !object_items_S.
    destruct s as [|q r]; [done|]. simpl in Hf, Hf'.
    destruct (negb (Ascii.eqb q "034")); [done|].
    destruct (scanstring r) as [[key r1]|] eqn:Hs; [|done].
    apply (scanstring_length _ _ _ _ (le_n _)) in Hs.
    pose proof (skip_ws_length r1) as Hw1.
    destruct (skip_ws r1) as [|c r2]; [done|]. simpl in Hw1.
    destruct (negb (Ascii.eqb c ":")); [done|].
    pose proof (skip_ws_length r2) as Hw2.
    rewrite (IHo f' (skip_ws r2)) by lia.
    destruct (scan_once f' (skip_ws r2)) as [[value r3]|] eqn:Ho; [|done].
    apply (proj1 (scanner_reads f')) in Ho.
    pose proof (skip_ws_length r3) as Hw3.
    destruct (skip_ws r3) as [|c3 r4]; [done|]. simpl in Hw3.
    destruct (Ascii.eqb c3 "}"); [done|].
    destruct (Ascii.eqb c3 ","); [|done].
    pose proof (skip_ws_length r4) as Hw4.
    by rewrite (IHm f' (skip_ws r4)) by lia.
Qed.

(** [json_loads] gives the scanner enough fuel: with more, the outcome is the
    same. *)
Lemma json_loads_fuel s fuel :
  (2 * String.length s + 2 ≤ fuel)%nat →
  scan_once fuel (skip_ws s) = scan_once (2 * String.length s + 2) (skip_ws s).
Proof.
  intros H. pose proof (skip_ws_length s).
  apply (proj1 (scanner_fuel fuel)); lia.
Qed.

(** ** The text of a value reads back as the value *)

Lemma skip_ws_spaces n s : skip_ws (spaces n +:+ s) = skip_ws s.
Proof. induction n as [|n IH]; simpl; done. Qed.

Lemma skip_ws_newline_indent level s :
  skip_ws (newline_indent level +:+ s) = skip_ws s.
Proof. unfold newline_indent. simpl. apply skip_ws_spaces. Qed.

(** The one-character step of [scanstring] on the text [escape] writes. *)
Lemma scanstring_escape_char c t :
  scanstring (escape_char c +:+ t) = prepend (String c "") (scanstring t).
Proof.
  destruct c as [[] [] [] [] [] [] [] []]; reflexivity.
Qed.

Lemma scanstring_escape s rest :
  scanstring (escape s +:+ String "034" rest) = Some (s, rest).
Proof.
  induction s as [|c s IH]; simpl; [done|].
  rewrite append_assoc, scanstring_escape_char, IH. done.
Qed.

Lemma scan_once_encode_str fuel s rest :
  scan_once (S fuel) (encode_str s +:+ rest) = Ok (JStr s, rest).
Proof.
  unfold encode_str. simpl. rewrite append_assoc. simpl.
  by rewrite scanstring_escape.
Qed.

Lemma terminated_cases rest :
  terminated rest = true →
  rest = "" ∨ ∃ r, rest = String "," r ∨ rest = String "010" r.
Proof.
  destruct rest as [|c r]; [by left|]. simpl. intros H. right. exists r.
  apply orb_true_iff in H as [H|H]; apply Ascii.eqb_eq in H; subst; auto.
Qed.

Lemma terminated_no_digit rest : terminated rest = true → no_digit rest = true.
Proof. intros H. by destruct (terminated_cases _ H) as [->|[r [-> | ->]]]. Qed.

Lemma scan_digits_print u rest :
  no_digit rest = true →
  scan_digits (NilEmpty.string_of_uint u +:+ rest) = (u, rest).
Proof.
  intros H. induction u; simpl; try (by rewrite IHu).
  destruct rest as [|c r]; [done|]. simpl in *. by destruct (digit c).
Qed.

Lemma scan_integer_print u rest :
  nonzero_head u = true → no_digit rest = true →
  scan_integer (NilEmpty.string_of_uint u +:+ rest) = Some (u, rest).
Proof.
  intros Hu H. destruct u; try done; simpl; by rewrite scan_digits_print.
Qed.

Lemma scan_frac_terminated rest :
  terminated rest = true → scan_frac rest = ("", rest).
Proof. intros H. by destruct (terminated_cases _ H) as [->|[r [-> | ->]]]. Qed.

Lemma scan_exp_terminated rest :
  terminated rest = true → scan_exp rest = ("", rest).
Proof. intros H. by destruct (terminated_cases _ H) as [->|[r [-> | ->]]]. Qed.

(** [Pos.to_uint] writes no leading zero. *)
Lemma pos_to_uint_head p : nonzero_head (Pos.to_uint p) = true.
Proof.
  assert (Hn : Decimal.unorm (Pos.to_uint p) = Pos.to_uint p).
  { rewrite <- DecimalPos.Unsigned.to_of.
    by rewrite DecimalPos.Unsigned.of_to. }
  pose proof (DecimalPos.Unsigned.to_uint_nonnil p) as Hnil.
  pose proof (DecimalPos.Unsigned.to_uint_nonzero p) as Hz.
  destruct (Pos.to_uint p) as [|u| | | | | | | | |] eqn:E; try done.
  rewrite unorm_D0 in Hn.
  assert (Hu : u ≠ Decimal.Nil) by (intros ->; done).
  pose proof (nb_digits_unorm u Hu) as Hle. rewrite Hn in Hle.
  simpl in Hle. lia.
Qed.

Lemma scan_number_unsigned u rest :
  nonzero_head u = true ∨ u = Decimal.D0 Decimal.Nil →
  digits_ok u = true →
  terminated rest = true →
  scan_number (NilEmpty.string_of_uint u +:+ rest)
  = Some (Ok (JInt (Z.of_int (Decimal.Pos u)), rest)).
Proof.
  intros Hu Hdig Hr. pose proof (terminated_no_digit _ Hr) as Hd.
  assert (Hi : scan_integer (NilEmpty.string_of_uint u +:+ rest) = Some (u, rest)).
  { destruct Hu as [Hu| ->]; [by apply scan_integer_print|done]. }
  unfold scan_number.
  assert (Hs : match NilEmpty.string_of_uint u +:+ rest with
               | String c r =>
                   if Ascii.eqb c "-" then (true, r)
                   else (false, NilEmpty.string_of_uint u +:+ rest)
               | EmptyString => (false, NilEmpty.string_of_uint u +:+ rest)
               end = (false, NilEmpty.string_of_uint u +:+ rest)).
  { destruct Hu as [Hu| ->]; [|done]. by destruct u. }
  rewrite Hs, Hi, (scan_frac_terminated _ Hr), (scan_exp_terminated _ Hr).
  simpl. by rewrite Hdig.
Qed.

Lemma scan_number_negative u rest :
  nonzero_head u = true →
  digits_ok u = true →
  terminated rest = true →
  scan_number (String "-" (NilEmpty.string_of_uint u +:+ rest))
  = Some (Ok (JInt (Z.of_int (Decimal.Neg u)), rest)).
Proof.
  intros Hu Hdig Hr. pose proof (terminated_no_digit _ Hr) as Hd.
  unfold scan_number. simpl.
  rewrite (scan_integer_print _ _ Hu Hd).
  rewrite (scan_frac_terminated _ Hr), (scan_exp_terminated _ Hr).
  simpl. by rewrite Hdig.
Qed.

Lemma scan_number_int_repr n rest :
  digits_ok (int_digits n) = true →
  terminated rest = true →
  scan_number (int_repr n +:+ rest) = Some (Ok (JInt n, rest)).
Proof.
  intros Hdig Hr. rewrite <- (DecimalZ.of_to n) at 2.
  unfold int_repr, int_digits in *.
  destruct n as [|p|p]; simpl Z.to_int in *; simpl NilZero.string_of_int.
  - apply (scan_number_unsigned (Decimal.D0 Decimal.Nil)); auto.
  - pose proof (pos_to_uint_head p) as Hh.
    assert (NilZero.string_of_uint (Pos.to_uint p)
            = NilEmpty.string_of_uint (Pos.to_uint p)) as ->.
    { by destruct (Pos.to_uint p). }
    apply scan_number_unsigned; auto.
  - pose proof (pos_to_uint_head p) as Hh.
    assert (NilZero.string_of_uint (Pos.to_uint p)
            = NilEmpty.string_of_uint (Pos.to_uint p)) as ->.
    { by destruct (Pos.to_uint p). }
    simpl. by apply scan_number_negative.
Qed.

Lemma number_start_int_repr n rest : number_start (int_repr n +:+ rest) = true.
Proof.
  unfold int_repr. destruct n as [|p|p]; simpl; [done| |done].
  pose proof (pos_to_uint_head p) as Hh. by destruct (Pos.to_uint p).
Qed.

Lemma scan_once_number fuel s res :
  number_start s = true → scan_number s = Some res →
  scan_once (S fuel) s = res.
Proof.
  destruct s as [|c r]; [done|].
  destruct c as [[] [] [] [] [] [] [] []]; try discriminate; intros _ H;
    simpl; unfold scan_constant; simpl; by rewrite H.
Qed.

Lemma scan_once_int_repr fuel n rest :
  digits_ok (int_digits n) = true →
  terminated rest = true →
  scan_once (S fuel) (int_repr n +:+ rest) = Ok (JInt n, rest).
Proof.
  intros Hdig Hr. apply scan_once_number.
  - apply number_start_int_repr.
  - by apply scan_number_int_repr.
Qed.

Lemma number_start_starts_value s : number_start s = true → starts_value s = true.
Proof.
  destruct s as [|c r]; [done|].
  destruct c as [[] [] [] [] [] [] [] []]; try discriminate; done.
Qed.

Lemma dumps_starts_value v level rest :
  json_ok v = true → starts_value (dumps_at level v +:+ rest) = true.
Proof.
  destruct v as [|[]|n|l|s|items|members]; try done.
  - intros _. apply number_start_starts_value, number_start_int_repr.
  - intros _. destruct items; [done|]. by rewrite dumps_at_arr.
  - intros _. destruct members; [done|]. by rewrite dumps_at_obj.
Qed.

Lemma starts_value_skip_ws s : starts_value s = true → skip_ws s = s.
Proof.
  destruct s as [|c r]; [done|]. simpl.
  destruct (is_ws c); [done|done].
Qed.

Lemma starts_value_no_bom s :
  starts_value s = true →
  String.prefix (String "239" (String "187" (String "191" ""))) s = false.
Proof.
  destruct s as [|c r]; [done|].
  destruct c as [[] [] [] [] [] [] [] []]; try discriminate; done.
Qed.

Lemma encode_str_app k X :
  encode_str k +:+ X = String "034" (escape k +:+ String "034" X).
Proof. unfold encode_str. simpl. by rewrite append_assoc. Qed.

Lemma object_items_member f k Y :
  object_items (S f) (encode_str k +:+ ": " +:+ Y) =
    match scan_once f (skip_ws Y) with
    | Raise e => Raise e
    | Ok (value, r3) =>
        match skip_ws r3 with
        | EmptyString => Raise JSONDecodeError
        | String c3 r4 =>
            if Ascii.eqb c3 "}" then Ok ([(k, value)], r4)
            else if Ascii.eqb c3 "," then
              match object_items f (skip_ws r4) with
              | Ok (pairs, rest) => Ok ((k, value) :: pairs, rest)
              | Raise e => Raise e
              end
            else Raise JSONDecodeError
        end
    end.
Proof.
  rewrite encode_str_app, object_items_S.
  change (negb (Ascii.eqb "034" "034")) with false. cbv iota.
  rewrite scanstring_escape. done.
Qed.

Lemma terminated_newline_indent level X :
  terminated (newline_indent level +:+ X) = true.
Proof. done. Qed.

Lemma array_items_dumps level l :
  Forall reads_back l → forallb json_ok l = true →
  forallb dumpable l = true → l ≠ [] →
  ∀ fuel rest,
    (list_sum (map (λ x, S (json_size x)) l) ≤ fuel)%nat →
    terminated rest = true →
    array_items fuel (dumps_items level l +:+ rest) = Ok (l, rest).
Proof.
  induction l as [|x l IH]; [done|]. intros HF Hok Hdp _ fuel rest Hfuel Hr.
  apply Forall_cons in HF as [Hx HF].
  simpl in Hok. apply andb_true_iff in Hok as [Hokx Hokl].
  cbn [forallb] in Hdp. apply andb_true_iff in Hdp as [Hdx Hdl].
  simpl in Hfuel. destruct fuel as [|f]; [lia|].
  rewrite array_items_S, dumps_items_cons, append_assoc.
  destruct l as [|y l'].
  - rewrite (Hx Hokx Hdx (S level) f); [|lia|done].
    rewrite append_assoc, skip_ws_newline_indent. done.
  - rewrite (Hx Hokx Hdx (S level) f); [|lia|done].
    rewrite !append_assoc.
    change (skip_ws ("," +:+ ?X)) with (String "," X). cbv beta iota.
    change (Ascii.eqb "," "]") with false.
    change (Ascii.eqb "," ",") with true. cbv beta iota.
    rewrite skip_ws_newline_indent.
    rewrite starts_value_skip_ws.
    2:{ rewrite dumps_items_cons, append_assoc.
        apply dumps_starts_value. simpl in Hokl.
        by apply andb_true_iff in Hokl as [? _]. }
    rewrite IH; [done|done|done|done|done| |done].
    simpl in *. lia.
Qed.

Lemma object_items_dumps level l :
  Forall (λ kv, reads_back kv.2) l →
  forallb (λ kv, json_ok kv.2) l = true →
  forallb (λ kv, utf8_valid kv.1 && dumpable kv.2) l = true → l ≠ [] →
  ∀ fuel rest,
    (list_sum (map (λ kv, S (json_size kv.2)) l) ≤ fuel)%nat →
    terminated rest = true →
    object_items fuel (dumps_members level l +:+ rest) = Ok (l, rest).
Proof.
  induction l as [|[k v] l IH]; [done|]. intros HF Hok Hdp _ fuel rest Hfuel Hr.
  apply Forall_cons in HF as [Hx HF]. simpl in Hx.
  simpl in Hok. apply andb_true_iff in Hok as [Hokx Hokl].
  cbn [forallb fst snd] in Hdp. apply andb_true_iff in Hdp as [Hdx Hdl].
  apply andb_true_iff in Hdx as [_ Hdx].
  simpl in Hfuel. destruct fuel as [|f]; [lia|].
  rewrite dumps_members_cons. simpl fst. simpl snd. rewrite !append_assoc.
  rewrite object_items_member.
  rewrite starts_value_skip_ws by by apply dumps_starts_value.
  destruct l as [|y l'].
  - rewrite (Hx Hokx Hdx (S level) f); [|lia|done].
    rewrite append_assoc, skip_ws_newline_indent. done.
  - rewrite (Hx Hokx Hdx (S level) f); [|lia|done].
    rewrite !append_assoc.
    change (skip_ws ("," +:+ ?X)) with (String "," X). cbv beta iota.
    change (Ascii.eqb "," "}") with false.
    change (Ascii.eqb "," ",") with true. cbv beta iota.
    rewrite skip_ws_newline_indent.
    rewrite starts_value_skip_ws.
    2:{ rewrite dumps_members_cons, !append_assoc, encode_str_app. done. }
    rewrite IH; [done|done|done|done|done| |done].
    simpl in *. lia.
Qed.

Lemma starts_value_inv s :
  starts_value s = true →
  ∃ c r, s = String c r ∧ Ascii.eqb c "]" = false ∧ Ascii.eqb c "}" = false.
Proof.
  destruct s as [|c r]; [done|]. simpl. intros H. exists c, r.
  destruct (Ascii.eqb c "]"), (Ascii.eqb c "}"); try done;
    by rewrite ?andb_false_r in H.
Qed.

Lemma scan_once_open_bracket f R :
  scan_once (S f) (String "[" R) =
    match skip_ws R with
    | String c1 r1 =>
        if Ascii.eqb c1 "]" then Ok (JArr [], r1)
        else
          match array_items f (String c1 r1) with
          | Ok (values, rest) => Ok (JArr values, rest)
          | Raise e => Raise e
          end
    | EmptyString => Raise JSONDecodeError
    end.
Proof. done. Qed.

Lemma scan_once_open_brace f R :
  scan_once (S f) (String "{" R) =
    match skip_ws R with
    | String c1 r1 =>
        if Ascii.eqb c1 "}" then Ok (JObj [], r1)
        else
          match object_items f (String c1 r1) with
          | Ok (pairs, rest) => Ok (JObj (dict_of_pairs pairs), rest)
          | Raise e => Raise e
          end
    | EmptyString => Raise JSONDecodeError
    end.
Proof. done. Qed.

(** The scanner reads the text of every exactly representable value back. *)
Lemma scan_once_dumps v : reads_back v.
Proof.
  induction v as [|b|n|l|s|items IH|members IH] using json_nested_ind;
    intros Hok Hdp level fuel rest Hfuel Hr;
    (destruct fuel as [|f]; [simpl in Hfuel; lia|]).
  - done.
  - by destruct b.
  - by apply scan_once_int_repr.
  - done.
  - apply scan_once_encode_str.
  - destruct items as [|x l]; [done|].
    rewrite dumps_at_arr by done.
    change (String "[" ?R +:+ rest) with (String "[" (R +:+ rest)).
    rewrite scan_once_open_bracket, append_assoc, skip_ws_newline_indent.
    assert (Hsv : starts_value (dumps_items level (x :: l) +:+ rest) = true).
    { rewrite dumps_items_cons, append_assoc. apply dumps_starts_value.
      simpl in Hok. by apply andb_true_iff in Hok as [? _]. }
    rewrite (starts_value_skip_ws _ Hsv).
    destruct (starts_value_inv _ Hsv) as (c & r & Heq & Hc & _).
    rewrite Heq, Hc, <- Heq.
    rewrite array_items_dumps; [done|done|done|done|done| |done].
    simpl in Hfuel. simpl. lia.
  - destruct members as [|x l]; [done|].
    simpl in Hok. apply andb_true_iff in Hok as [Hnd Hok].
    apply bool_decide_eq_true in Hnd.
    rewrite dumps_at_obj by done.
    change (String "{" ?R +:+ rest) with (String "{" (R +:+ rest)).
    rewrite scan_once_open_brace, append_assoc, skip_ws_newline_indent.
    assert (Hsv : starts_value (dumps_members level (x :: l) +:+ rest) = true).
    { rewrite dumps_members_cons, !append_assoc, encode_str_app. done. }
    rewrite (starts_value_skip_ws _ Hsv).
    destruct (starts_value_inv _ Hsv) as (c & r & Heq & _ & Hc).
    rewrite Heq, Hc, <- Heq.
    rewrite object_items_dumps; [|done|done|done|done| |done].
    + by rewrite dict_of_pairs_nodup.
    + simpl in Hfuel. simpl. lia.
Qed.

Lemma length_newline_indent level :
  (1 ≤ String.length (newline_indent level))%nat.
Proof. unfold newline_indent. simpl. lia. Qed.

Lemma items_size_bound level l :
  Forall (λ x, ∀ level, (json_size x ≤ S (String.length (dumps_at level x)))%nat) l →
  (list_sum (map (λ x, S (json_size x)) l)
   ≤ String.length (dumps_items level l))%nat.
Proof.
  induction l as [|x l IH]; [done|]. intros HF.
  apply Forall_cons in HF as [Hx HF]. specialize (IH HF).
  rewrite dumps_items_cons, length_append. simpl list_sum.
  specialize (Hx (S level)). pose proof (length_newline_indent level).
  pose proof (length_newline_indent (S level)).
  destruct l; rewrite !length_append; simpl in *; lia.
Qed.

Lemma members_size_bound level l :
  Forall (λ kv, ∀ level,
            (json_size kv.2 ≤ S (String.length (dumps_at level kv.2)))%nat) l →
  (list_sum (map (λ kv, S (json_size kv.2)) l)
   ≤ String.length (dumps_members level l))%nat.
Proof.
  induction l as [|x l IH]; [done|]. intros HF.
  apply Forall_cons in HF as [Hx HF]. specialize (IH HF).
  rewrite dumps_members_cons, !length_append. simpl list_sum.
  specialize (Hx (S level)). pose proof (length_newline_indent level).
  pose proof (length_newline_indent (S level)).
  destruct l; rewrite !length_append; simpl in *; lia.
Qed.

(** The fuel [json_loads] gives the scanner is enough for any text that
    [json_dumps] writes. *)
Lemma json_size_bound v level :
  (json_size v ≤ S (String.length (dumps_at level v)))%nat.
Proof.
  revert level.
  induction v as [|b|n|l|s|items IH|members IH] using json_nested_ind;
    intros level; try (simpl; lia).
  - destruct items as [|x l]; [simpl; lia|].
    rewrite dumps_at_arr by done.
    pose proof (items_size_bound level _ IH).
    change (String.length (String ?c ?s)) with (S (String.length s)).
    rewrite length_append.
    change (json_size (JArr (x :: l))) with
      (S (list_sum (map (λ x, S (json_size x)) (x :: l)))). lia.
  - destruct members as [|x l]; [simpl; lia|].
    rewrite dumps_at_obj by done.
    pose proof (members_size_bound level _ IH).
    change (String.length (String ?c ?s)) with (S (String.length s)).
    rewrite length_append.
    change (json_size (JObj (x :: l))) with
      (S (list_sum (map (λ kv, S (json_size kv.2)) (x :: l)))). lia.
Qed.

(** [json.loads(json.dumps(v, indent=2, ensure_ascii=False)) == v]. *)
Lemma json_loads_dumps v :
  json_ok v = true → dumpable v = true → json_loads (json_dumps v) = Ok v.
Proof.
  intros Hok Hdp. unfold json_loads, json_dumps.
  pose proof (dumps_starts_value v 0%nat "" Hok) as Hsv.
  rewrite append_nil_r in Hsv.
  rewrite (starts_value_no_bom _ Hsv), (starts_value_skip_ws _ Hsv).
  assert (Hfuel : (json_size v ≤ 2 * String.length (dumps_at 0 v) + 2)%nat).
  { pose proof (json_size_bound v 0%nat). lia. }
  pose proof (scan_once_dumps v Hok Hdp 0%nat _ "" Hfuel eq_refl) as H.
  rewrite append_nil_r in H. by rewrite H.
Qed.

(** ** Round trip *)

Lemma set_metadata_twice m1 m2 w :
  set_metadata m2 (set_metadata m1 w) = set_metadata m2 w.
Proof. done. Qed.

Lemma add_table_document name description tables table_name columns w :
  metadata (self w) = document name description tables →
  add_table table_name columns w =
    (Ok tt,
     set_metadata
       (document name description (tables ++ [table_of (table_name, columns)]))
       w).
Proof. intros H. unfold add_table. rewrite H. done. Qed.

(** After [create_new], every [add_table] returns. *)
Lemma add_tables_document name description calls : ∀ tables w,
  metadata (self w) = document name description tables →
  add_tables calls w =
    (Ok tt,
     set_metadata (document name description (tables ++ map table_of calls)) w).
Proof.
  induction calls as [|[table_name columns] calls IH]; intros tables w H; simpl.
  - rewrite app_nil_r, <- H. by rewrite set_metadata_same.
  - rewrite (add_table_document _ _ _ _ _ _ H).
    rewrite (IH (tables ++ [table_of (table_name, columns)])) by done.
    by rewrite set_metadata_twice, <- app_assoc.
Qed.

Lemma json_ok_table_of call : columns_ok call.2 = true → json_ok (table_of call) = true.
Proof.
  destruct call as [table_name [[|x l]|]]; simpl; intros H; by rewrite ?H.
Qed.

Lemma json_ok_document name description tables :
  forallb json_ok tables = true →
  json_ok (document name description tables) = true.
Proof.
  intros H. simpl. by rewrite H.
Qed.

Lemma dumpable_table_of call :
  utf8_valid call.1 = true → columns_dumpable call.2 = true →
  dumpable (table_of call) = true.
Proof.
  destruct call as [table_name [[|x l]|]]; cbn -[utf8_valid];
    intros H1 H2; rewrite H1, ?H2; done.
Qed.

Lemma dumpable_document name description tables :
  utf8_valid name = true → utf8_valid description = true →
  forallb dumpable tables = true →
  dumpable (document name description tables) = true.
Proof.
  intros H1 H2 H3. cbn -[utf8_valid]. rewrite H1, H2, H3. done.
Qed.

Lemma call_ok_tables calls :
  forallb call_ok calls = true →
  forallb json_ok (map table_of calls) = true
  ∧ forallb dumpable (map table_of calls) = true.
Proof.
  induction calls as [|c calls IH]; [done|].
  cbn [forallb map]. intros H. apply andb_true_iff in H as [Hc H].
  unfold call_ok in Hc.
  apply andb_true_iff in Hc as [Hc Hd]. apply andb_true_iff in Hc as [Hn Hc].
  destruct (IH H) as [-> ->].
  by rewrite json_ok_table_of, dumpable_table_of.
Qed.

(** A [load] from the target of a [save] that returned reads the text the
    [save] wrote. *)
Lemma load_after_save output_path w w' save_path h m :
  save output_path w = (Ok tt, w') →
  save_target (self w) output_path = Some save_path →
  json_loads (json_dumps (metadata (self w))) = Ok m →
  path h = Some save_path →
  exists_ (disk w') save_path = true
  ∧ load {| self := h; disk := disk w' |} =
      (Ok m, {| self := {| path := Some save_path; metadata := m |};
                disk := disk w' |}).
Proof.
  intros Hs Ht Hm Hp.
  destruct (save_Ok_inv _ _ _ Hs)
    as (sp & fs1 & fp & Ht' & _ & _ & _ & _ & _ & _ & _ & Hd & Hr).
  assert (sp = save_path) as -> by congruence.
  unfold metadata_file_of, directory_of in *.
  unfold load. simpl. rewrite Hp.
  destruct (String.eqb (suffix save_path) "").
  - pose proof (is_dir_exists _ _ Hd) as Hex.
    destruct (read_text_Ok _ _ _ Hr) as (_ & Hex' & _).
    split; [done|]. rewrite Hex, Hd, Hex'. simpl.
    unfold json_load. rewrite Hr. simpl. rewrite Hm.
    unfold set_metadata. simpl. by rewrite Hp.
  - destruct (read_text_Ok _ _ _ Hr) as (_ & Hex & Hnd).
    split; [done|]. rewrite Hex, Hnd. simpl.
    unfold json_load. rewrite Hr. simpl. rewrite Hm.
    unfold set_metadata. simpl. by rewrite Hp.
Qed.


(** * Further properties *)

(** ** Tables *)

Lemma dict_get_set_ne d k k' v :
  k ≠ k' → dict_get (dict_set d k v) k' = dict_get d k'.
Proof.
  intros Hne. induction d as [|[k1 v1] d IH]; simpl.
  - destruct (String.eqb_spec k k'); [done|done].
  - destruct (String.eqb_spec k1 k) as [->|Hk]; simpl.
    + destruct (String.eqb_spec k k'); [done|done].
    + destruct (String.eqb k1 k'); [done|]. exact IH.
Qed.

(** What an [add_table] that returns found and stored. *)
Lemma add_table_Ok_inv table_name columns w w' :
  add_table table_name columns w = (Ok tt, w') →
  ∃ d dm tables,
    metadata (self w) = JObj d
    ∧ (dict_get d "datamodel" = None
       ∧ dm = [("tables", JArr []); ("relationships", JArr [])]
       ∨ dict_get d "datamodel" = Some (JObj dm))
    ∧ dict_get dm "tables" = Some (JArr tables)
    ∧ w' = set_metadata
             (JObj (dict_set d "datamodel"
                      (JObj (dict_set dm "tables"
                               (JArr (tables ++ [table_of (table_name, columns)]))))))
             w.
Proof.
  unfold add_table.
  destruct (metadata (self w)) as [| | | | s|items|d] eqn:Hm; simpl; try done.
  - by destruct (str_contains "datamodel" s).
  - by destruct (existsb _ items).
  - unfold dict_has. destruct (dict_get d "datamodel") as [dmv|] eqn:Hd; simpl.
    + rewrite Hd. destruct dmv as [| | | | | |dm]; simpl; try done.
      destruct (dict_get dm "tables") as [[| | | | |tables|]|] eqn:Ht; simpl;
        try done.
      intros [= <-]. exists d, dm, tables. repeat split; auto.
    + rewrite dict_get_set_eq. simpl. rewrite dict_set_set.
      intros [= <-].
      exists d, [("tables", JArr []); ("relationships", JArr [])], [].
      repeat split; auto.
Qed.

(** X1.  The tables of a document built by [create_new] and [add_table]
    calls are the tables of the calls, in the order of the calls and with a
    repeated name kept as often as it was added; [get_info] counts them and
    gives the name and description of [create_new].  None of this touches the
    path or the file system. *)
Theorem tables_in_call_order
    (name description : string) (calls : list (string * option (list json)))
    (w : world) :
  ∃ w1,
    add_tables calls (create_new name description w).2 = (Ok tt, w1)
    ∧ get_tables (self w1) = Ok (JArr (map table_of calls))
    ∧ get_info (self w1) =
        Ok (JObj [("name", JStr name);
                  ("version", JStr "1.0");
                  ("description", JStr description);
                  ("table_count", JInt (Z.of_nat (length calls)))])
    ∧ path (self w1) = path (self w)
    ∧ disk w1 = disk w.
Proof.
  pose proof (add_tables_document name description calls []
                (create_new name description w).2 eq_refl) as H.
  eexists. split; [exact H|]. simpl.
  unfold get_info, get_tables. simpl. by rewrite length_map.
Qed.

(** X2.  An [add_table] that returns has appended exactly its table at the
    end of what [get_tables] gave before, and [get_info] then counts one
    more; the path, the file system and every top-level key other than
    [datamodel] are as before. *)
Theorem add_table_appends
    (table_name : string) (columns : option (list json)) (w w' : world) :
  add_table table_name columns w = (Ok tt, w') →
  ∃ d d' tables,
    metadata (self w) = JObj d
    ∧ metadata (self w') = JObj d'
    ∧ get_tables (self w) = Ok (JArr tables)
    ∧ get_tables (self w')
      = Ok (JArr (tables ++ [table_of (table_name, columns)]))
    ∧ get_info (self w') = Ok (info_of d' (Z.of_nat (S (length tables))))
    ∧ (∀ k, k ≠ "datamodel" → dict_get d' k = dict_get d k)
    ∧ path (self w') = path (self w)
    ∧ disk w' = disk w.
Proof.
  intros H.
  destruct (add_table_Ok_inv _ _ _ _ H) as (d & dm & tables & Hm & Hd & Ht & ->).
  eexists d, _, tables. split; [exact Hm|]. split; [done|].
  assert (Hbefore : get_tables (self w) = Ok (JArr tables)).
  { unfold get_tables. rewrite Hm. simpl.
    destruct Hd as [[Hd ->]|Hd]; rewrite Hd; simpl.
    - simpl in Ht. by injection Ht as <-.
    - by rewrite Ht. }
  assert (Hafter : get_tables
            (self (set_metadata
               (JObj (dict_set d "datamodel"
                  (JObj (dict_set dm "tables"
                     (JArr (tables ++ [table_of (table_name, columns)])))))) w))
            = Ok (JArr (tables ++ [table_of (table_name, columns)]))).
  { unfold get_tables. simpl. rewrite dict_get_set_eq. simpl.
    by rewrite dict_get_set_eq. }
  split; [exact Hbefore|]. split; [exact Hafter|]. split; [|split; [|done]].
  - unfold get_info. rewrite Hafter. simpl. rewrite length_app. simpl.
    by rewrite Nat.add_1_r.
  - intros k Hk. by apply dict_get_set_ne.
Qed.

(** X3.  An [add_table] that raises has changed nothing: not the document,
    not the path, not the file system. *)
Theorem add_table_raise_keeps_world
    (table_name : string) (columns : option (list json)) (w w' : world)
    (e : exn) :
  add_table table_name columns w = (Raise e, w') → w' = w.
Proof.
  unfold add_table.
  destruct (metadata (self w)) as [| | | | s|items|d] eqn:Hm; simpl;
    try (by intros [= _ <-]).
  - destruct (str_contains "datamodel" s); simpl; intros [= _ <-];
      [by rewrite <- Hm, set_metadata_same|done].
  - destruct (existsb _ items); simpl; intros [= _ <-];
      [by rewrite <- Hm, set_metadata_same|done].
  - unfold dict_has. destruct (dict_get d "datamodel") as [dmv|] eqn:Hd; simpl.
    + rewrite Hd. destruct dmv as [| | | | | |dm]; simpl;
        try (intros [= _ <-]; by rewrite <- Hm, set_metadata_same).
      destruct (dict_get dm "tables") as [[| | | | |tables|]|] eqn:Ht; simpl;
        try (intros [= _ <-]; by rewrite <- Hm, set_metadata_same).
    + rewrite dict_get_set_eq. simpl. done.
Qed.

(** X4.  On a document that is not a mapping (a JSON array, string, number,
    boolean or null, all of which [load] accepts) [get_tables] and
    [get_info] raise [AttributeError], and [add_table] raises [TypeError]
    and changes nothing. *)
Theorem not_a_mapping_raises
    (w : world) (table_name : string) (columns : option (list json)) :
  is_mapping (metadata (self w)) = false →
  get_tables (self w) = Raise AttributeError
  ∧ get_info (self w) = Raise AttributeError
  ∧ add_table table_name columns w = (Raise TypeError, w).
Proof.
  intros H. unfold get_tables, get_info, add_table.
  destruct (metadata (self w)) as [| | | | s|items|d] eqn:Hm; try done; simpl.
  - repeat split; try done.
    destruct (str_contains "datamodel" s); simpl; [|done].
    by rewrite <- Hm, set_metadata_same.
  - repeat split; try done.
    destruct (existsb _ items); simpl; [|done].
    by rewrite <- Hm, set_metadata_same.
Qed.

(** ** Constructing and loading *)

(** X5.  Constructing the handler on an existing directory that has no
    [definition.pbir] gives the default document: no tables, and [get_info]
    reports the name ["Unknown"], the version ["1.0"], an empty description
    and zero tables. *)
Theorem init_default_fill (s : string) (fs : FS) :
  s ≠ "" →
  is_dir fs (Path s) = true →
  exists_ fs (joinpath (Path s) "definition.pbir") = false →
  ∃ h,
    __init__ (Some s) fs = Ok h
    ∧ path h = Some (Path s)
    ∧ metadata h = _create_default_metadata
    ∧ get_tables h = Ok (JArr [])
    ∧ get_info h =
        Ok (JObj [("name", JStr "Unknown"); ("version", JStr "1.0");
                  ("description", JStr ""); ("table_count", JInt 0)]).
Proof.
  intros Hs Hd Hex. pose proof (is_dir_exists _ _ Hd) as He.
  rewrite (init_existing s fs Hs He). unfold load. simpl.
  rewrite He, Hd, Hex. simpl. eexists. split; [done|]. done.
Qed.

(** What the constructor reads after a [save] that returned. *)
Lemma init_after_save output_path w w' s :
  s ≠ "" →
  save output_path w = (Ok tt, w') →
  save_target (self w) output_path = Some (Path s) →
  json_ok (metadata (self w)) = true →
  __init__ (Some s) (disk w')
  = Ok {| path := Some (Path s); metadata := metadata (self w) |}.
Proof.
  intros Hs Hsave Ht Hok.
  destruct (save_Ok_inv _ _ _ Hsave) as (sp & fs1 & fp & _ & _ & Hdp & _).
  destruct (load_after_save output_path w w' (Path s)
              {| path := Some (Path s); metadata := JObj [] |}
              (metadata (self w)) Hsave Ht (json_loads_dumps _ Hok Hdp) eq_refl)
    as [Hex Hload].
  rewrite (init_existing s _ Hs Hex). by rewrite Hload.
Qed.

(** X6.  A handler constructed on a path that does not exist yet keeps the
    path, with an empty document; after [create_new] and [add_table] calls
    whose document [save] can write and [load] reads back as it is (texts
    without lone surrogates, columns without floats and with integers within
    the limit of digits), [save()] without argument writes to that path when
    it is writable, and a handler constructed on the same path afterwards
    equals the one that saved. *)
Theorem save_to_constructed_path
    (s name description : string) (calls : list (string * option (list json)))
    (fs : FS) :
  s ≠ "" →
  exists_ fs (Path s) = false →
  utf8_valid name = true →
  utf8_valid description = true →
  forallb call_ok calls = true →
  writable fs (Path s) = true →
  ∃ w1 w2,
    __init__ (Some s) fs = Ok {| path := Some (Path s); metadata := JObj [] |}
    ∧ add_tables calls
        (create_new name description
           {| self := {| path := Some (Path s); metadata := JObj [] |};
              disk := fs |}).2 = (Ok tt, w1)
    ∧ save None w1 = (Ok tt, w2)
    ∧ __init__ (Some s) (disk w2) = Ok (self w1).
Proof.
  intros Hs Hex Hname Hdesc Hcalls Hw.
  set (w0 := {| self := {| path := Some (Path s); metadata := JObj [] |};
                disk := fs |}).
  pose proof (add_tables_document name description calls []
                (create_new name description w0).2 eq_refl) as Hadd.
  simpl app in Hadd.
  set (D := document name description (map table_of calls)) in *.
  set (w1 := set_metadata D (create_new name description w0).2) in *.
  destruct (call_ok_tables _ Hcalls) as [Hoks Hdps].
  assert (Hok : json_ok D = true) by by apply json_ok_document.
  assert (Hdp : dumpable D = true) by by apply dumpable_document.
  assert (Ht : save_target (self w1) None = Some (Path s)) by done.
  destruct (save_succeeds None w1 (Path s) Ht Hw Hdp) as [w2 Hsave].
  exists w1, w2. split; [|split; [exact Hadd|split; [exact Hsave|]]].
  - unfold __init__. rewrite (path_of_arg_Some s Hs). simpl. by rewrite Hex.
  - by rewrite (init_after_save None w1 w2 s Hs Hsave Ht Hok).
Qed.

(** X7.  [load] only reads: it leaves the path and the file system as they
    were, its outcome does not depend on the document the handler held, and a
    second [load] right after the first does what the first did. *)
Theorem load_reads_only (w : world) :
  disk (load w).2 = disk w
  ∧ path (self (load w).2) = path (self w)
  ∧ (∀ m, (load (set_metadata m w)).1 = (load w).1)
  ∧ load (load w).2 = load w.
Proof.
  assert (G : ∃ o, load w = (o, match o with
                                | Ok m' => set_metadata m' w
                                | Raise _ => w
                                end)
              ∧ ∀ m, load (set_metadata m w) =
                  (o, match o with
                      | Ok m' => set_metadata m' w
                      | Raise _ => set_metadata m w
                      end)).
  { unfold load. simpl.
    destruct (path (self w)); [|by exists (Raise FileNotFoundError)].
    destruct (negb _); [by exists (Raise FileNotFoundError)|].
    destruct (if is_dir _ _ then _ else _) as [m'|e];
      [by exists (Ok m')|by exists (Raise e)]. }
  destruct G as (o & L & G). rewrite L. simpl. repeat split.
  - by destruct o.
  - by destruct o.
  - intros m. by rewrite G.
  - destruct o as [m|e]; [|exact L]. by rewrite G.
Qed.

(** The text [json.loads] refuses makes [load] raise. *)
Lemma load_raises_on_bad_text w p text e :
  path (self w) = Some p →
  exists_ (disk w) p = true →
  read_text (disk w) (source_of (disk w) p) = Ok text →
  json_loads text = Raise e →
  load w = (Raise e, w).
Proof.
  intros Hp Hex Hread Hbad.
  destruct (read_text_Ok _ _ _ Hread) as (_ & Hsrc & _).
  rewrite (load_source w p Hp Hex Hsrc). unfold json_load.
  rewrite Hread. simpl. by rewrite Hbad.
Qed.

Lemma json_loads_blank text :
  skip_ws text = "" → json_loads text = Raise JSONDecodeError.
Proof.
  intros H. unfold json_loads. rewrite H.
  assert (String.prefix (String "239" (String "187" (String "191" ""))) text
          = false) as ->.
  { destruct text as [|c r]; [done|]. simpl in H.
    destruct c as [[] [] [] [] [] [] [] []]; try done. }
  by replace (2 * String.length text + 2)%nat
    with (S (2 * String.length text + 1)) by lia.
Qed.

(** X8.  A file that is empty or holds only white space is not a document:
    [load] raises [JSONDecodeError] and keeps the handler as it was, and the
    constructor raises it too. *)
Theorem load_blank_file (s text : string) (fs : FS) (h : PBIRHandler) :
  s ≠ "" →
  exists_ fs (Path s) = true →
  read_text fs (source_of fs (Path s)) = Ok text →
  skip_ws text = "" →
  path h = Some (Path s) →
  load {| self := h; disk := fs |}
  = (Raise JSONDecodeError, {| self := h; disk := fs |})
  ∧ __init__ (Some s) fs = Raise JSONDecodeError.
Proof.
  intros Hs Hex Hread Hblank Hp.
  pose proof (json_loads_blank text Hblank) as Hbad.
  split.
  - by apply (load_raises_on_bad_text _ (Path s) text).
  - rewrite (init_existing s fs Hs Hex).
    by rewrite (load_raises_on_bad_text _ (Path s) text JSONDecodeError).
Qed.

(** X9.  When [definition.pbir] inside the directory is itself a directory,
    [load] takes it for the file ([exists] answers for it), the [open] raises
    [IsADirectoryError], and the handler is as it was. *)
Theorem load_definition_is_directory (w : world) (p : PosixPath) :
  path (self w) = Some p →
  is_dir (disk w) (joinpath p "definition.pbir") = true →
  load w = (Raise IsADirectoryError, w).
Proof.
  intros Hp Hd.
  assert (Hpd : is_dir (disk w) p = true).
  { eapply is_dir_prefix; [exact Hd|]. by apply prefix_app_r. }
  unfold load. rewrite Hp, (is_dir_exists _ _ Hpd), Hpd. simpl.
  rewrite (is_dir_exists _ _ Hd). unfold json_load, read_text.
  unfold is_dir in Hd.
  by destruct (stat (disk w) (joinpath p "definition.pbir")) as [[]|].
Qed.

(** ** Saving *)

(** X10.  [save] decides by the name alone whether its target is a directory
    or a file, so it fails on an entry of the other kind: on a regular file
    whose name has no suffix it raises [FileExistsError], on a directory whose
    name has a suffix it raises [IsADirectoryError]; in both cases nothing is
    written and nothing changes. *)
Theorem save_kind_mismatch
    (output_path : option string) (w : world) (save_path : PosixPath) :
  save_target (self w) output_path = Some save_path →
  (suffix save_path = "" →
   is_file (disk w) save_path = true →
   save output_path w = (Raise FileExistsError, w))
  ∧ (suffix save_path ≠ "" →
     is_dir (disk w) save_path = true →
     save output_path w = (Raise IsADirectoryError, w)).
Proof.
  intros Ht. rewrite save_unfold, Ht. unfold directory_of, metadata_file_of.
  split.
  - intros -> Hfile. simpl. unfold is_file in Hfile.
    destruct (stat (disk w) save_path) as [[content|]|] eqn:Hst; try done.
    destruct (stat_Ok_locate _ _ _ Hst) as (m & Hl & He).
    unfold mkdir. rewrite (mkdir_rec_located _ _ _ _ _ Hl), He.
    by rewrite set_disk_same.
  - intros Hsuf Hd. destruct (String.eqb_spec (suffix save_path) ""); [done|].
    assert (Hpd : is_dir (disk w) (parent save_path) = true).
    { eapply is_dir_prefix; [exact Hd|apply parent_prefix]. }
    rewrite (mkdir_existing _ _ Hpd). unfold open_w.
    rewrite is_dir_locate in Hd.
    destruct (locate (disk w) save_path) as [m|]; [|done]. simpl.
    destruct (entry (disk w) m) as [[]|]; try done.
    by rewrite set_disk_same.
Qed.

(** X11.  A second [save] to the target of a [save] that returned returns
    too, whatever document the handler holds by then that [json.dump] can
    write and [json.load] reads back as it is, and replaces the file's
    content in full: the file then holds the text of the new document and
    nothing of the old one, and a [load] from the target yields the new
    document. *)
Theorem save_overwrites
    (output_path : option string) (w w1 : world) (m2 : json) :
  save output_path w = (Ok tt, w1) →
  json_ok m2 = true →
  dumpable m2 = true →
  ∃ save_path w2,
    save_target (self w) output_path = Some save_path
    ∧ save output_path (set_metadata m2 w1) = (Ok tt, w2)
    ∧ read_text (disk w2) (metadata_file_of save_path) = Ok (json_dumps m2)
    ∧ ∀ h, path h = Some save_path →
        (load {| self := h; disk := disk w2 |}).1 = Ok m2.
Proof.
  intros Hs Hok Hdp.
  destruct (save_Ok_inv _ _ _ Hs)
    as (sp & fs1 & fp & Ht & _ & _ & _ & _ & Hl & Hfp & Hw1 & Hd & Hr).
  assert (Ht1 : save_target (self (set_metadata m2 w1)) output_path = Some sp).
  { rewrite Hw1. exact Ht. }
  assert (Hs2 : ∃ w2, save output_path (set_metadata m2 w1) = (Ok tt, w2)).
  { rewrite save_unfold, Ht1. simpl. rewrite (mkdir_existing _ _ Hd).
    rewrite (json_dump_dumpable _ Hdp).
    destruct (read_text_Ok _ _ _ Hr) as (Hst & _ & _).
    destruct (stat_Ok_locate _ _ _ Hst) as (m & Hm & He).
    unfold open_w. rewrite Hm. simpl. rewrite He. by eexists. }
  destruct Hs2 as [w2 Hs2]. exists sp, w2. split; [exact Ht|].
  split; [exact Hs2|].
  destruct (save_Ok_inv _ _ _ Hs2)
    as (sp' & _ & _ & Ht' & _ & _ & _ & _ & _ & _ & _ & _ & Hr2).
  assert (sp' = sp) as -> by congruence. split; [exact Hr2|].
  intros h Hp.
  destruct (load_after_save _ _ _ sp h m2 Hs2 Ht1
              (json_loads_dumps _ Hok Hdp) Hp) as [_ ->]. done.
Qed.

(** X12.  The file that [save] wrote can be loaded by its own path, whichever
    kind the target was: for a directory target, a handler whose path is
    [definition.pbir] inside it loads the saved document as a plain file. *)
Theorem load_written_file
    (output_path : option string) (w w' : world) (save_path : PosixPath)
    (h : PBIRHandler) :
  save output_path w = (Ok tt, w') →
  save_target (self w) output_path = Some save_path →
  json_ok (metadata (self w)) = true →
  path h = Some (metadata_file_of save_path) →
  load {| self := h; disk := disk w' |} =
    (Ok (metadata (self w)),
     {| self := {| path := Some (metadata_file_of save_path);
                   metadata := metadata (self w) |};
        disk := disk w' |}).
Proof.
  intros Hs Ht Hok Hp.
  destruct (save_Ok_inv _ _ _ Hs)
    as (sp & fs1 & fp & Ht' & _ & Hdp & _ & _ & _ & _ & _ & _ & Hr).
  assert (sp = save_path) as -> by congruence.
  destruct (read_text_Ok _ _ _ Hr) as (_ & Hex & Hnd).
  unfold load. simpl. rewrite Hp, Hex, Hnd. simpl.
  unfold json_load. rewrite Hr. simpl. rewrite (json_loads_dumps _ Hok Hdp).
  unfold set_metadata. simpl. by rewrite Hp.
Qed.

(** ** The example driver *)

#[local] Arguments save : simpl never.
#[local] Arguments __init__ : simpl never.

(** [main] up to its [save], and after it. *)
Lemma main_unfold fs :
  main fs =
    match save (Some "/tmp/example_pbir")
            {| self := {| path := None; metadata := main_document |};
               disk := fs |} with
    | (Ok _, w) =>
        (Ok tt, (main_output_until_save +:+ main_output_after_save, disk w))
    | (Raise e, w) => (Raise e, (main_output_until_save, disk w))
    end.
Proof.
  unfold main.
  change (__init__ None fs) with (Ok {| path := None; metadata := JObj [] |}).
  simpl.
  match goal with
  | |- context [save (Some "/tmp/example_pbir") ?w0] =>
      change w0 with
        {| self := {| path := None; metadata := main_document |}; disk := fs |}
  end.
  destruct (save _ _) as [[[]|e] w] eqn:Hs; [|done].
  rewrite (init_after_save _ _ _ "/tmp/example_pbir" ltac:(done) Hs eq_refl
             eq_refl).
  reflexivity.
Qed.

(** X13.  On every file system where [/tmp/example_pbir] can be written,
    [main] runs to its end without raising and prints its report: two tables
    of three columns each, and, read back from the saved directory by a second
    handler, the name ["Sales Dashboard"] with 2 tables.  It leaves the
    document in [/tmp/example_pbir/definition.pbir]. *)
Theorem main_completes (fs : FS) :
  writable fs ["/"; "tmp"; "example_pbir"] = true →
  ∃ fs',
    main fs =
      (Ok tt, (main_output_until_save +:+ main_output_after_save, fs'))
    ∧ read_text fs' ["/"; "tmp"; "example_pbir"; "definition.pbir"]
      = Ok (json_dumps main_document).
Proof.
  intros Hw. rewrite main_unfold.
  destruct (save_succeeds (Some "/tmp/example_pbir")
              {| self := {| path := None; metadata := main_document |};
                 disk := fs |}
              ["/"; "tmp"; "example_pbir"] eq_refl Hw eq_refl) as [w Hs].
  rewrite Hs. exists (disk w). split; [done|].
  destruct (save_Ok_inv _ _ _ Hs)
    as (sp & _ & _ & Ht & _ & _ & _ & _ & _ & _ & _ & _ & Hr).
  injection Ht as <-. exact Hr.
Qed.

(** X14.  [main] can only fail in its [save]: it raises exactly when that
    [save] raises, with the same exception, having printed everything up to
    ["5. Saving to file..."] and nothing after it. *)
Theorem main_fails_only_in_save
    (fs fs' : FS) (e : exn) (out : string) :
  main fs = (Raise e, (out, fs')) ↔
  ∃ w,
    save (Some "/tmp/example_pbir")
      {| self := {| path := None; metadata := main_document |}; disk := fs |}
    = (Raise e, w)
    ∧ out = main_output_until_save
    ∧ fs' = disk w.
Proof.
  rewrite main_unfold. split.
  - destruct (save _ _) as [[[]|e'] w]; [done|]. intros [= <- <- <-].
    by exists w.
  - intros (w & Hs & Ho & Hf). subst out fs'. by rewrite Hs.
Qed.

(** ** Documents of any shape *)

Lemma dict_set_keys d k v :
  map fst (dict_set d k v)
  = if dict_has d k then map fst d else map fst d ++ [k].
Proof.
  unfold dict_has. induction d as [|[k' v'] d IH]; simpl; [done|].
  destruct (String.eqb k' k) eqn:E; simpl; [done|]. rewrite IH.
  by destruct (dict_get d k).
Qed.

Lemma dict_get_elem_of d k : dict_has d k = false → k ∉ map fst d.
Proof.
  unfold dict_has. induction d as [|[k' v'] d IH]; simpl.
  - intros _. apply not_elem_of_nil.
  - destruct (String.eqb_spec k' k) as [->|Hne]; [done|].
    intros H. apply not_elem_of_cons. split; [done|]. by apply IH.
Qed.

Lemma json_ok_members_set d k v :
  forallb (λ kv : string * json, json_ok kv.2) d = true → json_ok v = true →
  forallb (λ kv : string * json, json_ok kv.2) (dict_set d k v) = true.
Proof.
  intros Hd Hv. induction d as [|[k' v'] d IH]; simpl in *.
  - by rewrite Hv.
  - apply andb_true_iff in Hd as [H1 H2].
    destruct (String.eqb k' k); simpl; [by rewrite Hv, H2|].
    by rewrite H1, IH.
Qed.

(** Storing a representable value in a representable mapping keeps it
    representable. *)
Lemma json_ok_dict_set d k v :
  json_ok (JObj d) = true → json_ok v = true →
  json_ok (JObj (dict_set d k v)) = true.
Proof.
  simpl. intros Hd Hv. apply andb_true_iff in Hd as [Hnd Hd].
  apply bool_decide_eq_true in Hnd.
  rewrite (json_ok_members_set d k v Hd Hv), andb_true_r.
  apply bool_decide_eq_true. rewrite dict_set_keys.
  destruct (dict_has d k) eqn:E; [done|].
  apply NoDup_app. split; [done|]. split; [|apply NoDup_singleton].
  intros x Hx Hx'. apply list_elem_of_singleton in Hx' as ->.
  by apply (dict_get_elem_of d k E).
Qed.

Lemma json_ok_dict_get d k v :
  json_ok (JObj d) = true → dict_get d k = Some v → json_ok v = true.
Proof.
  simpl. intros Hd. apply andb_true_iff in Hd as [_ Hd].
  induction d as [|[k' v'] d IH]; simpl in *; [done|].
  apply andb_true_iff in Hd as [H1 H2].
  destruct (String.eqb k' k); [by intros [= <-]|]. by apply IH.
Qed.

(** An [add_table] that returns keeps a representable document
    representable. *)
Lemma json_ok_add_table table_name columns w w' :
  add_table table_name columns w = (Ok tt, w') →
  json_ok (metadata (self w)) = true → columns_ok columns = true →
  json_ok (metadata (self w')) = true.
Proof.
  intros H Hok Hc.
  destruct (add_table_Ok_inv _ _ _ _ H) as (d & dm & tables & Hm & Hd & Ht & ->).
  rewrite Hm in Hok. simpl metadata.
  assert (Hdm : json_ok (JObj dm) = true).
  { destruct Hd as [[_ ->]|Hd]; [done|]. by eapply json_ok_dict_get. }
  pose proof (json_ok_dict_get _ _ _ Hdm Ht) as Htab.
  apply json_ok_dict_set; [done|]. apply json_ok_dict_set; [done|].
  change (forallb json_ok tables = true) in Htab.
  change (forallb json_ok (tables ++ [table_of (table_name, columns)]) = true).
  rewrite forallb_app, Htab.
  change (forallb json_ok [table_of (table_name, columns)])
    with (json_ok (table_of (table_name, columns)) && true).
  by rewrite (json_ok_table_of (table_name, columns) Hc).
Qed.


Lemma init_path s fs h : s ≠ "" → __init__ (Some s) fs = Ok h → path h = Some (Path s).
Proof.
  intros Hs. unfold __init__. rewrite (path_of_arg_Some s Hs). simpl.
  destruct (exists_ fs (Path s)); [|by intros [= <-]].
  unfold load. simpl. destruct (negb _); [done|].
  destruct (if is_dir _ _ then _ else _); [|done]. by intros [= <-].
Qed.

(** X16.  Editing a stored document: for a handler constructed from an
    existing path, an [add_table] that returns followed by a [save()] without
    argument that returns stores the edited document where it came from; a
    handler constructed on the same path afterwards equals the edited one,
    and its tables are the old ones followed by the new table. *)
Theorem edit_and_save_back
    (s table_name : string) (columns : option (list json)) (fs : FS)
    (h : PBIRHandler) (w1 w2 : world) :
  s ≠ "" →
  __init__ (Some s) fs = Ok h →
  json_ok (metadata h) = true →
  columns_ok columns = true →
  add_table table_name columns {| self := h; disk := fs |} = (Ok tt, w1) →
  save None w1 = (Ok tt, w2) →
  ∃ tables,
    get_tables h = Ok (JArr tables)
    ∧ __init__ (Some s) (disk w2) = Ok (self w1)
    ∧ get_tables (self w1)
      = Ok (JArr (tables ++ [table_of (table_name, columns)])).
Proof.
  intros Hs Hinit Hok Hc Hadd Hsave.
  pose proof (init_path s fs h Hs Hinit) as Hp.
  pose proof (json_ok_add_table _ _ _ _ Hadd Hok Hc) as Hok1.
  destruct (add_table_Ok_inv _ _ _ _ Hadd)
    as (d & dm & tables & Hm & Hd & Ht & Hw1).
  simpl in Hm.
  assert (Hp1 : path (self w1) = Some (Path s)) by (by rewrite Hw1).
  assert (Htg : save_target (self w1) None = Some (Path s)) by done.
  exists tables. split; [|split].
  - unfold get_tables. rewrite Hm. simpl.
    destruct Hd as [[Hd ->]|Hd]; rewrite Hd; simpl.
    + simpl in Ht. by injection Ht as <-.
    + by rewrite Ht.
  - rewrite (init_after_save None w1 w2 s Hs Hsave Htg Hok1).
    f_equal. destruct (self w1) as [p m]. simpl in *. by rewrite Hp1.
  - rewrite Hw1. unfold get_tables. simpl. rewrite dict_get_set_eq. simpl.
    by rewrite dict_get_set_eq.
Qed.

(** ** What [save] leaves alone, and when it returns *)


(** X18.  [save] returns exactly when it has a target that can be written
    and a document that can be written: the path of the file can be given to
    the system, no part of the path down to the target's directory is a
    regular file, the file to write is not a directory, and [json.dump] runs
    to its end on the document.  In every other case it raises. *)
Theorem save_returns_iff_writable (output_path : option string) (w : world) :
  returns (save output_path w).1 = true ↔
  ∃ save_path,
    save_target (self w) output_path = Some save_path
    ∧ writable (disk w) save_path = true
    ∧ dumpable (metadata (self w)) = true.
Proof.
  split.
  - destruct (save output_path w) as [[[]|e] w'] eqn:Hs; [|done]. intros _.
    destruct (save_Ok_inv _ _ _ Hs) as (sp & fs1 & fp & Ht & Hw & Hdp & _).
    by exists sp.
  - intros (sp & Ht & Hw & Hdp).
    destruct (save_succeeds _ _ _ Ht Hw Hdp) as [w' ->]. done.
Qed.

End PBIR.

(** * The properties at sample inputs *)



(** C2: a [load] that returns with a document that has no [datamodel]. *)
Lemma load_accepts_document_without_datamodel :
  let fs := in_home {[ home ++ ["doc.json"] := File "{}" ]} in
  let h := {| path := Some ["doc.json"]; metadata := JObj [] |} in
  __init__ (Some "doc.json") fs = Ok h
  ∧ load {| self := h; disk := fs |} = (Ok (JObj []), {| self := h; disk := fs |})
  ∧ datamodel_sequences (metadata h) = false.
Proof. vm_compute. done. Qed.

(** C2 (amended) at the default document of an empty directory. *)
Lemma datamodel_sequences_after_create_or_default_witness :
  let w := {| self := {| path := Some ["project"]; metadata := JObj [] |};
              disk := in_home {[ home ++ ["project"] := Dir ]} |} in
  datamodel_sequences (metadata (self (create_new "Sales" "" w).2)) = true
  ∧ load w = (Ok _create_default_metadata,
              set_metadata _create_default_metadata w)
  ∧ datamodel_sequences (metadata (self (load w).2)) = true.
Proof.
  intros w.
  destruct (datamodel_sequences_after_create_or_default w) as (H1 & H2 & _).
  split; [apply H1|]. apply (H2 ["project"]); reflexivity.
Defined.

(** C3: [get_tables] and [get_info] raise on a document that [load]
    accepts. *)
Lemma accessors_raise_on_null_datamodel :
  let fs := in_home {[ home ++ ["doc.json"] := File null_datamodel_text ]} in
  let h := {| path := Some ["doc.json"];
              metadata := JObj [("datamodel", JNull)] |} in
  __init__ (Some "doc.json") fs = Ok h
  ∧ get_tables h = Raise AttributeError
  ∧ get_info h = Raise AttributeError.
Proof. vm_compute. done. Qed.

(** C3 (amended) at the empty mapping. *)
Lemma accessors_total_on_mappings_witness :
  get_tables {| path := None; metadata := JObj [] |} = Ok (JArr [])
  ∧ get_info {| path := None; metadata := JObj [] |} =
      Ok (JObj [("name", JStr "Unknown"); ("version", JStr "Unknown");
                ("description", JStr ""); ("table_count", JInt 0)]).
Proof.
  destruct (accessors_total_on_mappings {| path := None; metadata := JObj [] |}
              [] eq_refl I) as (H1 & H2 & _).
  split; [exact H1|exact (H2 0%Z eq_refl)].
Defined.

(** C4 at a handler without a path. *)
Lemma load_failure_keeps_document_witness :
  load fresh_world = (Raise FileNotFoundError, fresh_world)
  ∧ (load fresh_world).2 = fresh_world.
Proof.
  destruct (load_failure_keeps_document fresh_world) as [H1 H2].
  split; [exact (H1 I)|exact (H2 FileNotFoundError eq_refl)].
Defined.




(** C8 at a fresh handler. *)
Lemma save_without_destination_witness :
  save lexeme_repr None fresh_world = (Raise ValueError, fresh_world).
Proof.
  destruct (save_without_destination lexeme_repr) as [_ H].
  exact (H fresh_world eq_refl).
Defined.


(** C10 (amended) at a file that holds an unfinished object, and at a file
    whose one byte is not UTF-8. *)
Lemma init_raises_on_malformed_witness :
  __init__ (Some "bad.json") (in_home {[ home ++ ["bad.json"] := File "{" ]})
  = Raise JSONDecodeError
  ∧ __init__ (Some "latin.json")
      (in_home {[ home ++ ["latin.json"] := File (String "233" "") ]})
    = Raise UnicodeDecodeError.
Proof.
  split.
  - destruct (init_raises_on_malformed "bad.json" "{"
                (in_home {[ home ++ ["bad.json"] := File "{" ]})
                ltac:(done) eq_refl eq_refl) as [_ H].
    exact (proj1 (H eq_refl JSONDecodeError eq_refl)).
  - destruct (init_raises_on_malformed "latin.json" (String "233" "")
                (in_home {[ home ++ ["latin.json"] := File (String "233" "") ]})
                ltac:(done) eq_refl eq_refl) as [H _].
    exact (H eq_refl).
Defined.

(** C10: a file that holds [NaN], which is not JSON.  The decoder of
    [json.load] accepts it, and the constructor returns. *)
Lemma init_accepts_NaN :
  __init__ (Some "bad.json") (in_home {[ home ++ ["bad.json"] := File "NaN" ]})
  = Ok {| path := Some ["bad.json"]; metadata := JFloat "NaN" |}.
Proof. vm_compute. done. Qed.

(** * The further properties at sample inputs *)

(** X2 at a fresh handler. *)
Lemma add_table_appends_witness :
  let w' := (add_table "Sales" (Some sales_columns) fresh_world).2 in
  ∃ d d' tables,
    metadata (self fresh_world) = JObj d
    ∧ metadata (self w') = JObj d'
    ∧ get_tables (self fresh_world) = Ok (JArr tables)
    ∧ get_tables (self w')
      = Ok (JArr (tables ++ [table_of ("Sales", Some sales_columns)]))
    ∧ get_info (self w') = Ok (info_of d' (Z.of_nat (S (length tables))))
    ∧ (∀ k, k ≠ "datamodel" → dict_get d' k = dict_get d k)
    ∧ path (self w') = path (self fresh_world)
    ∧ disk w' = disk fresh_world.
Proof.
  exact (add_table_appends "Sales" (Some sales_columns) fresh_world _ eq_refl).
Defined.

(** X3 at a document whose [datamodel] has no [tables]. *)
Lemma add_table_raise_keeps_world_witness :
  let w := set_metadata (JObj [("datamodel", JObj [])]) fresh_world in
  (add_table "Sales" None w).2 = w.
Proof.
  intros w.
  exact (add_table_raise_keeps_world "Sales" None w _ KeyError eq_refl).
Defined.

(** X4 at the document of a file that holds an empty array. *)
Lemma not_a_mapping_raises_witness :
  let fs := in_home {[ home ++ ["list.json"] := File "[]" ]} in
  let h := {| path := Some ["list.json"]; metadata := JArr [] |} in
  __init__ (Some "list.json") fs = Ok h
  ∧ get_tables h = Raise AttributeError
  ∧ get_info h = Raise AttributeError
  ∧ add_table "Sales" None {| self := h; disk := fs |}
    = (Raise TypeError, {| self := h; disk := fs |}).
Proof.
  split; [reflexivity|].
  exact (not_a_mapping_raises
           {| self := {| path := Some ["list.json"]; metadata := JArr [] |};
              disk := in_home {[ home ++ ["list.json"] := File "[]" ]} |}
           "Sales" None eq_refl).
Defined.

(** X5 at an empty directory. *)
Lemma init_default_fill_witness :
  ∃ h,
    __init__ (Some "project") (in_home {[ home ++ ["project"] := Dir ]}) = Ok h
    ∧ path h = Some (Path "project")
    ∧ metadata h = _create_default_metadata
    ∧ get_tables h = Ok (JArr [])
    ∧ get_info h =
        Ok (JObj [("name", JStr "Unknown"); ("version", JStr "1.0");
                  ("description", JStr ""); ("table_count", JInt 0)]).
Proof.
  apply (init_default_fill "project" (in_home {[ home ++ ["project"] := Dir ]}));
    [done|reflexivity..].
Defined.

(** X6 on an empty file system. *)
Lemma save_to_constructed_path_witness :
  ∃ w1 w2,
    __init__ (Some "out/project") (in_home ∅)
    = Ok {| path := Some (Path "out/project"); metadata := JObj [] |}
    ∧ add_tables [("Sales", Some sales_columns)]
        (create_new "Sales Dashboard" ""
           {| self := {| path := Some (Path "out/project");
                         metadata := JObj [] |};
              disk := in_home ∅ |}).2 = (Ok tt, w1)
    ∧ save lexeme_repr None w1 = (Ok tt, w2)
    ∧ __init__ (Some "out/project") (disk w2) = Ok (self w1).
Proof.
  apply (save_to_constructed_path lexeme_repr); [done|reflexivity..].
Defined.

(** X8 at a file that holds two spaces. *)
Lemma load_blank_file_witness :
  let fs := in_home {[ home ++ ["blank.json"] := File "  " ]} in
  let h := {| path := Some ["blank.json"]; metadata := JObj [] |} in
  load {| self := h; disk := fs |}
  = (Raise JSONDecodeError, {| self := h; disk := fs |})
  ∧ __init__ (Some "blank.json") fs = Raise JSONDecodeError.
Proof.
  apply (load_blank_file "blank.json" "  "); [done|reflexivity..].
Defined.

(** X9 at a directory whose [definition.pbir] is a directory. *)
Lemma load_definition_is_directory_witness :
  let w := {| self := {| path := Some ["project"]; metadata := JObj [] |};
              disk := in_home {[ home ++ ["project"] := Dir;
                                 home ++ ["project"; "definition.pbir"] := Dir ]} |} in
  load w = (Raise IsADirectoryError, w).
Proof.
  intros w. apply (load_definition_is_directory w ["project"]); reflexivity.
Defined.

(** X10 at a regular file without suffix and at a directory with one. *)
Lemma save_kind_mismatch_witness :
  (let w := {| self := {| path := None; metadata := JObj [] |};
               disk := in_home {[ home ++ ["summary"] := File "notes" ]} |} in
   save lexeme_repr (Some "summary") w = (Raise FileExistsError, w))
  ∧ (let w := {| self := {| path := None; metadata := JObj [] |};
                 disk := in_home {[ home ++ ["v1.0"] := Dir ]} |} in
     save lexeme_repr (Some "v1.0") w = (Raise IsADirectoryError, w)).
Proof.
  split; intros w.
  - exact (proj1 (save_kind_mismatch lexeme_repr (Some "summary") w ["summary"]
                    eq_refl) eq_refl eq_refl).
  - refine (proj2 (save_kind_mismatch lexeme_repr (Some "v1.0") w ["v1.0"]
                     eq_refl) _ eq_refl). done.
Defined.

(** X11: a second document saved over the first. *)
Lemma save_overwrites_witness :
  let w := (create_new "Sales" "" fresh_world).2 in
  let w1 := (save lexeme_repr (Some "report.json") w).2 in
  ∃ save_path w2,
    save_target (self w) (Some "report.json") = Some save_path
    ∧ save lexeme_repr (Some "report.json") (set_metadata (JObj []) w1)
      = (Ok tt, w2)
    ∧ read_text (disk w2) (metadata_file_of save_path)
      = Ok (json_dumps lexeme_repr (JObj []))
    ∧ ∀ h, path h = Some save_path →
        (load {| self := h; disk := disk w2 |}).1 = Ok (JObj []).
Proof.
  intros w w1.
  apply (save_overwrites lexeme_repr (Some "report.json") w w1 (JObj []));
    [vm_compute; reflexivity|reflexivity|reflexivity].
Defined.

(** X12 at a directory target. *)
Lemma load_written_file_witness :
  let w := (create_new "Sales" "" fresh_world).2 in
  let w' := (save lexeme_repr (Some "project") w).2 in
  let h := {| path := Some ["project"; "definition.pbir"];
              metadata := JObj [] |} in
  load {| self := h; disk := disk w' |} =
    (Ok (metadata (self w)),
     {| self := {| path := Some ["project"; "definition.pbir"];
                   metadata := metadata (self w) |};
        disk := disk w' |}).
Proof.
  intros w w' h.
  apply (load_written_file lexeme_repr (Some "project") w w' ["project"] h);
    [vm_compute; reflexivity|reflexivity..].
Defined.

(** X13 on an empty file system. *)
Lemma main_completes_witness :
  ∃ fs',
    main lexeme_repr sample_container_str (in_home ∅) =
      (Ok tt, (main_output_until_save +:+ main_output_after_save, fs'))
    ∧ read_text fs' ["/"; "tmp"; "example_pbir"; "definition.pbir"]
      = Ok (json_dumps lexeme_repr main_document).
Proof.
  exact (main_completes lexeme_repr sample_container_str (in_home ∅) eq_refl).
Defined.

(** X14 where [/tmp/example_pbir] is a regular file. *)
Lemma main_fails_only_in_save_witness :
  let fs := in_home {[ ["tmp"] := Dir;
                       ["tmp"; "example_pbir"] := File "notes" ]} in
  main lexeme_repr sample_container_str fs
  = (Raise FileExistsError, (main_output_until_save, fs)).
Proof.
  intros fs.
  apply (main_fails_only_in_save lexeme_repr sample_container_str).
  exists {| self := {| path := None; metadata := main_document |}; disk := fs |}.
  split; [vm_compute; reflexivity|]. split; reflexivity.
Defined.


(** X16 on the directory an earlier [save] wrote. *)
Lemma edit_and_save_back_witness :
  let w0 := (create_new "Sales" "" fresh_world).2 in
  let fs := disk (save lexeme_repr (Some "project") w0).2 in
  let h := {| path := Some ["project"]; metadata := metadata (self w0) |} in
  let w1 := (add_table "Customers" None {| self := h; disk := fs |}).2 in
  let w2 := (save lexeme_repr None w1).2 in
  ∃ tables,
    get_tables h = Ok (JArr tables)
    ∧ __init__ (Some "project") (disk w2) = Ok (self w1)
    ∧ get_tables (self w1)
      = Ok (JArr (tables ++ [table_of ("Customers", None)])).
Proof.
  intros w0 fs h w1 w2.
  apply (edit_and_save_back lexeme_repr "project" "Customers" None fs h w1 w2);
    [done|vm_compute; reflexivity|reflexivity|reflexivity
    |reflexivity|vm_compute; reflexivity].
Defined.


(** X18 at a fresh handler and a new directory. *)
Lemma save_returns_iff_writable_witness :
  returns (save lexeme_repr (Some "project") fresh_world).1 = true.
Proof.
  apply (save_returns_iff_writable lexeme_repr (Some "project") fresh_world).
  exists ["project"]. split; [|split]; reflexivity.
Defined.
